(** * CDF tracker: procurement-integrity join and reporting layer

    A shallow embedding of the award binder
    ([backend/api/procurement_award_router.py]), the project view assembler
    ([backend/api/project_router.py]), the natural-key upsert
    ([data_pipeline/import_projects.py]), the access guard
    ([backend/core/auth.py], [backend/api/auth_router.py]) and the user
    management it protects ([backend/api/users_router.py]).

    The relational store is a record of tables; a table is the list of its
    rows in physical order.  A handler is a function from the store to the
    new store and an outcome: the value it returns or the exception it
    raises.  The storage engine enforces the constraints the SQLModel
    classes declare (primary keys, NOT NULL, foreign keys, VARCHAR
    lengths), as [scripts/seed_data.py] relies on ("order matters because
    of FK constraints"). *)

From Stdlib Require Import ZArith Lia Sorted Ascii String.
From Stdlib Require Floats.SpecFloat.
From stdpp Require Import base option list strings gmap.

Open Scope Z_scope.
Open Scope string_scope.

(** ** Scalars *)

(** [datetime] is a naive UTC instant and [date] a calendar day; both are
    only stored, compared and ordered, so an integer count stands for
    them.  [float] is an IEEE 754 binary64 value. *)
Definition datetime := Z.
Definition date := Z.
Definition float := SpecFloat.spec_float.

#[global] Instance float_eq_dec : EqDecision float.
Proof. solve_decision. Defined.

(** ** Outcomes *)

Inductive Error :=
| HTTPException (status_code : Z) (detail : string)
| RequestValidationError
| IntegrityError
| DataError
| ValueError (value : string).

#[global] Instance Error_eq_dec : EqDecision Error.
Proof. solve_decision. Defined.

Inductive outcome (A : Type) :=
| Return (a : A)
| Raise (e : Error).
Arguments Return {A} a.
Arguments Raise {A} e.

Definition bind {A B} (m : outcome A) (k : A -> outcome B) : outcome B :=
  match m with
  | Return a => k a
  | Raise e => Raise e
  end.

Notation "'let*' x ':=' m 'in' k" := (bind m (fun x => k))
  (at level 10, x name, m at level 100, k at level 200).

(** ** Models ([backend/models]) *)

Module Constituency.
Record t := mk {
  code : string;
  name : string;
  county : string;
  mp_name : string;
  population : option Z;
  pas_score : option float }.
End Constituency.

Inductive ProjectCategory :=
| Education | Health | Water | Infrastructure | Security | Environment | Other.

Inductive ProjectStatus := Planned | Ongoing | Completed | Flagged.

#[global] Instance ProjectCategory_eq_dec : EqDecision ProjectCategory.
Proof. solve_decision. Defined.
#[global] Instance ProjectStatus_eq_dec : EqDecision ProjectStatus.
Proof. solve_decision. Defined.

Module Project.
Record t := mk {
  id : Z;
  title : string;
  description : option string;
  category : ProjectCategory;
  status : ProjectStatus;
  budget : float;
  spent : option float;
  progress : option float;
  constituency_code : string;
  start_date : option datetime;
  completion_date : option datetime;
  is_mock : bool;
  source_name : option string;
  source_url : option string;
  source_doc_ref : option string;
  last_updated : datetime }.
End Project.

Module Contractor.
Record t := mk {
  id : Z;
  name : string;
  phone : option string;
  email : option string;
  registration_no : option string;
  address : option string;
  created_at : datetime }.
End Contractor.

(** [project_id] is declared with [index=True] only: the class puts no
    uniqueness constraint on it.  [contractor_id] is declared [int], but
    [setattr] from an update payload can leave [None] in the object; the
    NOT NULL column rejects it when the session is flushed. *)
Module ProcurementAward.
Record t := mk {
  id : Z;
  project_id : Z;
  contractor_id : option Z;
  tender_id : option string;
  procurement_method : option string;
  contract_value : option float;
  award_date : option date;
  contractor_share_hint : option float;
  performance_flag : option bool;
  performance_flag_reason : option string;
  created_at : datetime }.
End ProcurementAward.

Inductive UserRole := admin | moderator | viewer.
Inductive UserStatus := active | disabled.

#[global] Instance UserRole_eq_dec : EqDecision UserRole.
Proof. solve_decision. Defined.
#[global] Instance UserStatus_eq_dec : EqDecision UserStatus.
Proof. solve_decision. Defined.

Module User.
Record t := mk {
  id : Z;
  username : string;
  password_hash : string;
  full_name : option string;
  email : option string;
  role : UserRole;
  status : UserStatus;
  created_at : datetime;
  last_login : option datetime }.
End User.

(** ** The store *)

Record Store := mkStore {
  constituency : list Constituency.t;
  project : list Project.t;
  contractor : list Contractor.t;
  procurementaward : list ProcurementAward.t;
  user : list User.t }.

Definition with_project (s : Store) (l : list Project.t) : Store :=
  mkStore (constituency s) l (contractor s) (procurementaward s) (user s).

Definition with_procurementaward (s : Store) (l : list ProcurementAward.t) : Store :=
  mkStore (constituency s) (project s) (contractor s) l (user s).

Definition with_user (s : Store) (l : list User.t) : Store :=
  mkStore (constituency s) (project s) (contractor s) (procurementaward s) l.

(** [session.get(Model, pk)]. *)
Definition session_get_constituency (s : Store) (code : string) : option Constituency.t :=
  List.find (fun c => bool_decide (Constituency.code c = code)) (constituency s).

Definition session_get_project (s : Store) (pk : Z) : option Project.t :=
  List.find (fun p => bool_decide (Project.id p = pk)) (project s).

Definition session_get_contractor (s : Store) (pk : Z) : option Contractor.t :=
  List.find (fun c => bool_decide (Contractor.id c = pk)) (contractor s).

Definition session_get_award (s : Store) (pk : Z) : option ProcurementAward.t :=
  List.find (fun a => bool_decide (ProcurementAward.id a = pk)) (procurementaward s).

(** The key an autoincrement primary key column hands to a new row: a
    value above every key of the table. *)
Definition next_id (ids : list Z) : Z := 1 + foldr Z.max 0 ids.

(** A [max_length=n] field is a VARCHAR(n) column. *)
Definition varchar (n : nat) (v : option string) : bool :=
  match v with
  | None => true
  | Some x => bool_decide (String.length x <= n)%nat
  end.

(** ** Award binder ([backend/api/procurement_award_router.py]) *)

Module ProcurementAwardCreate.
Record t := mk {
  project_id : Z;
  contractor_id : Z;
  tender_id : option string;
  procurement_method : option string;
  contract_value : option float;
  award_date : option date;
  contractor_share_hint : option float;
  performance_flag : bool;
  performance_flag_reason : option string }.
End ProcurementAwardCreate.

(** Every field of the update schema is optional; [model_dump
    (exclude_unset=True)] keeps the fields the request set, an explicit
    [null] included.  The outer [option] is "set in the request", the inner
    one the value.  The schema has no [project_id] field. *)
Module ProcurementAwardUpdate.
Record t := mk {
  contractor_id : option (option Z);
  tender_id : option (option string);
  procurement_method : option (option string);
  contract_value : option (option float);
  award_date : option (option date);
  contractor_share_hint : option (option float);
  performance_flag : option (option bool);
  performance_flag_reason : option (option string) }.
End ProcurementAwardUpdate.

(** Constraints of the [procurementaward] table checked when a row is
    written. *)
Definition award_lengths_ok (a : ProcurementAward.t) : bool :=
  varchar 120 (ProcurementAward.tender_id a)
  && varchar 80 (ProcurementAward.procurement_method a)
  && varchar 500 (ProcurementAward.performance_flag_reason a).

Definition award_project_fk_ok (s : Store) (a : ProcurementAward.t) : bool :=
  bool_decide (is_Some (session_get_project s (ProcurementAward.project_id a))).

Definition award_contractor_ok (s : Store) (a : ProcurementAward.t) : bool :=
  match ProcurementAward.contractor_id a with
  | None => false
  | Some c => bool_decide (is_Some (session_get_contractor s c))
  end.

(** INSERT of a new award row. *)
Definition insert_award_check (s : Store) (a : ProcurementAward.t) : option Error :=
  if negb (award_lengths_ok a) then Some DataError
  else if negb (award_project_fk_ok s a && award_contractor_ok s a) then Some IntegrityError
  else None.

Definition get_award (award_id : Z) (s : Store) : outcome ProcurementAward.t :=
  match session_get_award s award_id with
  | None => Raise (HTTPException 404 "Award not found")
  | Some award => Return award
  end.

(** Lines 57-61 of [create_award]: the application-level check. *)
Definition create_award_precheck (payload : ProcurementAwardCreate.t) (s : Store)
  : option Error :=
  match List.find (fun a => bool_decide (ProcurementAward.project_id a
                                          = ProcurementAwardCreate.project_id payload))
                  (procurementaward s) with
  | Some existing => Some (HTTPException 400 "This project already has an award")
  | None => None
  end.

(** Lines 63-67 of [create_award]: build the row, add, commit, refresh. *)
Definition create_award_insert (now : datetime) (payload : ProcurementAwardCreate.t)
    (s : Store) : Store * outcome ProcurementAward.t :=
  let award :=
    ProcurementAward.mk
      (next_id (map ProcurementAward.id (procurementaward s)))
      (ProcurementAwardCreate.project_id payload)
      (Some (ProcurementAwardCreate.contractor_id payload))
      (ProcurementAwardCreate.tender_id payload)
      (ProcurementAwardCreate.procurement_method payload)
      (ProcurementAwardCreate.contract_value payload)
      (ProcurementAwardCreate.award_date payload)
      (ProcurementAwardCreate.contractor_share_hint payload)
      (Some (ProcurementAwardCreate.performance_flag payload))
      (ProcurementAwardCreate.performance_flag_reason payload)
      now in
  match insert_award_check s award with
  | Some e => (s, Raise e)
  | None => (with_procurementaward s (procurementaward s ++ [award]), Return award)
  end.

Definition create_award (now : datetime) (payload : ProcurementAwardCreate.t)
    (s : Store) : Store * outcome ProcurementAward.t :=
  match create_award_precheck payload s with
  | Some e => (s, Raise e)
  | None => create_award_insert now payload s
  end.

(** [setattr(award, k, v)] for every item of the dumped payload. *)
Definition setattrs (award : ProcurementAward.t) (data : ProcurementAwardUpdate.t)
  : ProcurementAward.t :=
  ProcurementAward.mk
    (ProcurementAward.id award)
    (ProcurementAward.project_id award)
    (default (ProcurementAward.contractor_id award) (ProcurementAwardUpdate.contractor_id data))
    (default (ProcurementAward.tender_id award) (ProcurementAwardUpdate.tender_id data))
    (default (ProcurementAward.procurement_method award)
             (ProcurementAwardUpdate.procurement_method data))
    (default (ProcurementAward.contract_value award) (ProcurementAwardUpdate.contract_value data))
    (default (ProcurementAward.award_date award) (ProcurementAwardUpdate.award_date data))
    (default (ProcurementAward.contractor_share_hint award)
             (ProcurementAwardUpdate.contractor_share_hint data))
    (default (ProcurementAward.performance_flag award)
             (ProcurementAwardUpdate.performance_flag data))
    (default (ProcurementAward.performance_flag_reason award)
             (ProcurementAwardUpdate.performance_flag_reason data))
    (ProcurementAward.created_at award).

(** A constraint is checked on a column the statement writes: one whose
    value changed. *)
Definition unchanged_or {A} `{EqDecision A} (old new : A) (ok : bool) : bool :=
  bool_decide (old = new) || ok.

(** UPDATE of the award row, [WHERE id = award_id]. *)
Definition update_award_check (s : Store) (old new : ProcurementAward.t) : option Error :=
  if negb (unchanged_or (ProcurementAward.tender_id old) (ProcurementAward.tender_id new)
             (varchar 120 (ProcurementAward.tender_id new))
           && unchanged_or (ProcurementAward.procurement_method old)
                (ProcurementAward.procurement_method new)
                (varchar 80 (ProcurementAward.procurement_method new))
           && unchanged_or (ProcurementAward.performance_flag_reason old)
                (ProcurementAward.performance_flag_reason new)
                (varchar 500 (ProcurementAward.performance_flag_reason new)))
  then Some DataError
  else if negb (unchanged_or (ProcurementAward.contractor_id old)
                  (ProcurementAward.contractor_id new) (award_contractor_ok s new))
  then Some IntegrityError
  else None.

(** The rows of the table after the UPDATE statement. *)
Definition updated_rows (award_id : Z) (payload : ProcurementAwardUpdate.t)
    (rows : list ProcurementAward.t) : list ProcurementAward.t :=
  map (fun a => if bool_decide (ProcurementAward.id a = award_id)
                then setattrs a payload else a) rows.

Definition update_award (award_id : Z) (payload : ProcurementAwardUpdate.t) (s : Store)
  : Store * outcome ProcurementAward.t :=
  match session_get_award s award_id with
  | None => (s, Raise (HTTPException 404 "Award not found"))
  | Some award =>
      let award' := setattrs award payload in
      match update_award_check s award award' with
      | Some e => (s, Raise e)
      | None =>
          (with_procurementaward s (updated_rows award_id payload (procurementaward s)),
           Return award')
      end
  end.

Definition delete_award (award_id : Z) (s : Store) : Store * outcome string :=
  match session_get_award s award_id with
  | None => (s, Raise (HTTPException 404 "Award not found"))
  | Some award =>
      (with_procurementaward s
         (List.filter (fun a => negb (bool_decide (ProcurementAward.id a = award_id)))
                      (procurementaward s)),
       Return "Award deleted")
  end.

(** Two [create_award] requests served at the same time: each runs the
    check of lines 57-61 on the store it finds, and only then do the two
    commits of line 65 reach the storage engine, one after the other. *)
Definition create_award_concurrently (now : datetime)
    (p1 p2 : ProcurementAwardCreate.t) (s : Store)
  : Store * (outcome ProcurementAward.t * outcome ProcurementAward.t) :=
  let c1 := create_award_precheck p1 s in
  let c2 := create_award_precheck p2 s in
  let '(s1, r1) := match c1 with
                   | Some e => (s, Raise e)
                   | None => create_award_insert now p1 s
                   end in
  let '(s2, r2) := match c2 with
                   | Some e => (s1, Raise e)
                   | None => create_award_insert now p2 s1
                   end in
  (s2, (r1, r2)).


(** ** Project view assembler ([backend/api/project_router.py]) *)

(** [backend/schemas/project.py].  The enum columns are read into [str]
    fields: the view carries the value of the member. *)
Module ProjectReadWithConstituency.
Record t := mk {
  id : Z;
  title : string;
  description : option string;
  category : string;
  status : string;
  budget : float;
  spent : option float;
  progress : option float;
  constituency_code : string;
  constituency_name : string;
  mp_name : string;
  county : string;
  contractor_name : option string;
  tender_id : option string;
  procurement_method : option string;
  contract_value : option float;
  award_date : option date;
  start_date : option datetime;
  completion_date : option datetime;
  last_updated : option datetime;
  is_mock : bool;
  source_name : option string;
  source_url : option string;
  source_doc_ref : option string }.
End ProjectReadWithConstituency.

Definition ProjectCategory_value (c : ProjectCategory) : string :=
  match c with
  | Education => "Education"
  | Health => "Health"
  | Water => "Water"
  | Infrastructure => "Infrastructure"
  | Security => "Security"
  | Environment => "Environment"
  | Other => "Other"
  end.

Definition ProjectStatus_value (st : ProjectStatus) : string :=
  match st with
  | Planned => "Planned"
  | Ongoing => "Ongoing"
  | Completed => "Completed"
  | Flagged => "Flagged"
  end.

(** A row of [select(Project, Constituency, ProcurementAward, Contractor)]. *)
Definition JoinRow : Type :=
  Project.t * Constituency.t * option ProcurementAward.t * option Contractor.t.

Definition row_project (r : JoinRow) : Project.t := r.1.1.1.

(** [.outerjoin(Contractor, Contractor.id == ProcurementAward.contractor_id)]:
    the contractors matching an award, or one NULL when there is none. *)
Definition join_contractor (s : Store) (a : ProcurementAward.t)
  : list (option Contractor.t) :=
  match List.filter (fun c => bool_decide (Some (Contractor.id c)
                                           = ProcurementAward.contractor_id a))
                    (contractor s) with
  | [] => [None]
  | cs => map Some cs
  end.

(** [.outerjoin(ProcurementAward, ProcurementAward.project_id == Project.id)]
    followed by the contractor join: a project without award gets one row
    with both sides NULL. *)
Definition join_award (s : Store) (p : Project.t)
  : list (option ProcurementAward.t * option Contractor.t) :=
  match List.filter (fun a => bool_decide (ProcurementAward.project_id a = Project.id p))
                    (procurementaward s) with
  | [] => [(None, None)]
  | aws => flat_map (fun a => map (fun c => (Some a, c)) (join_contractor s a)) aws
  end.

(** [.join(Constituency, Project.constituency_code == Constituency.code)]:
    an inner join, a project without constituency row gives no row. *)
Definition project_rows (s : Store) (p : Project.t) : list JoinRow :=
  flat_map (fun c => map (fun ac => (p, c, ac.1, ac.2)) (join_award s p))
           (List.filter (fun c => bool_decide (Project.constituency_code p
                                               = Constituency.code c))
                        (constituency s)).

Definition joined_rows (s : Store) : list JoinRow :=
  flat_map (project_rows s) (project s).

(** The dictionary built from a row and validated into the read model
    (lines 84-95 and 115-126). *)
Definition project_view (r : JoinRow) : ProjectReadWithConstituency.t :=
  let '(project, constituency, award, contractor) := r in
  ProjectReadWithConstituency.mk
    (Project.id project)
    (Project.title project)
    (Project.description project)
    (ProjectCategory_value (Project.category project))
    (ProjectStatus_value (Project.status project))
    (Project.budget project)
    (Project.spent project)
    (Project.progress project)
    (Project.constituency_code project)
    (Constituency.name constituency)
    (Constituency.mp_name constituency)
    (Constituency.county constituency)
    (Contractor.name <$> contractor)
    (award ≫= ProcurementAward.tender_id)
    (award ≫= ProcurementAward.procurement_method)
    (award ≫= ProcurementAward.contract_value)
    (award ≫= ProcurementAward.award_date)
    (Project.start_date project)
    (Project.completion_date project)
    (Some (Project.last_updated project))
    (Project.is_mock project)
    (Project.source_name project)
    (Project.source_url project)
    (Project.source_doc_ref project).

Definition read_project (project_id : Z) (s : Store)
  : outcome ProjectReadWithConstituency.t :=
  match head (List.filter (fun r => bool_decide (Project.id (row_project r) = project_id))
                          (joined_rows s)) with
  | None => Raise (HTTPException 404 "Project not found")
  | Some result => Return (project_view result)
  end.

(** *** Sorting *)

Inductive SortField := by_id | by_title | by_last_updated.
Inductive SortDirection := asc | desc.

(** Lines 58-75: the default, then the chain of comparisons. *)
Definition sort_order (sort : string) : SortField * SortDirection :=
  if bool_decide (sort = "id_asc") then (by_id, asc)
  else if bool_decide (sort = "id_desc") then (by_id, desc)
  else if bool_decide (sort = "title_asc") then (by_title, asc)
  else if bool_decide (sort = "title_desc") then (by_title, desc)
  else if bool_decide (sort = "last_updated_asc") then (by_last_updated, asc)
  else (by_last_updated, desc).

(** The order of a column: integers and instants by value, text by
    code unit, lexicographically. *)
Definition field_le (f : SortField) (p q : Project.t) : bool :=
  match f with
  | by_id => (Project.id p <=? Project.id q)%Z
  | by_title => String.leb (Project.title p) (Project.title q)
  | by_last_updated => (Project.last_updated p <=? Project.last_updated q)%Z
  end.

Definition row_le (o : SortField * SortDirection) (r r' : JoinRow) : bool :=
  match o.2 with
  | asc => field_le o.1 (row_project r) (row_project r')
  | desc => field_le o.1 (row_project r') (row_project r)
  end.

(** [ORDER BY]: a stable sort, rows with equal keys stay in the order of
    the join. *)
Fixpoint insert_row (le : JoinRow -> JoinRow -> bool) (r : JoinRow) (l : list JoinRow)
  : list JoinRow :=
  match l with
  | [] => [r]
  | r' :: l' => if le r r' then r :: l else r' :: insert_row le r l'
  end.

Definition order_by (o : SortField * SortDirection) (rows : list JoinRow) : list JoinRow :=
  foldr (insert_row (row_le o)) [] rows.

(** Lines 51-56: a filter is applied when its parameter is truthy; the
    empty string is not. *)
Definition where_ (constituency_code : option string) (category : option ProjectCategory)
    (status : option ProjectStatus) (r : JoinRow) : bool :=
  match constituency_code with
  | Some cc => bool_decide (cc = "")
               || bool_decide (Project.constituency_code (row_project r) = cc)
  | None => true
  end
  && match category with
     | Some c => bool_decide (Project.category (row_project r) = c)
     | None => true
     end
  && match status with
     | Some st => bool_decide (Project.status (row_project r) = st)
     | None => true
     end.

(** [read_projects]; [Query(0, ge=0)] and [Query(20, ge=1, le=100)] reject
    a request out of bounds before the body runs.  The count of line 79 is
    computed and dropped. *)
Definition read_projects (constituency_code : option string)
    (category : option ProjectCategory) (status : option ProjectStatus)
    (sort : string) (offset limit : Z) (s : Store)
  : outcome (list ProjectReadWithConstituency.t) :=
  if negb ((0 <=? offset)%Z && (1 <=? limit)%Z && (limit <=? 100)%Z)
  then Raise RequestValidationError
  else
    let query := List.filter (where_ constituency_code category status) (joined_rows s) in
    let query := order_by (sort_order sort) query in
    let results := take (Z.to_nat limit) (drop (Z.to_nat offset) query) in
    Return (map project_view results).

(** The request as the framework hands it over: a parameter left out
    takes its declared default. *)
Definition read_projects_request (constituency_code : option string)
    (category : option ProjectCategory) (status : option ProjectStatus)
    (sort : option string) (offset limit : option Z) (s : Store)
  : outcome (list ProjectReadWithConstituency.t) :=
  read_projects constituency_code category status
    (default "last_updated_desc" sort) (default 0 offset) (default 20 limit) s.

(** The six documented sort keys. *)
Definition sort_keys : list string :=
  ["id_asc"; "id_desc"; "last_updated_asc"; "last_updated_desc"; "title_asc"; "title_desc"].

(** ** Natural-key upsert ([data_pipeline/import_projects.py]) *)

(** *** Strings

    Text is a sequence of ASCII characters.  [str.strip()] removes the
    characters for which [str.isspace()] holds from both ends. *)
Definition isspace (c : ascii) : bool :=
  let n := nat_of_ascii c in
  ((9 <=? n) && (n <=? 13) || (28 <=? n) && (n <=? 32))%nat.

Fixpoint lstrip (v : string) : string :=
  match v with
  | EmptyString => EmptyString
  | String c v' => if isspace c then lstrip v' else v
  end.

Fixpoint rstrip (v : string) : string :=
  match v with
  | EmptyString => EmptyString
  | String c v' =>
      match rstrip v' with
      | EmptyString => if isspace c then EmptyString else String c EmptyString
      | t => String c t
      end
  end.

Definition strip (v : string) : string := rstrip (lstrip v).

Definition lower_ascii (c : ascii) : ascii :=
  let n := nat_of_ascii c in
  if ((65 <=? n) && (n <=? 90))%nat then ascii_of_nat (n + 32) else c.

Fixpoint lower (v : string) : string :=
  match v with
  | EmptyString => EmptyString
  | String c v' => String (lower_ascii c) (lower v')
  end.

(** [row.get(key) or default]: a missing key, [None] and the empty string
    all give the default. *)
Definition get_or (row : gmap string string) (key default : string) : string :=
  match row !! key with
  | Some v => if bool_decide (v = "") then default else v
  | None => default
  end.

(** [text or None]. *)
Definition or_None (v : string) : option string :=
  if bool_decide (v = "") then None else Some v.

Definition normalize_category (value : string) : outcome ProjectCategory :=
  let value := strip value in
  if bool_decide (value = "Education") then Return Education
  else if bool_decide (value = "Health") then Return Health
  else if bool_decide (value = "Water") then Return Water
  else if bool_decide (value = "Infrastructure") then Return Infrastructure
  else if bool_decide (value = "Security") then Return Security
  else if bool_decide (value = "Environment") then Return Environment
  else if bool_decide (value = "Other") then Return Other
  else Raise (ValueError value).

Definition normalize_status (value : string) : outcome ProjectStatus :=
  let value := strip value in
  if bool_decide (value = "Planned") then Return Planned
  else if bool_decide (value = "Ongoing") then Return Ongoing
  else if bool_decide (value = "Completed") then Return Completed
  else if bool_decide (value = "Flagged") then Return Flagged
  else Raise (ValueError value).

Definition as_bool (value : string) : bool :=
  let value := lower (strip value) in
  bool_decide (value = "1") || bool_decide (value = "true")
  || bool_decide (value = "yes") || bool_decide (value = "y").

(** The dictionary of lines 84-100. *)
Module Payload.
Record t := mk {
  title : string;
  description : option string;
  category : ProjectCategory;
  status : ProjectStatus;
  budget : float;
  spent : option float;
  progress : option float;
  constituency_code : string;
  start_date : option datetime;
  completion_date : option datetime;
  is_mock : bool;
  source_name : option string;
  source_url : option string;
  source_doc_ref : option string }.
End Payload.

Inductive Upserted := Created | Updated.

(** [find_existing]: a falsy [source_doc_ref] ([None] or the empty string)
    selects the rows whose column is NULL. *)
Definition find_existing (s : Store) (title constituency_code : string)
    (source_doc_ref : option string) : option Project.t :=
  List.find
    (fun p =>
       bool_decide (Project.title p = title)
       && bool_decide (Project.constituency_code p = constituency_code)
       && match or_None (default "" source_doc_ref) with
          | Some ref => bool_decide (Project.source_doc_ref p = Some ref)
          | None => bool_decide (Project.source_doc_ref p = None)
          end)
    (project s).

(** [setattr(existing, k, v)] for every item of the payload. *)
Definition set_payload (existing : Project.t) (payload : Payload.t) : Project.t :=
  Project.mk (Project.id existing)
    (Payload.title payload) (Payload.description payload) (Payload.category payload)
    (Payload.status payload) (Payload.budget payload) (Payload.spent payload)
    (Payload.progress payload) (Payload.constituency_code payload)
    (Payload.start_date payload) (Payload.completion_date payload)
    (Payload.is_mock payload) (Payload.source_name payload) (Payload.source_url payload)
    (Payload.source_doc_ref payload)
    (Project.last_updated existing).

(** The row built from the payload: the key comes from the table, [last_updated]
    from the clock. *)
Definition new_project (id : Z) (payload : Payload.t) (now : datetime) : Project.t :=
  Project.mk id
    (Payload.title payload) (Payload.description payload) (Payload.category payload)
    (Payload.status payload) (Payload.budget payload) (Payload.spent payload)
    (Payload.progress payload) (Payload.constituency_code payload)
    (Payload.start_date payload) (Payload.completion_date payload)
    (Payload.is_mock payload) (Payload.source_name payload) (Payload.source_url payload)
    (Payload.source_doc_ref payload)
    now.

(** Constraints of the [project] table. *)
Definition project_lengths_ok (old : option Project.t) (new : Project.t) : bool :=
  unchanged_or (Project.title <$> old) (Some (Project.title new))
    (varchar 255 (Some (Project.title new)))
  && unchanged_or (Project.source_name <$> old) (Some (Project.source_name new))
       (varchar 120 (Project.source_name new))
  && unchanged_or (Project.source_url <$> old) (Some (Project.source_url new))
       (varchar 500 (Project.source_url new))
  && unchanged_or (Project.source_doc_ref <$> old) (Some (Project.source_doc_ref new))
       (varchar 120 (Project.source_doc_ref new)).

Definition project_fk_ok (s : Store) (old : option Project.t) (new : Project.t) : bool :=
  unchanged_or (Project.constituency_code <$> old) (Some (Project.constituency_code new))
    (bool_decide (is_Some (session_get_constituency s (Project.constituency_code new)))).

(** The check of an INSERT ([old = None]) or of an UPDATE of the changed
    columns of [old]. *)
Definition write_project_check (s : Store) (old : option Project.t) (new : Project.t)
  : option Error :=
  if negb (project_lengths_ok old new) then Some DataError
  else if negb (project_fk_ok s old new) then Some IntegrityError
  else None.

(** Lines 102-111: update the row found, or add a new one.  The session
    sends the statement to the engine at its next flush, which is the next
    query or the commit; nothing reads the store in between, so the
    statement is applied here. *)
Definition apply_payload (now : datetime) (existing : option Project.t)
    (payload : Payload.t) (s : Store) : outcome (Store * Upserted) :=
  match existing with
  | Some existing =>
      match write_project_check s (Some existing) (set_payload existing payload) with
      | Some e => Raise e
      | None =>
          Return (with_project s
                    (map (fun p => if bool_decide (Project.id p = Project.id existing)
                                   then set_payload p payload else p)
                         (project s)),
                  Updated)
      end
  | None =>
      let row := new_project (next_id (map Project.id (project s))) payload now in
      match write_project_check s None row with
      | Some e => Raise e
      | None => Return (with_project s (project s ++ [row]), Created)
      end
  end.

(** The upsert of one record: lines 82 and 102-111. *)
Definition upsert_project (now : datetime) (payload : Payload.t) (s : Store)
  : outcome (Store * Upserted) :=
  let existing := find_existing s (Payload.title payload)
                    (Payload.constituency_code payload) (Payload.source_doc_ref payload) in
  apply_payload now existing payload s.

Section ImportCsv.

(** [float(text)] and [datetime.strptime(text, format)] of the Python
    library; [None] stands for the [ValueError] they raise. *)
Variable py_float : string -> option float.
Variable strptime : string -> string -> option datetime.

Definition parse_date (value : string) : outcome (option datetime) :=
  let value := strip value in
  if bool_decide (value = "") then Return None
  else match strptime value "%Y-%m-%d" with
       | Some d => Return (Some d)
       | None => Raise (ValueError value)
       end.

Definition as_float (value : string) : outcome (option float) :=
  let value := strip value in
  if bool_decide (value = "") then Return None
  else match py_float value with
       | Some x => Return (Some x)
       | None => Raise (ValueError value)
       end.

(** [float(row.get("budget") or 0)]. *)
Definition budget_of (row : gmap string string) : outcome float :=
  match or_None (get_or row "budget" "") with
  | None => Return (SpecFloat.S754_zero false)
  | Some v => match py_float v with
              | Some x => Return x
              | None => Raise (ValueError v)
              end
  end.

(** Lines 84-100; the values are computed in the order of the keywords. *)
Definition build_payload (row : gmap string string) (title constituency_code : string)
    (source_doc_ref : option string) : outcome Payload.t :=
  let description := or_None (strip (get_or row "description" "")) in
  let* category := normalize_category (get_or row "category" "Other") in
  let* status := normalize_status (get_or row "status" "Planned") in
  let* budget := budget_of row in
  let* spent := as_float (get_or row "spent" "") in
  let* progress := as_float (get_or row "progress" "") in
  let* start_date := parse_date (get_or row "start_date" "") in
  let* completion_date := parse_date (get_or row "completion_date" "") in
  Return (Payload.mk title description category status budget spent progress
            constituency_code start_date completion_date
            (as_bool (get_or row "is_mock" "false"))
            (or_None (strip (get_or row "source_name" "")))
            (or_None (strip (get_or row "source_url" "")))
            source_doc_ref).

Definition row_title (row : gmap string string) : string := strip (get_or row "title" "").
Definition row_constituency_code (row : gmap string string) : string :=
  strip (get_or row "constituency_code" "").
Definition row_source_doc_ref (row : gmap string string) : option string :=
  or_None (strip (get_or row "source_doc_ref" "")).

(** The state of the loop: the session and the two counters. *)
Definition ImportState : Type := Store * (Z * Z).

(** The body of the loop, lines 74-111. *)
Definition import_row (now : datetime) (row : gmap string string) (st : ImportState)
  : outcome ImportState :=
  let '(s, (created, updated)) := st in
  let title := row_title row in
  let constituency_code := row_constituency_code row in
  if bool_decide (title = "") || bool_decide (constituency_code = "")
  then Return st
  else
    let source_doc_ref := row_source_doc_ref row in
    let existing := find_existing s title constituency_code source_doc_ref in
    let* payload := build_payload row title constituency_code source_doc_ref in
    let* res := apply_payload now existing payload s in
    match res.2 with
    | Updated => Return (res.1, (created, updated + 1))
    | Created => Return (res.1, (created + 1, updated))
    end.

Fixpoint import_rows (now : datetime) (rows : list (gmap string string))
    (st : ImportState) : outcome ImportState :=
  match rows with
  | [] => Return st
  | row :: rows' =>
      let* st' := import_row now row st in
      import_rows now rows' st'
  end.

(** [import_csv] on the rows the reader yields: one session for the file,
    committed after the last row; an exception leaves the [with] block
    before the commit and the session is discarded. *)
Definition import_csv (now : datetime) (rows : list (gmap string string)) (s : Store)
  : Store * outcome (Z * Z) :=
  match import_rows now rows (s, (0, 0)) with
  | Return (s', counts) => (s', Return counts)
  | Raise e => (s, Raise e)
  end.

End ImportCsv.

(** ** Access guard ([backend/core/auth.py], [backend/api/auth_router.py]) *)

(** The dictionary [me] returns. *)
Module Me.
Record t := mk {
  id : Z;
  username : string;
  full_name : option string;
  email : option string;
  role : UserRole;
  status : UserStatus;
  created_at : datetime;
  last_login : option datetime }.
End Me.

Section AccessGuard.

(** The collaborators: [jwt.encode] and [jwt.decode] under SECRET_KEY and
    HS256, and the argon2 verification of [User.verify_password] (which
    turns every exception of the hasher into [False]).
    [jwt_decode now token] is [None] when the library raises JWTError (bad
    signature, expired at [now], malformed), else the "sub" entry of the
    claims, if any.  An instant counts microseconds. *)
Variable jwt_encode : string -> datetime -> string.
Variable jwt_decode : datetime -> string -> option (option string).
Variable argon2_verify : string -> string -> bool.
Variable ACCESS_TOKEN_EXPIRE_MINUTES : Z.

Definition select_user (s : Store) (username : string) : option User.t :=
  List.find (fun u => bool_decide (User.username u = username)) (user s).

Definition create_access_token (sub : string) (now : datetime) : string :=
  jwt_encode sub (now + ACCESS_TOKEN_EXPIRE_MINUTES * 60000000).

Definition set_last_login (u : User.t) (now : datetime) : User.t :=
  User.mk (User.id u) (User.username u) (User.password_hash u) (User.full_name u)
          (User.email u) (User.role u) (User.status u) (User.created_at u) (Some now).

(** [login] returns the token and its type. *)
Definition login (now : datetime) (username password : string) (s : Store)
  : Store * outcome (string * string) :=
  match select_user s username with
  | Some usr =>
      if argon2_verify (User.password_hash usr) password
      then (with_user s
              (map (fun u => if bool_decide (User.id u = User.id usr)
                             then set_last_login u now else u)
                   (user s)),
            Return (create_access_token (User.username usr) now, "bearer"))
      else (s, Raise (HTTPException 401 "Incorrect username or password"))
  | None => (s, Raise (HTTPException 401 "Incorrect username or password"))
  end.

Definition credentials_exception : Error :=
  HTTPException 401 "Could not validate credentials".

Definition get_current_user (now : datetime) (token : string) (s : Store)
  : outcome User.t :=
  match jwt_decode now token with
  | None => Raise credentials_exception
  | Some sub =>
      match or_None (default "" sub) with
      | None => Raise credentials_exception
      | Some username =>
          match select_user s username with
          | None => Raise credentials_exception
          | Some usr =>
              if bool_decide (User.status usr = disabled)
              then Raise (HTTPException 403 "Account disabled")
              else Return usr
          end
      end
  end.

Definition require_admin (now : datetime) (token : string) (s : Store) : outcome User.t :=
  let* usr := get_current_user now token s in
  if bool_decide (User.role usr <> admin)
  then Raise (HTTPException 403 "Admin access required")
  else Return usr.

Definition me (now : datetime) (token : string) (s : Store) : outcome Me.t :=
  let* current_user := get_current_user now token s in
  Return (Me.mk (User.id current_user) (User.username current_user)
                (User.full_name current_user) (User.email current_user)
                (User.role current_user) (User.status current_user)
                (User.created_at current_user) (User.last_login current_user)).

End AccessGuard.

(** ** User management ([backend/api/users_router.py]) *)

(** A value of a JSON request body, as the framework hands it to a
    handler that declares its payload a [dict]. *)
#[local] Unset Elimination Schemes.
Inductive JSON :=
| JNull
| JBool (b : bool)
| JInt (n : Z)
| JFloat (x : float)
| JString (v : string)
| JArray (items : list JSON)
| JObject (members : list (string * JSON)).
#[local] Set Elimination Schemes.

Definition session_get_user (s : Store) (pk : Z) : option User.t :=
  List.find (fun u => bool_decide (User.id u = pk)) (user s).

(** The dictionary the handlers return for a user: the keys of [me]. *)
Definition user_dict (u : User.t) : Me.t :=
  Me.mk (User.id u) (User.username u) (User.full_name u) (User.email u)
        (User.role u) (User.status u) (User.created_at u) (User.last_login u).

(** [UserRole(text)] and [UserStatus(text)] on a text that is a value of
    the enumeration. *)
Definition UserRole_of_value (v : string) : option UserRole :=
  if bool_decide (v = "admin") then Some admin
  else if bool_decide (v = "moderator") then Some moderator
  else if bool_decide (v = "viewer") then Some viewer
  else None.

Definition UserStatus_of_value (v : string) : option UserStatus :=
  if bool_decide (v = "active") then Some active
  else if bool_decide (v = "disabled") then Some disabled
  else None.

(** [payload.get(key)] when it is one of the texts the handler lists: a
    missing key, [null] and every value that is not a text compare unequal
    to each of them. *)
Definition get_text (payload : gmap string JSON) (key : string) : option string :=
  match payload !! key with
  | Some (JString v) => Some v
  | _ => None
  end.

Definition set_role (u : User.t) (role : UserRole) : User.t :=
  User.mk (User.id u) (User.username u) (User.password_hash u) (User.full_name u)
          (User.email u) role (User.status u) (User.created_at u) (User.last_login u).

Definition set_status (u : User.t) (status : UserStatus) : User.t :=
  User.mk (User.id u) (User.username u) (User.password_hash u) (User.full_name u)
          (User.email u) (User.role u) status (User.created_at u) (User.last_login u).

(** The rows of the [user] table after [UPDATE ... WHERE id = user_id]. *)
Definition update_user_rows (user_id : Z) (f : User.t -> User.t) (rows : list User.t)
  : list User.t :=
  map (fun u => if bool_decide (User.id u = user_id) then f u else u) rows.

Section UserManagement.

Variable jwt_decode : datetime -> string -> option (option string).

(** Every handler of the router depends on [require_admin]: the guard
    runs first, and its exception is the answer. *)
Definition update_role (now : datetime) (token : string) (user_id : Z)
    (payload : gmap string JSON) (s : Store) : Store * outcome Me.t :=
  match require_admin jwt_decode now token s with
  | Raise e => (s, Raise e)
  | Return _admin =>
      match session_get_user s user_id with
      | None => (s, Raise (HTTPException 404 "User not found"))
      | Some usr =>
          match get_text payload "role" ≫= UserRole_of_value with
          | None => (s, Raise (HTTPException 400 "Invalid role"))
          | Some new_role =>
              (with_user s (update_user_rows user_id (fun u => set_role u new_role) (user s)),
               Return (user_dict (set_role usr new_role)))
          end
      end
  end.

Definition update_status (now : datetime) (token : string) (user_id : Z)
    (payload : gmap string JSON) (s : Store) : Store * outcome Me.t :=
  match require_admin jwt_decode now token s with
  | Raise e => (s, Raise e)
  | Return _admin =>
      match session_get_user s user_id with
      | None => (s, Raise (HTTPException 404 "User not found"))
      | Some usr =>
          match get_text payload "status" ≫= UserStatus_of_value with
          | None => (s, Raise (HTTPException 400 "Invalid status"))
          | Some new_status =>
              (with_user s
                 (update_user_rows user_id (fun u => set_status u new_status) (user s)),
               Return (user_dict (set_status usr new_status)))
          end
      end
  end.

(** [delete_user] returns the dictionary with the one entry "ok". *)
Definition delete_user (now : datetime) (token : string) (user_id : Z) (s : Store)
  : Store * outcome bool :=
  match require_admin jwt_decode now token s with
  | Raise e => (s, Raise e)
  | Return admin_user =>
      match session_get_user s user_id with
      | None => (s, Raise (HTTPException 404 "User not found"))
      | Some usr =>
          if bool_decide (User.id usr = User.id admin_user)
          then (s, Raise (HTTPException 400 "Cannot delete your own account"))
          else (with_user s
                  (List.filter (fun u => negb (bool_decide (User.id u = user_id))) (user s)),
                Return true)
      end
  end.

End UserManagement.

(** ** Sample data

    The scenario of the specification: constituency "001" (Kajiado North),
    project 42 "Borehole A", contractors 7 and 9. *)

Definition kajiado_north : Constituency.t :=
  Constituency.mk "001" "Kajiado North" "Kajiado" "Onesmus Ngogoyo Nguro" None None.

Definition borehole_a : Project.t :=
  Project.mk 42 "Borehole A" None Water Planned (SpecFloat.S754_zero false) None None
             "001" None None true None None None 1000.

Definition aquadrill : Contractor.t :=
  Contractor.mk 7 "AquaDrill Services Ltd" None None (Some "C-10291") None 900.

Definition mavuno : Contractor.t :=
  Contractor.mk 9 "Mavuno Builders Ltd" None None (Some "C-20911") None 901.

Definition sample_store : Store :=
  mkStore [kajiado_north] [borehole_a] [aquadrill; mavuno] [] [].

Definition award_payload (project_id contractor_id : Z) : ProcurementAwardCreate.t :=
  ProcurementAwardCreate.mk project_id contractor_id (Some "NG-CDF/KAJIADO/2025/008")
    (Some "Open Tender") None None None false None.

Definition sample_award (id project_id contractor_id : Z) : ProcurementAward.t :=
  ProcurementAward.mk id project_id (Some contractor_id) (Some "NG-CDF/KAJIADO/2025/008")
    (Some "Open Tender") None None None (Some false) None 2000.

Definition awarded_store : Store :=
  with_procurementaward sample_store [sample_award 1 42 7].

Definition empty_update : ProcurementAwardUpdate.t :=
  ProcurementAwardUpdate.mk None None None None None None None None.

Definition tender_update : ProcurementAwardUpdate.t :=
  ProcurementAwardUpdate.mk None (Some (Some "NG-CDF/KAJIADO/2025/099"))
    None None None None None None.

(** An award whose contractor row is gone. *)
Definition dangling_store : Store :=
  with_procurementaward sample_store [sample_award 1 42 8].

Definition classroom_block : Project.t :=
  Project.mk 43 "Classroom Block" None Education Completed (SpecFloat.S754_zero false)
             None None "001" None None true None None None 1001.

Definition two_project_store : Store :=
  with_project awarded_store [borehole_a; classroom_block].

(** Rows of a CSV file.  They leave budget, spent, progress and the dates
    empty, so the two library parsers are not called on them;
    [unused_float] and [unused_strptime] fill their place. *)
Definition unused_float : string -> option float := fun _ => None.
Definition unused_strptime : string -> string -> option datetime := fun _ _ => None.

Definition borehole_b_row : gmap string string :=
  list_to_map [("title", "Borehole B"); ("constituency_code", "001");
               ("category", "Water"); ("status", "Planned")].

Definition borehole_b_row_v2 : gmap string string :=
  list_to_map [("title", " Borehole B "); ("constituency_code", "001");
               ("category", "Water"); ("status", "Ongoing");
               ("description", "Drilling started")].

Definition feeder_road_row : gmap string string :=
  list_to_map [("title", "Feeder Road"); ("constituency_code", "001");
               ("category", "Roads"); ("status", "Planned")].

Definition borehole_b_payload : Payload.t :=
  Payload.mk "Borehole B" None Water Planned (SpecFloat.S754_zero false) None None "001"
             None None false None None None.

Definition borehole_b_payload_v2 : Payload.t :=
  Payload.mk "Borehole B" (Some "Drilling started") Water Ongoing
             (SpecFloat.S754_zero false) None None "001" None None false None None None.

(** A disabled moderator and an active administrator.  In the examples a
    token is its subject in clear, and a password verifies against a hash
    that spells it. *)
Definition wanjiru : User.t :=
  User.mk 1 "wanjiru" "s3cret" None None moderator disabled 100 None.

Definition otieno : User.t :=
  User.mk 2 "otieno" "pa55word" None None admin active 101 None.

Definition user_store : Store := with_user sample_store [wanjiru; otieno].

Definition clear_encode : string -> datetime -> string := fun sub _ => sub.
Definition clear_decode : datetime -> string -> option (option string) :=
  fun _ token => Some (Some token).
Definition clear_verify : string -> string -> bool := String.eqb.

Definition feeder_road_row_fixed : gmap string string :=
  list_to_map [("title", "Feeder Road"); ("constituency_code", "001");
               ("category", "Infrastructure"); ("status", "Ongoing");
               ("source_doc_ref", "NG-CDF/2025/17")].

(** A third user, an active moderator, and two request bodies. *)
Definition achieng : User.t :=
  User.mk 3 "achieng" "t0psecret" None None moderator active 102 None.

Definition staff_store : Store := with_user sample_store [wanjiru; otieno; achieng].

Definition disable_payload : gmap string JSON := {[ "status" := JString "disabled" ]}.
Definition viewer_payload : gmap string JSON := {[ "role" := JString "viewer" ]}.

(** ** Predicates used in the statements *)

(** The one-award-per-project rule, as a property of a store. *)
Definition one_award_per_project (s : Store) : Prop :=
  NoDup (map ProcurementAward.project_id (procurementaward s)).

(** What a partial update may not touch: a field the request did not set,
    and the three columns the update schema does not have. *)
Definition absent_fields_retained (payload : ProcurementAwardUpdate.t)
    (old new : ProcurementAward.t) : Prop :=
  (ProcurementAwardUpdate.contractor_id payload = None ->
     ProcurementAward.contractor_id new = ProcurementAward.contractor_id old)
  /\ (ProcurementAwardUpdate.tender_id payload = None ->
     ProcurementAward.tender_id new = ProcurementAward.tender_id old)
  /\ (ProcurementAwardUpdate.procurement_method payload = None ->
     ProcurementAward.procurement_method new = ProcurementAward.procurement_method old)
  /\ (ProcurementAwardUpdate.contract_value payload = None ->
     ProcurementAward.contract_value new = ProcurementAward.contract_value old)
  /\ (ProcurementAwardUpdate.award_date payload = None ->
     ProcurementAward.award_date new = ProcurementAward.award_date old)
  /\ (ProcurementAwardUpdate.contractor_share_hint payload = None ->
     ProcurementAward.contractor_share_hint new = ProcurementAward.contractor_share_hint old)
  /\ (ProcurementAwardUpdate.performance_flag payload = None ->
     ProcurementAward.performance_flag new = ProcurementAward.performance_flag old)
  /\ (ProcurementAwardUpdate.performance_flag_reason payload = None ->
     ProcurementAward.performance_flag_reason new
     = ProcurementAward.performance_flag_reason old)
  /\ ProcurementAward.id new = ProcurementAward.id old
  /\ ProcurementAward.project_id new = ProcurementAward.project_id old
  /\ ProcurementAward.created_at new = ProcurementAward.created_at old.


(** The award the queries find first for a project, and the contractor row
    an award points at. *)
Definition award_of_project (s : Store) (project_id : Z) : option ProcurementAward.t :=
  List.find (fun a => bool_decide (ProcurementAward.project_id a = project_id))
            (procurementaward s).

Definition contractor_of_award (s : Store) (a : ProcurementAward.t) : option Contractor.t :=
  List.find (fun c => bool_decide (Some (Contractor.id c) = ProcurementAward.contractor_id a))
            (contractor s).

(** The first award row and contractor row the outer joins attach. *)
Definition first_join_award (s : Store) (p : Project.t)
  : option ProcurementAward.t * option Contractor.t :=
  match award_of_project s (Project.id p) with
  | None => (None, None)
  | Some a => (Some a, contractor_of_award s a)
  end.

(** The award fields of a view are all null. *)
Definition no_award_fields (v : ProjectReadWithConstituency.t) : Prop :=
  ProjectReadWithConstituency.contractor_name v = None
  /\ ProjectReadWithConstituency.tender_id v = None
  /\ ProjectReadWithConstituency.procurement_method v = None
  /\ ProjectReadWithConstituency.contract_value v = None
  /\ ProjectReadWithConstituency.award_date v = None.

(** The award fields of a view are those of the award. *)
Definition award_fields_of (a : ProcurementAward.t) (v : ProjectReadWithConstituency.t)
  : Prop :=
  ProjectReadWithConstituency.tender_id v = ProcurementAward.tender_id a
  /\ ProjectReadWithConstituency.procurement_method v = ProcurementAward.procurement_method a
  /\ ProjectReadWithConstituency.contract_value v = ProcurementAward.contract_value a
  /\ ProjectReadWithConstituency.award_date v = ProcurementAward.award_date a.

(** Titles in non-decreasing lexicographic order. *)
Definition title_le (v w : ProjectReadWithConstituency.t) : Prop :=
  String.leb (ProjectReadWithConstituency.title v) (ProjectReadWithConstituency.title w)
  = true.

(** A computation ends in an exception. *)
Definition raises {A} (m : outcome A) : Prop := exists e, m = Raise e.

(** A row has the natural key (title, constituency_code, source_doc_ref). *)
Definition has_key (title constituency_code : string) (source_doc_ref : option string)
    (p : Project.t) : bool :=
  bool_decide (Project.title p = title)
  && bool_decide (Project.constituency_code p = constituency_code)
  && bool_decide (Project.source_doc_ref p = source_doc_ref).

(** The payload fits the constraints of the [project] table. *)
Definition payload_storable (s : Store) (r : Payload.t) : Prop :=
  is_Some (session_get_constituency s (Payload.constituency_code r))
  /\ varchar 255 (Some (Payload.title r)) = true
  /\ varchar 120 (Payload.source_name r) = true
  /\ varchar 500 (Payload.source_url r) = true
  /\ varchar 120 (Payload.source_doc_ref r) = true.

(** The fourteen fields of a stored row that a payload sets. *)
Definition payload_of (p : Project.t) : Payload.t :=
  Payload.mk (Project.title p) (Project.description p) (Project.category p)
    (Project.status p) (Project.budget p) (Project.spent p) (Project.progress p)
    (Project.constituency_code p) (Project.start_date p) (Project.completion_date p)
    (Project.is_mock p) (Project.source_name p) (Project.source_url p)
    (Project.source_doc_ref p).

(** A row of the file has a field that fails validation: a category or
    status that is no member of the enumeration, a budget, spent or
    progress that is not a number, a date that does not parse. *)
Definition invalid_fields (py_float : string -> option float)
    (strptime : string -> string -> option datetime) (row : gmap string string) : Prop :=
  raises (normalize_category (get_or row "category" "Other"))
  \/ raises (normalize_status (get_or row "status" "Planned"))
  \/ raises (budget_of py_float row)
  \/ raises (as_float py_float (get_or row "spent" ""))
  \/ raises (as_float py_float (get_or row "progress" ""))
  \/ raises (parse_date strptime (get_or row "start_date" ""))
  \/ raises (parse_date strptime (get_or row "completion_date" "")).

(** The row is not skipped for a missing title or constituency code. *)
Definition has_natural_key (row : gmap string string) : Prop :=
  row_title row <> "" /\ row_constituency_code row <> "".

(** The exception a conversion raises, if it raises one. *)
Definition error_of {A} (m : outcome A) : list Error :=
  match m with
  | Raise e => [e]
  | Return _ => []
  end.

(** The exceptions of the seven conversions of a row, each conversion
    taken on its own, in the order of the keywords of the payload. *)
Definition conversion_errors (py_float : string -> option float)
    (strptime : string -> string -> option datetime) (row : gmap string string)
  : list Error :=
  (error_of (normalize_category (get_or row "category" "Other"))
   ++ error_of (normalize_status (get_or row "status" "Planned"))
   ++ error_of (budget_of py_float row)
   ++ error_of (as_float py_float (get_or row "spent" ""))
   ++ error_of (as_float py_float (get_or row "progress" ""))
   ++ error_of (parse_date strptime (get_or row "start_date" ""))
   ++ error_of (parse_date strptime (get_or row "completion_date" "")))%list.

(** Keys and update times of views in non-decreasing order. *)
Definition id_le (v w : ProjectReadWithConstituency.t) : Prop :=
  ProjectReadWithConstituency.id v <= ProjectReadWithConstituency.id w.

Definition last_updated_le (v w : ProjectReadWithConstituency.t) : Prop :=
  match ProjectReadWithConstituency.last_updated v,
        ProjectReadWithConstituency.last_updated w with
  | Some x, Some y => x <= y
  | _, _ => False
  end.

(** [page] is the window of [limit] views at [offset] of a list that holds
    every row of the join that passes the filters, each as often as the
    join has it, with the views in the order [R]. *)
Definition listing (constituency_code : option string) (category : option ProjectCategory)
    (status : option ProjectStatus) (offset limit : Z) (s : Store)
    (R : ProjectReadWithConstituency.t -> ProjectReadWithConstituency.t -> Prop)
    (page : list ProjectReadWithConstituency.t) : Prop :=
  exists rows,
    Permutation rows (List.filter (where_ constituency_code category status) (joined_rows s))
    /\ Sorted R (map project_view rows)
    /\ page = map project_view (take (Z.to_nat limit) (drop (Z.to_nat offset) rows)).

(** The request is answered, with such a page. *)
Definition lists_in_order (constituency_code : option string)
    (category : option ProjectCategory) (status : option ProjectStatus)
    (sort : string) (offset limit : Z) (s : Store)
    (R : ProjectReadWithConstituency.t -> ProjectReadWithConstituency.t -> Prop) : Prop :=
  exists page,
    read_projects constituency_code category status sort offset limit s = Return page
    /\ listing constituency_code category status offset limit s R page.

(** ** Requests in sequence, and the consistency of the award table *)

(** A request to the award router that writes. *)
Inductive AwardRequest :=
| CreateAward (now : datetime) (payload : ProcurementAwardCreate.t)
| UpdateAward (award_id : Z) (payload : ProcurementAwardUpdate.t)
| DeleteAward (award_id : Z).

(** The store after a request has been served, whatever its outcome. *)
Definition serve_award (s : Store) (req : AwardRequest) : Store :=
  match req with
  | CreateAward now payload => (create_award now payload s).1
  | UpdateAward award_id payload => (update_award award_id payload s).1
  | DeleteAward award_id => (delete_award award_id s).1
  end.

(** What the constraints of the [procurementaward] table and the
    one-award-per-project rule ask of a store. *)
Definition award_table_ok (s : Store) : Prop :=
  NoDup (map ProcurementAward.id (procurementaward s))
  /\ one_award_per_project s
  /\ forall a, In a (procurementaward s) ->
       is_Some (session_get_project s (ProcurementAward.project_id a))
       /\ award_contractor_ok s a = true
       /\ award_lengths_ok a = true.

(** The payload fits the VARCHAR columns of the award table. *)
Definition create_lengths_ok (payload : ProcurementAwardCreate.t) : bool :=
  varchar 120 (ProcurementAwardCreate.tender_id payload)
  && varchar 80 (ProcurementAwardCreate.procurement_method payload)
  && varchar 500 (ProcurementAwardCreate.performance_flag_reason payload).

(** The row [create_award] builds from a payload. *)
Definition award_of_payload (id : Z) (payload : ProcurementAwardCreate.t) (now : datetime)
  : ProcurementAward.t :=
  ProcurementAward.mk id
    (ProcurementAwardCreate.project_id payload)
    (Some (ProcurementAwardCreate.contractor_id payload))
    (ProcurementAwardCreate.tender_id payload)
    (ProcurementAwardCreate.procurement_method payload)
    (ProcurementAwardCreate.contract_value payload)
    (ProcurementAwardCreate.award_date payload)
    (ProcurementAwardCreate.contractor_share_hint payload)
    (Some (ProcurementAwardCreate.performance_flag payload))
    (ProcurementAwardCreate.performance_flag_reason payload)
    now.

(** ** The listing *)

(** The order of two views under a sort key. *)
Definition view_field_le (f : SortField) (v w : ProjectReadWithConstituency.t) : bool :=
  match f with
  | by_id => (ProjectReadWithConstituency.id v <=? ProjectReadWithConstituency.id w)%Z
  | by_title => String.leb (ProjectReadWithConstituency.title v)
                           (ProjectReadWithConstituency.title w)
  | by_last_updated =>
      match ProjectReadWithConstituency.last_updated v,
            ProjectReadWithConstituency.last_updated w with
      | Some x, Some y => (x <=? y)%Z
      | _, _ => false
      end
  end.

Definition view_le (o : SortField * SortDirection) (v w : ProjectReadWithConstituency.t)
  : Prop :=
  match o.2 with
  | asc => view_field_le o.1 v w = true
  | desc => view_field_le o.1 w v = true
  end.

(** A view passes the filters of a request. *)
Definition view_passes (constituency_code : option string)
    (category : option ProjectCategory) (status : option ProjectStatus)
    (v : ProjectReadWithConstituency.t) : Prop :=
  (forall cc, constituency_code = Some cc -> cc <> "" ->
     ProjectReadWithConstituency.constituency_code v = cc)
  /\ (forall c, category = Some c ->
        ProjectReadWithConstituency.category v = ProjectCategory_value c)
  /\ (forall st, status = Some st ->
        ProjectReadWithConstituency.status v = ProjectStatus_value st).

(** A row of the join is made of stored rows that belong together. *)
Definition row_sound (s : Store) (r : JoinRow) : Prop :=
  let '(p, c, oa, ok) := r in
  In p (project s)
  /\ In c (constituency s)
  /\ Constituency.code c = Project.constituency_code p
  /\ match oa with
     | Some a => In a (procurementaward s)
                 /\ ProcurementAward.project_id a = Project.id p
                 /\ match ok with
                    | Some k => In k (contractor s)
                                /\ ProcurementAward.contractor_id a = Some (Contractor.id k)
                    | None => contractor_of_award s a = None
                    end
     | None => award_of_project s (Project.id p) = None /\ ok = None
     end.

(** No two of the rows tie under the sort order: rows that precede each
    other are the same row. *)
Definition no_ties (o : SortField * SortDirection) (rows : list JoinRow) : Prop :=
  forall r r', In r rows -> In r' rows ->
    row_le o r r' = true -> row_le o r' r = true -> r = r'.

(** The primary keys of the tables the join reads on its right side. *)
Definition join_keys_ok (s : Store) : Prop :=
  NoDup (map Constituency.code (constituency s))
  /\ NoDup (map Contractor.id (contractor s))
  /\ one_award_per_project s.

(** The project has its constituency row. *)
Definition has_constituency (s : Store) (p : Project.t) : bool :=
  bool_decide (is_Some (session_get_constituency s (Project.constituency_code p))).

(** ** The bulk import *)

(** The row carries a title and a constituency code: it is not skipped. *)
Definition row_has_key (row : gmap string string) : bool :=
  negb (bool_decide (row_title row = "") || bool_decide (row_constituency_code row = "")).

(** A stored project has the natural key of the row. *)
Definition key_stored (s : Store) (row : gmap string string) : Prop :=
  is_Some (find_existing s (row_title row) (row_constituency_code row)
                         (row_source_doc_ref row)).

(** The cell of a row is missing or empty. *)
Definition blank (row : gmap string string) (key : string) : Prop :=
  row !! key = None \/ row !! key = Some "".

(** The payload of a row that gives nothing but its natural key. *)
Definition default_payload (title constituency_code : string)
    (source_doc_ref : option string) : Payload.t :=
  Payload.mk title None Other Planned (SpecFloat.S754_zero false) None None
             constituency_code None None false None None source_doc_ref.

(** ** Users *)

(** What a login may not touch in a user row: everything but last_login. *)
Definition identity_of (u : User.t)
  : Z * string * string * option string * option string * UserRole * UserStatus * datetime :=
  (User.id u, User.username u, User.password_hash u, User.full_name u, User.email u,
   User.role u, User.status u, User.created_at u).

Definition UserRole_value (r : UserRole) : string :=
  match r with
  | admin => "admin"
  | moderator => "moderator"
  | viewer => "viewer"
  end.

Definition UserStatus_value (st : UserStatus) : string :=
  match st with
  | active => "active"
  | disabled => "disabled"
  end.
(** * Properties of the award binder *)

Section AwardBinder.

Implicit Types (s : Store) (now : datetime).

Lemma find_first_some {A} (f : A -> bool) (l : list A) (x : A) :
  In x l -> f x = true -> exists y, List.find f l = Some y.
Proof.
  intros Hin Hf. destruct (List.find f l) as [y|] eqn:E; [eauto|].
  pose proof (find_none f l E x Hin) as Hn. congruence.
Qed.

Lemma create_award_precheck_error payload s e :
  create_award_precheck payload s = Some e ->
  e = HTTPException 400 "This project already has an award".
Proof.
  unfold create_award_precheck. destruct (List.find _ _); congruence.
Qed.

(** C2: in a state where some award already exists for the project of the
    payload, [create_award] raises the duplicate-award error (HTTP 400,
    "This project already has an award") whatever contractor and fields the
    payload carries; the error comes from the check that precedes the
    insert, and the store is returned as it was. *)
Theorem create_award_duplicate now payload s (a : ProcurementAward.t) :
  In a (procurementaward s) ->
  ProcurementAward.project_id a = ProcurementAwardCreate.project_id payload ->
  create_award_precheck payload s
    = Some (HTTPException 400 "This project already has an award")
  /\ create_award now payload s
    = (s, Raise (HTTPException 400 "This project already has an award")).
Proof.
  intros Hin Hpid.
  assert (Hc : create_award_precheck payload s
               = Some (HTTPException 400 "This project already has an award")).
  { unfold create_award_precheck.
    destruct (find_first_some
                (fun a0 => bool_decide (ProcurementAward.project_id a0
                                        = ProcurementAwardCreate.project_id payload))
                (procurementaward s) a Hin) as [y Hy].
    - by apply bool_decide_eq_true.
    - by rewrite Hy. }
  split; [exact Hc|]. unfold create_award. by rewrite Hc.
Qed.

(** The scenario of the specification: project 42 holds an award with
    contractor 7, a second attempt with contractor 9 is refused. *)
Lemma create_award_duplicate_witness :
  create_award_precheck (award_payload 42 9) awarded_store
    = Some (HTTPException 400 "This project already has an award")
  /\ create_award 3000 (award_payload 42 9) awarded_store
    = (awarded_store, Raise (HTTPException 400 "This project already has an award")).
Proof.
  apply (create_award_duplicate 3000 (award_payload 42 9) awarded_store (sample_award 1 42 7)).
  - simpl. left. reflexivity.
  - reflexivity.
Defined.

(** *** [update_award] *)

Lemma absent_fields_retained_refl payload a : absent_fields_retained payload a a.
Proof. unfold absent_fields_retained. tauto. Qed.

Lemma setattrs_retains payload a : absent_fields_retained payload a (setattrs a payload).
Proof.
  unfold absent_fields_retained, setattrs; simpl.
  repeat split; try reflexivity; intros ->; reflexivity.
Qed.

Lemma setattrs_id a payload : ProcurementAward.id (setattrs a payload) = ProcurementAward.id a.
Proof. reflexivity. Qed.

Lemma setattrs_project_id a payload :
  ProcurementAward.project_id (setattrs a payload) = ProcurementAward.project_id a.
Proof. reflexivity. Qed.

Lemma find_updated_rows award_id payload rows pk :
  List.find (fun a => bool_decide (ProcurementAward.id a = pk))
            (updated_rows award_id payload rows)
  = (fun a => if bool_decide (ProcurementAward.id a = award_id)
              then setattrs a payload else a)
    <$> List.find (fun a => bool_decide (ProcurementAward.id a = pk)) rows.
Proof.
  induction rows as [|a rows IH]; [reflexivity|]. simpl.
  destruct (bool_decide (ProcurementAward.id a = award_id)) eqn:Ea.
  - rewrite setattrs_id.
    destruct (bool_decide (ProcurementAward.id a = pk)); simpl; [by rewrite Ea|exact IH].
  - destruct (bool_decide (ProcurementAward.id a = pk)); simpl; [by rewrite Ea|exact IH].
Qed.

Lemma get_award_id s pk a : session_get_award s pk = Some a -> ProcurementAward.id a = pk.
Proof.
  unfold session_get_award. intros H. apply find_some in H as [_ H].
  by apply bool_decide_eq_true in H.
Qed.

Lemma update_award_cases award_id payload s :
  match session_get_award s award_id with
  | None => update_award award_id payload s
            = (s, Raise (HTTPException 404 "Award not found"))
  | Some award =>
      (exists e, update_award award_id payload s = (s, Raise e))
      \/ update_award award_id payload s
         = (with_procurementaward s (updated_rows award_id payload (procurementaward s)),
            Return (setattrs award payload))
  end.
Proof.
  unfold update_award. destruct (session_get_award s award_id) as [award|]; [|reflexivity].
  destruct (update_award_check s award (setattrs award payload)); [left; eauto|right; reflexivity].
Qed.

(** C8: [update_award] on an existing award leaves every field the request
    did not set at its stored value (and never touches id, project_id or
    created_at), leaves every other award as it was, and returns the
    updated row when the commit goes through; with an unknown award_id it
    raises 404 "Award not found" and returns the store unchanged. *)
Theorem update_award_partial award_id payload s :
  (forall award, session_get_award s award_id = Some award ->
     exists award',
       session_get_award (update_award award_id payload s).1 award_id = Some award'
       /\ absent_fields_retained payload award award'
       /\ (forall r, (update_award award_id payload s).2 = Return r -> r = award')
       /\ (forall pk, pk <> award_id ->
             session_get_award (update_award award_id payload s).1 pk = session_get_award s pk))
  /\ (session_get_award s award_id = None ->
      update_award award_id payload s = (s, Raise (HTTPException 404 "Award not found"))).
Proof.
  pose proof (update_award_cases award_id payload s) as Hc.
  split.
  - intros award Hget. rewrite Hget in Hc. destruct Hc as [[e He]|He]; rewrite He; simpl.
    + exists award. split; [exact Hget|]. split; [apply absent_fields_retained_refl|].
      split; [intros r Hr; discriminate|reflexivity].
    + exists (setattrs award payload). split; [|split; [|split]].
      * unfold session_get_award in *. simpl.
        rewrite find_updated_rows, Hget. simpl.
        rewrite bool_decide_eq_true_2; [reflexivity|].
        apply find_some in Hget as [_ Hb]. by apply bool_decide_eq_true in Hb.
      * apply setattrs_retains.
      * intros r Hr. congruence.
      * intros pk Hne. unfold session_get_award. simpl.
        rewrite find_updated_rows.
        destruct (List.find _ (procurementaward s)) as [b|] eqn:Eb; [|reflexivity].
        simpl. apply find_some in Eb as [_ Hb]. apply bool_decide_eq_true in Hb.
        rewrite bool_decide_eq_false_2; [reflexivity|congruence].
  - intros Hget. by rewrite Hget in Hc.
Qed.

Lemma update_award_partial_witness :
  session_get_award awarded_store 1 = Some (sample_award 1 42 7)
  /\ exists award',
       session_get_award (update_award 1 tender_update awarded_store).1 1 = Some award'
       /\ absent_fields_retained tender_update (sample_award 1 42 7) award'.
Proof.
  split; [reflexivity|].
  destruct (update_award_partial 1 tender_update awarded_store) as [H _].
  destruct (H (sample_award 1 42 7) eq_refl) as (a' & H1 & H2 & _).
  exists a'. split; assumption.
Defined.

(** A set field takes the value of the request when the commit succeeds. *)
Lemma update_award_applies award_id payload s s' r :
  update_award award_id payload s = (s', Return r) ->
  exists award, session_get_award s award_id = Some award /\ r = setattrs award payload.
Proof.
  intros Hu. pose proof (update_award_cases award_id payload s) as Hc.
  destruct (session_get_award s award_id) as [award|] eqn:Hget; [|congruence].
  exists award. split; [reflexivity|].
  destruct Hc as [[e He]|He]; congruence.
Qed.

Lemma updated_rows_keys award_id payload rows :
  map (fun a => (ProcurementAward.id a, ProcurementAward.project_id a))
      (updated_rows award_id payload rows)
  = map (fun a => (ProcurementAward.id a, ProcurementAward.project_id a)) rows.
Proof.
  unfold updated_rows. rewrite map_map. apply map_ext. intros a.
  destruct (bool_decide _); reflexivity.
Qed.

(** C10: whatever the payload, and whether the call succeeds or not,
    [update_award] leaves the (id, project_id) pair of every stored award
    as it was: the update schema has no project_id field, so an award
    cannot be pointed at another project, and a store with at most one
    award per project stays so. *)
Theorem update_award_keeps_project_id award_id payload s :
  map (fun a => (ProcurementAward.id a, ProcurementAward.project_id a))
      (procurementaward (update_award award_id payload s).1)
  = map (fun a => (ProcurementAward.id a, ProcurementAward.project_id a))
        (procurementaward s)
  /\ (one_award_per_project s ->
      one_award_per_project (update_award award_id payload s).1).
Proof.
  assert (Hk : map (fun a => (ProcurementAward.id a, ProcurementAward.project_id a))
                   (procurementaward (update_award award_id payload s).1)
               = map (fun a => (ProcurementAward.id a, ProcurementAward.project_id a))
                     (procurementaward s)).
  { pose proof (update_award_cases award_id payload s) as Hc.
    destruct (session_get_award s award_id) as [award|].
    - destruct Hc as [[e He]|He]; rewrite He; simpl; [reflexivity|].
      apply updated_rows_keys.
    - rewrite Hc. reflexivity. }
  split; [exact Hk|].
  unfold one_award_per_project.
  assert (Hp : map ProcurementAward.project_id
                   (procurementaward (update_award award_id payload s).1)
               = map ProcurementAward.project_id (procurementaward s)).
  { apply (f_equal (map snd)) in Hk. rewrite !map_map in Hk. exact Hk. }
  rewrite Hp. trivial.
Qed.

Lemma update_award_keeps_project_id_witness :
  one_award_per_project awarded_store
  /\ one_award_per_project (update_award 1 tender_update awarded_store).1.
Proof.
  assert (H : one_award_per_project awarded_store).
  { unfold one_award_per_project. simpl. apply NoDup_cons; split; [|apply NoDup_nil_2].
    apply not_elem_of_nil. }
  split; [exact H|].
  exact (proj2 (update_award_keeps_project_id 1 tender_update awarded_store) H).
Defined.

(** *** [create_award] and the storage engine *)

(** Served one at a time, the handlers keep at most one award per project:
    the application-level check is what guarantees it. *)
Lemma create_award_sequential_invariant now payload s :
  one_award_per_project s -> one_award_per_project (create_award now payload s).1.
Proof.
  unfold one_award_per_project, create_award, create_award_precheck.
  intros Hnd.
  destruct (List.find _ (procurementaward s)) as [a|] eqn:Ef; [exact Hnd|].
  unfold create_award_insert. destruct (insert_award_check _ _); [exact Hnd|].
  simpl. rewrite map_app. simpl. apply NoDup_app. split; [exact Hnd|].
  split; [|apply NoDup_singleton].
  intros x Hx Hx'. apply list_elem_of_singleton in Hx'. subst x.
  apply list_elem_of_In, in_map_iff in Hx as (a & Ha & Hin).
  pose proof (find_none _ _ Ef a Hin) as Hb. simpl in Hb.
  apply bool_decide_eq_false in Hb. congruence.
Qed.

Lemma delete_award_sequential_invariant award_id s :
  one_award_per_project s -> one_award_per_project (delete_award award_id s).1.
Proof.
  unfold one_award_per_project, delete_award. intros Hnd.
  destruct (session_get_award s award_id); [|exact Hnd]. simpl.
  induction (procurementaward s) as [|a l IH]; [exact Hnd|].
  simpl in *. apply NoDup_cons in Hnd as [Hn Hnd].
  destruct (negb _); [|auto]. simpl. apply NoDup_cons. split; [|auto].
  intros Hin. apply Hn. apply list_elem_of_In, in_map_iff in Hin as (b & Hb & Hin).
  apply filter_In in Hin as [Hin _]. apply list_elem_of_In, in_map_iff. eauto.
Qed.

(** The INSERT itself does not look at the awards already stored. *)
Lemma insert_award_check_ignores_awards s rows a :
  insert_award_check (with_procurementaward s rows) a = insert_award_check s a.
Proof. reflexivity. Qed.

(** C1: the store does not declare project_id unique.  With project 42
    and contractors 7 and 9 stored and no award yet, two [create_award]
    calls for project 42 that both pass the check before either commits
    are both committed: both callers get their award back, neither sees a
    duplicate-award error, and the store ends with two awards for project
    42. *)
Theorem create_award_race_two_awards :
  create_award_concurrently 2000 (award_payload 42 7) (award_payload 42 9) sample_store
  = (with_procurementaward sample_store [sample_award 1 42 7; sample_award 2 42 9],
     (Return (sample_award 1 42 7), Return (sample_award 2 42 9)))
  /\ ~ one_award_per_project
         (create_award_concurrently 2000 (award_payload 42 7) (award_payload 42 9)
            sample_store).1.
Proof.
  split; [reflexivity|].
  unfold one_award_per_project. simpl. intros Hnd.
  apply NoDup_cons in Hnd as [Hn _]. apply Hn. apply list_elem_of_here.
Qed.

Lemma create_award_not_404 now payload s d :
  (create_award now payload s).2 <> Raise (HTTPException 404 d).
Proof.
  unfold create_award.
  destruct (create_award_precheck payload s) as [e|] eqn:Ec.
  - apply create_award_precheck_error in Ec. subst e. simpl. congruence.
  - unfold create_award_insert, insert_award_check.
    repeat destruct (negb _); simpl; congruence.
Qed.

(** C4: [create_award] has no existence check.  With no project 999 in the
    store, the call goes to the insert, the foreign key of project_id
    rejects the row and the handler ends in the engine's IntegrityError;
    the store is unchanged, but no call of [create_award] ever ends in a
    404 not-found error. *)
Theorem create_award_unknown_project :
  session_get_project sample_store 999 = None
  /\ create_award 2000 (award_payload 999 7) sample_store
     = (sample_store, Raise IntegrityError)
  /\ forall now payload s d,
       (create_award now payload s).2 <> Raise (HTTPException 404 d).
Proof.
  split; [reflexivity|]. split; [reflexivity|].
  intros. apply create_award_not_404.
Qed.

End AwardBinder.

(** * Properties of the project view assembler *)

Section ViewAssembler.

Implicit Types (s : Store) (p : Project.t) (r : JoinRow).

Lemma head_filter_find {A} (f : A -> bool) (l : list A) :
  head (List.filter f l) = List.find f l.
Proof. induction l as [|a l IH]; simpl; [reflexivity|]. destruct (f a); auto. Qed.

Lemma find_filter_cons {A} (f : A -> bool) (l : list A) (x : A) :
  List.find f l = Some x -> exists rest, List.filter f l = x :: rest.
Proof.
  induction l as [|a l IH]; simpl; [discriminate|].
  destruct (f a); [intros [= ->]; eauto|exact IH].
Qed.

Lemma find_filter_nil {A} (f : A -> bool) (l : list A) :
  List.find f l = None -> List.filter f l = [].
Proof.
  induction l as [|a l IH]; simpl; [reflexivity|]. destruct (f a); [discriminate|exact IH].
Qed.

Lemma project_rows_project s p r : In r (project_rows s p) -> row_project r = p.
Proof.
  unfold project_rows. intros Hin. apply in_flat_map in Hin as (c & _ & Hin).
  apply in_map_iff in Hin as (ac & <- & _). reflexivity.
Qed.

Lemma filter_project_rows s p pk :
  List.filter (fun r => bool_decide (Project.id (row_project r) = pk)) (project_rows s p)
  = if bool_decide (Project.id p = pk) then project_rows s p else [].
Proof.
  pose proof (project_rows_project s p) as Hp.
  induction (project_rows s p) as [|r l IH]; [by destruct (bool_decide _)|].
  simpl. rewrite (Hp r (or_introl eq_refl)).
  rewrite IH by (intros r' Hr'; apply Hp; by right).
  destruct (bool_decide (Project.id p = pk)); reflexivity.
Qed.

(** The row the query of [read_project] returns first comes from the
    project with that key. *)
Lemma head_joined_rows s pk p :
  session_get_project s pk = Some p -> project_rows s p <> [] ->
  head (List.filter (fun r => bool_decide (Project.id (row_project r) = pk))
                    (joined_rows s))
  = head (project_rows s p).
Proof.
  unfold session_get_project, joined_rows. intros Hget Hne.
  induction (project s) as [|q l IH]; simpl in *; [discriminate|].
  rewrite List.filter_app, filter_project_rows.
  destruct (bool_decide (Project.id q = pk)).
  - injection Hget as ->. destruct (project_rows s p); [congruence|reflexivity].
  - simpl. auto.
Qed.

Lemma head_join_contractor s a :
  head (join_contractor s a) = Some (contractor_of_award s a).
Proof.
  unfold join_contractor, contractor_of_award.
  destruct (List.find _ (contractor s)) as [k|] eqn:Ek.
  - apply find_filter_cons in Ek as [rest ->]. reflexivity.
  - apply find_filter_nil in Ek as ->. reflexivity.
Qed.

Lemma head_join_award s p : head (join_award s p) = Some (first_join_award s p).
Proof.
  unfold join_award, first_join_award, award_of_project.
  destruct (List.find _ (procurementaward s)) as [a|] eqn:Ea.
  - apply find_filter_cons in Ea as [rest ->]. simpl.
    pose proof (head_join_contractor s a) as Hk.
    destruct (join_contractor s a); simpl in *; [discriminate|congruence].
  - apply find_filter_nil in Ea as ->. reflexivity.
Qed.

Lemma head_project_rows s p c :
  session_get_constituency s (Project.constituency_code p) = Some c ->
  head (project_rows s p)
  = Some (p, c, (first_join_award s p).1, (first_join_award s p).2).
Proof.
  unfold session_get_constituency, project_rows. intros Hc.
  rewrite (List.filter_ext _ (fun c0 => bool_decide (Constituency.code c0
                                                  = Project.constituency_code p))).
  2:{ intros c0. apply bool_decide_ext. split; congruence. }
  apply find_filter_cons in Hc as [rest ->]. simpl.
  pose proof (head_join_award s p) as Ha.
  destruct (join_award s p) as [|ac l]; simpl in *; [discriminate|].
  injection Ha as <-. reflexivity.
Qed.

(** Inner join: without the constituency row the project gives no row. *)
Lemma project_rows_no_constituency s p :
  session_get_constituency s (Project.constituency_code p) = None -> project_rows s p = [].
Proof.
  unfold session_get_constituency, project_rows. intros Hc.
  rewrite (List.filter_ext _ (fun c0 => bool_decide (Constituency.code c0
                                                  = Project.constituency_code p))).
  2:{ intros c0. apply bool_decide_ext. split; congruence. }
  apply find_filter_nil in Hc as ->. reflexivity.
Qed.

Lemma read_project_row s p c :
  session_get_project s (Project.id p) = Some p ->
  session_get_constituency s (Project.constituency_code p) = Some c ->
  read_project (Project.id p) s
  = Return (project_view (p, c, (first_join_award s p).1, (first_join_award s p).2)).
Proof.
  intros Hp Hc. unfold read_project.
  pose proof (head_project_rows s p c Hc) as Hh.
  rewrite (head_joined_rows s (Project.id p) p Hp).
  - by rewrite Hh.
  - intros Hnil. rewrite Hnil in Hh. discriminate.
Qed.

(** C3: for a stored project [p] whose constituency row is [c],
    [read_project] returns a view whose constituency_name, county and
    mp_name are those of [c]; when no award is stored for [p] the five
    award and contractor fields are null; when the award found for [p]
    points at no contractor row, contractor_name is null and tender_id,
    procurement_method, contract_value and award_date are the award's; and
    when the contractor row is there, contractor_name is its name. *)
Theorem read_project_view s p c :
  session_get_project s (Project.id p) = Some p ->
  session_get_constituency s (Project.constituency_code p) = Some c ->
  exists v,
    read_project (Project.id p) s = Return v
    /\ ProjectReadWithConstituency.constituency_name v = Constituency.name c
    /\ ProjectReadWithConstituency.county v = Constituency.county c
    /\ ProjectReadWithConstituency.mp_name v = Constituency.mp_name c
    /\ (award_of_project s (Project.id p) = None -> no_award_fields v)
    /\ (forall a, award_of_project s (Project.id p) = Some a ->
          contractor_of_award s a = None ->
          ProjectReadWithConstituency.contractor_name v = None /\ award_fields_of a v)
    /\ (forall a k, award_of_project s (Project.id p) = Some a ->
          contractor_of_award s a = Some k ->
          ProjectReadWithConstituency.contractor_name v = Some (Contractor.name k)
          /\ award_fields_of a v).
Proof.
  intros Hp Hc. eexists. split; [apply (read_project_row s p c Hp Hc)|].
  do 3 (split; [reflexivity|]).
  unfold first_join_award, no_award_fields, award_fields_of.
  split; [intros ->; simpl; tauto|].
  split.
  - intros a Ha Hk. rewrite Ha. simpl. rewrite Hk. simpl. tauto.
  - intros a k Ha Hk. rewrite Ha. simpl. rewrite Hk. simpl. tauto.
Qed.

Lemma read_project_view_witness :
  session_get_project awarded_store 42 = Some borehole_a
  /\ session_get_constituency awarded_store "001" = Some kajiado_north
  /\ exists v, read_project 42 awarded_store = Return v
               /\ ProjectReadWithConstituency.constituency_name v = "Kajiado North".
Proof.
  split; [reflexivity|]. split; [reflexivity|].
  destruct (read_project_view awarded_store borehole_a kajiado_north eq_refl eq_refl)
    as (v & Hv & Hn & _).
  exists v. split; [exact Hv|exact Hn].
Defined.

Example read_project_no_award :
  (fun v => (ProjectReadWithConstituency.contractor_name v,
             ProjectReadWithConstituency.tender_id v))
    <$> (match read_project 42 sample_store with Return v => Some v | Raise _ => None end)
  = Some (None, None).
Proof. reflexivity. Qed.

Example read_project_dangling_contractor :
  (fun v => (ProjectReadWithConstituency.contractor_name v,
             ProjectReadWithConstituency.tender_id v))
    <$> (match read_project 42 dangling_store with Return v => Some v | Raise _ => None end)
  = Some (None, Some "NG-CDF/KAJIADO/2025/008").
Proof. reflexivity. Qed.

Example read_project_unknown :
  read_project 7 sample_store = Raise (HTTPException 404 "Project not found").
Proof. reflexivity. Qed.

(** *** Sorting *)

Lemma sort_order_fallback sort :
  ~ In sort sort_keys -> sort_order sort = (by_last_updated, desc).
Proof.
  unfold sort_keys, sort_order. simpl. intros Hn.
  repeat case_bool_decide; try reflexivity; subst; exfalso; apply Hn; tauto.
Qed.

Lemma field_le_total f (p q : Project.t) : field_le f p q = false -> field_le f q p = true.
Proof.
  destruct f; simpl.
  - intros H. apply Z.leb_gt in H. apply Z.leb_le. lia.
  - intros H. destruct (String.leb_total (Project.title p) (Project.title q)); congruence.
  - intros H. apply Z.leb_gt in H. apply Z.leb_le. lia.
Qed.

Lemma row_le_total o r r' : row_le o r r' = false -> row_le o r' r = true.
Proof. unfold row_le. destruct (o.2); apply field_le_total. Qed.

Section Insertion.

Variable le : JoinRow -> JoinRow -> bool.
Hypothesis le_total : forall r r', le r r' = false -> le r' r = true.

Lemma insert_row_HdRel x y l :
  le y x = true ->
  HdRel (fun r r' => le r r' = true) y l ->
  HdRel (fun r r' => le r r' = true) y (insert_row le x l).
Proof.
  intros Hyx Hl. destruct l as [|z l]; simpl; [by constructor|].
  destruct (le x z); constructor; [exact Hyx|].
  by inversion Hl.
Qed.

Lemma insert_row_Sorted x l :
  Sorted (fun r r' => le r r' = true) l ->
  Sorted (fun r r' => le r r' = true) (insert_row le x l).
Proof.
  induction l as [|y l IH]; simpl; intros Hs.
  - repeat constructor.
  - destruct (le x y) eqn:E.
    + constructor; [exact Hs|]. constructor. exact E.
    + inversion Hs as [|? ? Hs' Hhd]; subst. constructor; [auto|].
      apply insert_row_HdRel; [|exact Hhd]. apply le_total, E.
Qed.

Lemma foldr_insert_row_Sorted rows :
  Sorted (fun r r' => le r r' = true) (foldr (insert_row le) [] rows).
Proof.
  induction rows as [|r rows IH]; simpl; [constructor|]. by apply insert_row_Sorted.
Qed.

End Insertion.

Lemma order_by_Sorted o rows :
  Sorted (fun r r' => row_le o r r' = true) (order_by o rows).
Proof. apply foldr_insert_row_Sorted. apply row_le_total. Qed.

(** [ORDER BY] drops no row and adds none. *)
Lemma insert_row_Permutation le r (l : list JoinRow) :
  Permutation (insert_row le r l) (r :: l).
Proof.
  induction l as [|r' l IH]; simpl; [reflexivity|].
  destruct (le r r'); [reflexivity|]. rewrite IH. apply perm_swap.
Qed.

Lemma order_by_Permutation o (rows : list JoinRow) : Permutation (order_by o rows) rows.
Proof.
  unfold order_by. induction rows as [|r rows IH]; simpl; [reflexivity|].
  rewrite insert_row_Permutation. by apply perm_skip.
Qed.

Lemma Sorted_tail {A} (R : A -> A -> Prop) x l : Sorted R (x :: l) -> Sorted R l.
Proof. by inversion 1. Qed.

Lemma Sorted_drop {A} (R : A -> A -> Prop) n l : Sorted R l -> Sorted R (drop n l).
Proof.
  revert l. induction n as [|n IH]; intros [|x l] Hs; simpl; auto.
  apply IH. by apply Sorted_tail in Hs.
Qed.

Lemma Sorted_take {A} (R : A -> A -> Prop) n l : Sorted R l -> Sorted R (take n l).
Proof.
  revert l. induction n as [|n IH]; intros [|x l] Hs; simpl; try constructor.
  - apply IH. by apply Sorted_tail in Hs.
  - inversion Hs as [|? ? _ Hhd]; subst.
    destruct l as [|y l]; destruct n; simpl; constructor. by inversion Hhd.
Qed.

Lemma Sorted_map {A B} (R : A -> A -> Prop) (Q : B -> B -> Prop) (f : A -> B) l :
  (forall x y, R x y -> Q (f x) (f y)) -> Sorted R l -> Sorted Q (map f l).
Proof.
  intros HRQ. induction 1 as [|x l Hs IH Hhd]; simpl; constructor; [exact IH|].
  destruct Hhd; simpl; constructor. by apply HRQ.
Qed.

Lemma project_view_title r :
  ProjectReadWithConstituency.title (project_view r) = Project.title (row_project r).
Proof. by destruct r as [[[p c] a] k]. Qed.

Lemma read_projects_returns cc cat st sort offset limit s :
  0 <= offset -> 1 <= limit <= 100 ->
  read_projects cc cat st sort offset limit s
  = Return (map project_view
              (take (Z.to_nat limit)
                 (drop (Z.to_nat offset)
                    (order_by (sort_order sort)
                       (List.filter (where_ cc cat st) (joined_rows s)))))).
Proof.
  intros Ho [Hl1 Hl2]. unfold read_projects.
  replace (0 <=? offset)%Z with true by (symmetry; apply Z.leb_le; lia).
  replace (1 <=? limit)%Z with true by (symmetry; apply Z.leb_le; lia).
  replace (limit <=? 100)%Z with true by (symmetry; apply Z.leb_le; lia).
  reflexivity.
Qed.

(** The answer to a request in bounds is a window of the rows that pass
    the filters, laid out in any order of the views that the order of the
    rows implies. *)
Lemma read_projects_lists cc cat st sort offset limit s
    (R : ProjectReadWithConstituency.t -> ProjectReadWithConstituency.t -> Prop) :
  0 <= offset -> 1 <= limit <= 100 ->
  (forall r r', row_le (sort_order sort) r r' = true -> R (project_view r) (project_view r')) ->
  lists_in_order cc cat st sort offset limit s R.
Proof.
  intros Ho Hl HR. eexists. split; [apply read_projects_returns; assumption|].
  exists (order_by (sort_order sort) (List.filter (where_ cc cat st) (joined_rows s))).
  split; [apply order_by_Permutation|]. split; [|reflexivity].
  apply (Sorted_map (fun r r' => row_le (sort_order sort) r r' = true)); [exact HR|].
  apply order_by_Sorted.
Qed.

Lemma row_le_id_le r r' :
  row_le (by_id, asc) r r' = true -> id_le (project_view r) (project_view r').
Proof.
  destruct r as [[[p c] a] k], r' as [[[p' c'] a'] k']. unfold row_le, id_le. simpl.
  apply Z.leb_le.
Qed.

Lemma row_le_last_updated_le r r' :
  row_le (by_last_updated, asc) r r' = true ->
  last_updated_le (project_view r) (project_view r').
Proof.
  destruct r as [[[p c] a] k], r' as [[[p' c'] a'] k']. unfold row_le, last_updated_le.
  simpl. apply Z.leb_le.
Qed.

Lemma row_le_title_le r r' :
  row_le (by_title, asc) r r' = true -> title_le (project_view r) (project_view r').
Proof. unfold title_le. rewrite !project_view_title. intros H. exact H. Qed.

(** C7: the six documented keys select six different orders, a request
    without sort parameter is served as last_updated_desc, every other
    sort string gives the very result of last_updated_desc (no error is
    raised for it), and the page returned for title_asc has its titles in
    non-decreasing lexicographic order.  Each key decides the page that is
    returned: the page is the window of [limit] views at [offset] of a
    list that holds every row passing the filters, in non-decreasing order
    of ids, update times or titles for id_asc, last_updated_asc and
    title_asc, in non-increasing order for the three _desc keys, and in
    non-increasing order of update times for a sort string that is none of
    the six and for a request without sort parameter. *)
Theorem read_projects_sort cc cat st offset limit s :
  map sort_order sort_keys
  = [(by_id, asc); (by_id, desc); (by_last_updated, asc); (by_last_updated, desc);
     (by_title, asc); (by_title, desc)]
  /\ read_projects_request cc cat st None (Some offset) (Some limit) s
     = read_projects cc cat st "last_updated_desc" offset limit s
  /\ (forall sort, ~ In sort sort_keys ->
        read_projects cc cat st sort offset limit s
        = read_projects cc cat st "last_updated_desc" offset limit s)
  /\ (0 <= offset -> 1 <= limit <= 100 ->
      exists page, read_projects cc cat st "title_asc" offset limit s = Return page
                   /\ Sorted title_le page)
  /\ (0 <= offset -> 1 <= limit <= 100 ->
      lists_in_order cc cat st "id_asc" offset limit s id_le
      /\ lists_in_order cc cat st "id_desc" offset limit s (flip id_le)
      /\ lists_in_order cc cat st "last_updated_asc" offset limit s last_updated_le
      /\ lists_in_order cc cat st "last_updated_desc" offset limit s (flip last_updated_le)
      /\ lists_in_order cc cat st "title_asc" offset limit s title_le
      /\ lists_in_order cc cat st "title_desc" offset limit s (flip title_le)
      /\ (forall sort, ~ In sort sort_keys ->
            lists_in_order cc cat st sort offset limit s (flip last_updated_le))
      /\ exists page,
           read_projects_request cc cat st None (Some offset) (Some limit) s = Return page
           /\ listing cc cat st offset limit s (flip last_updated_le) page).
Proof.
  split; [reflexivity|]. split; [reflexivity|]. split; [|split].
  - intros sort Hn. unfold read_projects. by rewrite (sort_order_fallback sort Hn).
  - intros Ho Hl. eexists. split; [apply read_projects_returns; assumption|].
    apply (Sorted_map (fun r r' => row_le (by_title, asc) r r' = true)).
    + intros r r' Hle. unfold title_le. rewrite !project_view_title. exact Hle.
    + apply Sorted_take, Sorted_drop. apply (order_by_Sorted (by_title, asc)).
  - intros Ho Hl.
    assert (Hdesc : lists_in_order cc cat st "last_updated_desc" offset limit s
                      (flip last_updated_le)).
    { apply read_projects_lists; [assumption..|].
      intros r r'. change (sort_order "last_updated_desc") with (by_last_updated, desc).
      apply (row_le_last_updated_le r' r). }
    repeat split.
    + apply read_projects_lists; [assumption..|].
      intros r r'. change (sort_order "id_asc") with (by_id, asc). apply row_le_id_le.
    + apply read_projects_lists; [assumption..|].
      intros r r'. change (sort_order "id_desc") with (by_id, desc).
      apply (row_le_id_le r' r).
    + apply read_projects_lists; [assumption..|].
      intros r r'. change (sort_order "last_updated_asc") with (by_last_updated, asc).
      apply row_le_last_updated_le.
    + exact Hdesc.
    + apply read_projects_lists; [assumption..|].
      intros r r'. change (sort_order "title_asc") with (by_title, asc).
      apply row_le_title_le.
    + apply read_projects_lists; [assumption..|].
      intros r r'. change (sort_order "title_desc") with (by_title, desc).
      apply (row_le_title_le r' r).
    + intros sort Hn. apply read_projects_lists; [assumption..|].
      intros r r'. rewrite (sort_order_fallback sort Hn).
      apply (row_le_last_updated_le r' r).
    + exact Hdesc.
Qed.

Lemma read_projects_sort_witness :
  read_projects None None None "newest" 0 20 two_project_store
  = read_projects None None None "last_updated_desc" 0 20 two_project_store
  /\ (exists page, read_projects None None None "title_asc" 0 20 two_project_store
                   = Return page
                   /\ Sorted title_le page)
  /\ lists_in_order None None None "id_desc" 0 20 two_project_store (flip id_le)
  /\ lists_in_order None None None "newest" 0 20 two_project_store (flip last_updated_le).
Proof.
  assert (Hn : ~ In "newest" sort_keys).
  { simpl. intros H. repeat destruct H as [H|H]; try discriminate H. exact H. }
  destruct (read_projects_sort None None None 0 20 two_project_store)
    as (_ & _ & Hf & Hs & Hl).
  split; [apply Hf, Hn|]. split; [apply Hs; lia|].
  destruct Hl as (_ & Hid & _ & _ & _ & _ & Hother & _); [lia..|].
  split; [exact Hid|apply Hother, Hn].
Defined.

Example read_projects_title_asc :
  (map ProjectReadWithConstituency.title
     <$> match read_projects None None None "title_asc" 0 20 two_project_store with
         | Return page => Some page
         | Raise _ => None
         end)
  = Some ["Borehole A"; "Classroom Block"].
Proof. reflexivity. Qed.

Example read_projects_default_order :
  (map ProjectReadWithConstituency.title
     <$> match read_projects None None None "bogus" 0 20 two_project_store with
         | Return page => Some page
         | Raise _ => None
         end)
  = Some ["Classroom Block"; "Borehole A"].
Proof. reflexivity. Qed.

Example read_projects_limit_zero :
  read_projects None None None "id_asc" 0 0 two_project_store = Raise RequestValidationError.
Proof. reflexivity. Qed.

End ViewAssembler.

(** * Properties of the natural-key upsert *)

Section NaturalKeyUpsert.

Implicit Types (s : Store) (r : Payload.t) (p : Project.t).

Lemma next_id_fresh (ids : list Z) (x : Z) : In x ids -> x < next_id ids.
Proof.
  unfold next_id. induction ids as [|y ids IH]; simpl; [tauto|].
  intros [->|Hin]; [lia|]. specialize (IH Hin). lia.
Qed.

Lemma find_snoc {A} (f : A -> bool) (l : list A) (x : A) :
  List.find f l = None -> List.find f (l ++ [x]) = if f x then Some x else None.
Proof.
  induction l as [|a l IH]; simpl; [reflexivity|]. destruct (f a); [discriminate|exact IH].
Qed.

Lemma find_ext {A} (f g : A -> bool) (l : list A) :
  (forall x, f x = g x) -> List.find f l = List.find g l.
Proof.
  intros Hfg. induction l as [|a l IH]; simpl; [reflexivity|]. by rewrite Hfg, IH.
Qed.

(** For a well-formed key, [find_existing] tests exactly the natural key. *)
Lemma find_existing_has_key s title cc ref :
  ref <> Some "" ->
  find_existing s title cc ref = List.find (has_key title cc ref) (project s).
Proof.
  intros Hwf. unfold find_existing, has_key.
  assert (Hr : or_None (default "" ref) = ref).
  { destruct ref as [v|]; simpl; [|reflexivity]. unfold or_None.
    case_bool_decide; [congruence|reflexivity]. }
  rewrite Hr. apply find_ext. intros p. f_equal.
  destruct ref; [reflexivity|]. apply bool_decide_ext. reflexivity.
Qed.

Lemma write_project_check_insert s r id now :
  payload_storable s r -> write_project_check s None (new_project id r now) = None.
Proof.
  intros (Hfk & Ht & Hn & Hu & Hd).
  unfold write_project_check, project_lengths_ok, project_fk_ok, unchanged_or.
  cbn [new_project Project.title Project.source_name Project.source_url
       Project.source_doc_ref Project.constituency_code].
  rewrite Ht, Hn, Hu, Hd. rewrite (bool_decide_eq_true_2 _ Hfk).
  rewrite !orb_true_r. reflexivity.
Qed.

Lemma write_project_check_update s r p :
  payload_storable s r -> write_project_check s (Some p) (set_payload p r) = None.
Proof.
  intros (Hfk & Ht & Hn & Hu & Hd).
  unfold write_project_check, project_lengths_ok, project_fk_ok, unchanged_or.
  cbn [set_payload Project.title Project.source_name Project.source_url
       Project.source_doc_ref Project.constituency_code].
  rewrite Ht, Hn, Hu, Hd. rewrite (bool_decide_eq_true_2 _ Hfk).
  rewrite !orb_true_r. reflexivity.
Qed.

Lemma payload_storable_with_project s l r :
  payload_storable (with_project s l) r <-> payload_storable s r.
Proof. reflexivity. Qed.

Lemma set_payload_new_project id r1 r2 now :
  set_payload (new_project id r1 now) r2 = new_project id r2 now.
Proof. reflexivity. Qed.

Lemma payload_of_new_project id r now : payload_of (new_project id r now) = r.
Proof. by destruct r. Qed.

Lemma has_key_new_project id r now :
  has_key (Payload.title r) (Payload.constituency_code r) (Payload.source_doc_ref r)
          (new_project id r now) = true.
Proof. unfold has_key. simpl. by rewrite !bool_decide_eq_true_2. Qed.

Lemma map_update_fresh (l : list Project.t) (n : Z) (f : Project.t -> Project.t) :
  (forall p, In p l -> Project.id p < n) ->
  map (fun p => if bool_decide (Project.id p = n) then f p else p) l = l.
Proof.
  intros Hlt. induction l as [|p l IH]; simpl; [reflexivity|].
  rewrite IH by (intros q Hq; apply Hlt; by right).
  rewrite bool_decide_eq_false_2; [reflexivity|].
  specialize (Hlt p (or_introl eq_refl)). lia.
Qed.

(** C6: two records with the same natural key, upserted one after the
    other into a store that has no row with that key, are reported Created
    then Updated and leave exactly one row with the key; its fields are
    those of the second record.  A record without source_doc_ref matches
    only rows whose source_doc_ref is null (with the same title and
    constituency code). *)
Theorem upsert_project_idempotent now1 now2 r1 r2 s :
  Payload.title r2 = Payload.title r1 ->
  Payload.constituency_code r2 = Payload.constituency_code r1 ->
  Payload.source_doc_ref r2 = Payload.source_doc_ref r1 ->
  Payload.source_doc_ref r1 <> Some "" ->
  payload_storable s r1 ->
  payload_storable s r2 ->
  find_existing s (Payload.title r1) (Payload.constituency_code r1)
                (Payload.source_doc_ref r1) = None ->
  (exists s1 s2 p,
      upsert_project now1 r1 s = Return (s1, Created)
      /\ upsert_project now2 r2 s1 = Return (s2, Updated)
      /\ List.filter (has_key (Payload.title r1) (Payload.constituency_code r1)
                              (Payload.source_doc_ref r1)) (project s2) = [p]
      /\ payload_of p = r2
      /\ project s2 = (project s ++ [p])%list)
  /\ (forall s' title constituency_code p,
        find_existing s' title constituency_code None = Some p ->
        Project.source_doc_ref p = None
        /\ Project.title p = title
        /\ Project.constituency_code p = constituency_code).
Proof.
  intros Ht Hc Hd Hwf Hst1 Hst2 Hnone. split.
  - set (n := next_id (map Project.id (project s))).
    exists (with_project s (project s ++ [new_project n r1 now1])),
           (with_project s (project s ++ [new_project n r2 now1])),
           (new_project n r2 now1).
    assert (Hfresh : forall q, In q (project s) -> Project.id q < n).
    { intros q Hq. apply next_id_fresh, in_map, Hq. }
    split; [|split; [|split; [|split]]].
    + unfold upsert_project. rewrite Hnone. unfold apply_payload. fold n.
      by rewrite (write_project_check_insert s r1 n now1 Hst1).
    + unfold upsert_project. rewrite Ht, Hc, Hd.
      rewrite find_existing_has_key by exact Hwf. simpl.
      rewrite find_existing_has_key in Hnone by exact Hwf.
      rewrite (find_snoc _ _ _ Hnone), has_key_new_project.
      unfold apply_payload.
      rewrite (write_project_check_update _ r2 (new_project n r1 now1));
        [|by apply payload_storable_with_project].
      simpl. rewrite map_app. simpl.
      rewrite (map_update_fresh (project s) n (fun p => set_payload p r2) Hfresh).
      rewrite bool_decide_eq_true_2 by reflexivity.
      reflexivity.
    + simpl. rewrite List.filter_app.
      rewrite find_existing_has_key in Hnone by exact Hwf.
      rewrite (find_filter_nil _ _ Hnone). simpl.
      rewrite <- Ht, <- Hc, <- Hd. by rewrite has_key_new_project.
    + apply payload_of_new_project.
    + reflexivity.
  - intros s' title cc p Hf. unfold find_existing in Hf.
    apply find_some in Hf as [_ Hf]. simpl in Hf.
    apply andb_prop in Hf as [Hf H3]. apply andb_prop in Hf as [H1 H2].
    apply bool_decide_eq_true in H1, H2, H3. auto.
Qed.

Lemma upsert_project_idempotent_witness :
  exists s1 s2 p,
    upsert_project 3000 borehole_b_payload sample_store = Return (s1, Created)
    /\ upsert_project 3001 borehole_b_payload_v2 s1 = Return (s2, Updated)
    /\ List.filter (has_key "Borehole B" "001" None) (project s2) = [p]
    /\ payload_of p = borehole_b_payload_v2.
Proof.
  destruct (upsert_project_idempotent 3000 3001 borehole_b_payload borehole_b_payload_v2
              sample_store) as [(s1 & s2 & p & H1 & H2 & H3 & H4 & _) _];
    try reflexivity.
  - discriminate.
  - repeat split; eauto.
  - repeat split; eauto.
  - exists s1, s2, p. repeat split; assumption.
Defined.

(** The key must be well formed: the import never builds the reference
    [Some ""], which [find_existing] reads as null while the row stored
    keeps the empty text, so that a second upsert would add a second row. *)
Example upsert_project_empty_reference :
  (fun res : Store * Upserted => length (project res.1))
    <$> (match upsert_project 3000
                 (Payload.mk "Borehole B" None Water Planned (SpecFloat.S754_zero false)
                             None None "001" None None false None None (Some ""))
                 sample_store with
         | Return (s1, _) =>
             match upsert_project 3001
                     (Payload.mk "Borehole B" None Water Planned
                                 (SpecFloat.S754_zero false)
                                 None None "001" None None false None None (Some ""))
                     s1 with
             | Return res => Some res
             | Raise _ => None
             end
         | Raise _ => None
         end)
  = Some 3%nat.
Proof. reflexivity. Qed.

(** A null source_doc_ref is no wildcard: a row with the same title and
    constituency but a document reference is not matched. *)
Example find_existing_null_is_not_wildcard :
  find_existing
    (with_project sample_store
       [new_project 42 (Payload.mk "Borehole A" None Water Planned
                          (SpecFloat.S754_zero false) None None "001" None None false
                          None None (Some "DOC-1")) 1000])
    "Borehole A" "001" None
  = None.
Proof. reflexivity. Qed.

End NaturalKeyUpsert.

(** * Properties of the bulk import *)

Section BulkImport.

Variable py_float : string -> option float.
Variable strptime : string -> string -> option datetime.

Implicit Types (s : Store) (row : gmap string string) (st : ImportState).

Lemma raises_Return {A} (a : A) : ~ raises (Return a).
Proof. intros [e He]. discriminate. Qed.

Lemma raises_Raise {A} (e : Error) : raises (@Raise A e).
Proof. by exists e. Qed.

Lemma raises_bind {A B} (m : outcome A) (k : A -> outcome B) :
  raises m -> raises (bind m k).
Proof. intros [e ->]. apply raises_Raise. Qed.

(** A conversion that raises makes the construction of the payload raise:
    the payload is built in one expression, no conversion is guarded. *)
Lemma build_payload_invalid row title cc ref :
  invalid_fields py_float strptime row ->
  raises (build_payload py_float strptime row title cc ref).
Proof.
  unfold invalid_fields, build_payload. intros H.
  destruct (normalize_category _) as [cat|e]; [|apply raises_Raise].
  destruct H as [H|H]; [by apply raises_Return in H|]. simpl.
  destruct (normalize_status _) as [st|e]; [|apply raises_Raise].
  destruct H as [H|H]; [by apply raises_Return in H|]. simpl.
  destruct (budget_of _ _) as [b|e]; [|apply raises_Raise].
  destruct H as [H|H]; [by apply raises_Return in H|]. simpl.
  destruct (as_float _ (get_or row "spent" "")) as [sp|e]; [|apply raises_Raise].
  destruct H as [H|H]; [by apply raises_Return in H|]. simpl.
  destruct (as_float _ (get_or row "progress" "")) as [pr|e]; [|apply raises_Raise].
  destruct H as [H|H]; [by apply raises_Return in H|]. simpl.
  destruct (parse_date _ (get_or row "start_date" "")) as [sd|e]; [|apply raises_Raise].
  destruct H as [H|H]; [by apply raises_Return in H|]. simpl.
  destruct (parse_date _ (get_or row "completion_date" "")) as [cd|e]; [|apply raises_Raise].
  by apply raises_Return in H.
Qed.

(** Each kind of invalid field is rejected by its conversion. *)
Lemma normalize_category_invalid value :
  ~ In (strip value) (map ProjectCategory_value
                        [Education; Health; Water; Infrastructure; Security;
                         Environment; Other]) ->
  normalize_category value = Raise (ValueError (strip value)).
Proof.
  unfold normalize_category. simpl. intros Hn.
  repeat case_bool_decide; try reflexivity; exfalso; apply Hn; auto 10.
Qed.

Lemma normalize_status_invalid value :
  ~ In (strip value) (map ProjectStatus_value [Planned; Ongoing; Completed; Flagged]) ->
  normalize_status value = Raise (ValueError (strip value)).
Proof.
  unfold normalize_status. simpl. intros Hn.
  repeat case_bool_decide; try reflexivity; exfalso; apply Hn; auto 10.
Qed.

Lemma parse_date_invalid value :
  strip value <> "" -> strptime (strip value) "%Y-%m-%d" = None ->
  parse_date strptime value = Raise (ValueError (strip value)).
Proof.
  unfold parse_date. intros Hne Hp. rewrite bool_decide_eq_false_2 by exact Hne.
  by rewrite Hp.
Qed.

Lemma budget_of_invalid row v :
  row !! "budget" = Some v -> v <> "" -> py_float v = None ->
  budget_of py_float row = Raise (ValueError v).
Proof.
  unfold budget_of, get_or, or_None. intros -> Hne Hp.
  rewrite (bool_decide_eq_false_2 (v = "") Hne).
  rewrite (bool_decide_eq_false_2 (v = "") Hne). by rewrite Hp.
Qed.

Lemma import_row_invalid now row st :
  has_natural_key row -> invalid_fields py_float strptime row ->
  raises (import_row py_float strptime now row st).
Proof.
  intros [Ht Hc] Hinv. unfold import_row. destruct st as [s [created updated]].
  rewrite !bool_decide_eq_false_2 by assumption. simpl.
  apply raises_bind, build_payload_invalid, Hinv.
Qed.

Lemma or_None_wf (v : string) : or_None v <> Some "".
Proof. unfold or_None. case_bool_decide; congruence. Qed.

(** The key of a payload built from a row is the key the row was looked
    up with, and its source_doc_ref is never the empty string. *)
Lemma build_payload_key row title cc ref r :
  build_payload py_float strptime row title cc ref = Return r ->
  Payload.title r = title /\ Payload.constituency_code r = cc
  /\ Payload.source_doc_ref r = ref.
Proof.
  unfold build_payload.
  destruct (normalize_category _); [|discriminate]. simpl.
  destruct (normalize_status _); [|discriminate]. simpl.
  destruct (budget_of _ _); [|discriminate]. simpl.
  destruct (as_float _ (get_or row "spent" "")); [|discriminate]. simpl.
  destruct (as_float _ (get_or row "progress" "")); [|discriminate]. simpl.
  destruct (parse_date _ (get_or row "start_date" "")); [|discriminate]. simpl.
  destruct (parse_date _ (get_or row "completion_date" "")); [|discriminate]. simpl.
  intros [= <-]. auto.
Qed.

(** The body of the loop is the upsert of the payload of the row. *)
Lemma import_row_upsert now row s created updated r :
  has_natural_key row ->
  build_payload py_float strptime row (row_title row) (row_constituency_code row)
                (row_source_doc_ref row) = Return r ->
  import_row py_float strptime now row (s, (created, updated))
  = (let* res := upsert_project now r s in
     match res.2 with
     | Updated => Return (res.1, (created, updated + 1))
     | Created => Return (res.1, (created + 1, updated))
     end).
Proof.
  intros [Ht Hc] Hb. unfold import_row, upsert_project.
  rewrite !bool_decide_eq_false_2 by assumption. simpl.
  destruct (build_payload_key _ _ _ _ _ Hb) as (-> & -> & ->).
  rewrite Hb. reflexivity.
Qed.

(** A row without title or constituency code is skipped and the loop goes
    on: the one rejection the import isolates. *)
Lemma import_row_skips now row st :
  row_title row = "" \/ row_constituency_code row = "" ->
  import_row py_float strptime now row st = Return st.
Proof.
  intros H. unfold import_row. destruct st as [s [created updated]].
  destruct H as [-> | ->]; [reflexivity|].
  by rewrite orb_true_r.
Qed.

Lemma import_rows_abort now before bad after st :
  has_natural_key bad -> invalid_fields py_float strptime bad ->
  raises (import_rows py_float strptime now (before ++ bad :: after) st).
Proof.
  intros Hk Hinv. revert st. induction before as [|row before IH]; intros st; simpl.
  - apply raises_bind, import_row_invalid; assumption.
  - destruct (import_row _ _ now row st) as [st'|e]; simpl; [apply IH|apply raises_Raise].
Qed.

(** The loop over two files in a row is the loop over the first, then
    over the second from the state the first leaves. *)
Lemma import_rows_app now rows1 rows2 st :
  import_rows py_float strptime now (rows1 ++ rows2) st
  = bind (import_rows py_float strptime now rows1 st)
         (import_rows py_float strptime now rows2).
Proof.
  revert st. induction rows1 as [|row rows1 IH]; intros st; simpl; [reflexivity|].
  destruct (import_row _ _ now row st) as [st'|e]; simpl; [apply IH|reflexivity].
Qed.

(** The conversions raise nothing but [ValueError]. *)
Lemma normalize_category_error value e :
  normalize_category value = Raise e -> e = ValueError (strip value).
Proof. unfold normalize_category. repeat case_bool_decide; congruence. Qed.

Lemma normalize_status_error value e :
  normalize_status value = Raise e -> e = ValueError (strip value).
Proof. unfold normalize_status. repeat case_bool_decide; congruence. Qed.

Lemma as_float_error value e :
  as_float py_float value = Raise e -> e = ValueError (strip value).
Proof.
  unfold as_float. case_bool_decide; [discriminate|].
  destruct (py_float _); congruence.
Qed.

Lemma parse_date_error value e :
  parse_date strptime value = Raise e -> e = ValueError (strip value).
Proof.
  unfold parse_date. case_bool_decide; [discriminate|].
  destruct (strptime _ _); congruence.
Qed.

Lemma budget_of_error row e :
  budget_of py_float row = Raise e -> exists value, e = ValueError value.
Proof.
  unfold budget_of. destruct (or_None _) as [v|]; [|discriminate].
  destruct (py_float v); [discriminate|]. intros [= <-]. by exists v.
Qed.

Lemma head_In {A} (l : list A) (x : A) : head l = Some x -> In x l.
Proof. destruct l as [|y l]; simpl; [discriminate|]. intros [= ->]. by left. Qed.

Lemma error_of_In {A} (m : outcome A) e : In e (error_of m) -> m = Raise e.
Proof. destruct m as [a|e']; simpl; [tauto|]. intros [->|[]]. reflexivity. Qed.

Lemma conversion_errors_ValueError row e :
  In e (conversion_errors py_float strptime row) -> exists value, e = ValueError value.
Proof.
  unfold conversion_errors. rewrite !in_app_iff.
  intros [H|[H|[H|[H|[H|[H|H]]]]]]; apply error_of_In in H.
  - eexists. eapply normalize_category_error, H.
  - eexists. eapply normalize_status_error, H.
  - eapply budget_of_error, H.
  - eexists. eapply as_float_error, H.
  - eexists. eapply as_float_error, H.
  - eexists. eapply parse_date_error, H.
  - eexists. eapply parse_date_error, H.
Qed.

(** A row with an invalid field has a first conversion that fails. *)
Lemma invalid_fields_first_error row :
  invalid_fields py_float strptime row ->
  exists e, head (conversion_errors py_float strptime row) = Some e.
Proof.
  unfold conversion_errors. intros Hinv.
  assert (Hne : forall (l k : list Error),
             (exists e, head l = Some e) \/ (exists e, head k = Some e) ->
             exists e, head (l ++ k) = Some e).
  { intros [|x l] k [[e He]|He]; simpl in *; eauto; discriminate. }
  assert (Hr : forall A (m : outcome A), raises m -> exists e, head (error_of m) = Some e).
  { intros A m [e ->]. by exists e. }
  destruct Hinv as [H|[H|[H|[H|[H|[H|H]]]]]]; apply Hr in H.
  - apply Hne; left; exact H.
  - do 1 (apply Hne; right). apply Hne; left; exact H.
  - do 2 (apply Hne; right). apply Hne; left; exact H.
  - do 3 (apply Hne; right). apply Hne; left; exact H.
  - do 4 (apply Hne; right). apply Hne; left; exact H.
  - do 5 (apply Hne; right). apply Hne; left; exact H.
  - do 6 (apply Hne; right). exact H.
Qed.

(** The payload is built in the order of its keywords: the exception of
    the first conversion that fails is the exception of the construction. *)
Lemma build_payload_first_error row title cc ref e :
  head (conversion_errors py_float strptime row) = Some e ->
  build_payload py_float strptime row title cc ref = Raise e.
Proof.
  unfold conversion_errors, build_payload.
  destruct (normalize_category _) as [cat|e1]; simpl; [|congruence].
  destruct (normalize_status _) as [st|e2]; simpl; [|congruence].
  destruct (budget_of _ _) as [b|e3]; simpl; [|congruence].
  destruct (as_float _ (get_or row "spent" "")) as [sp|e4]; simpl; [|congruence].
  destruct (as_float _ (get_or row "progress" "")) as [pr|e5]; simpl; [|congruence].
  destruct (parse_date _ (get_or row "start_date" "")) as [sd|e6]; simpl; [|congruence].
  destruct (parse_date _ (get_or row "completion_date" "")) as [cd|e7]; simpl; congruence.
Qed.

(** The exception of the construction of the payload leaves the loop. *)
Lemma import_row_first_error now row st e :
  has_natural_key row ->
  head (conversion_errors py_float strptime row) = Some e ->
  import_row py_float strptime now row st = Raise e.
Proof.
  intros [Ht Hc] He. unfold import_row. destruct st as [s [created updated]].
  rewrite !bool_decide_eq_false_2 by assumption. simpl.
  by rewrite (build_payload_first_error _ _ _ _ _ He).
Qed.

(** A skipped row is as good as absent from the file. *)
Lemma import_rows_skip now before row after st :
  row_title row = "" \/ row_constituency_code row = "" ->
  import_rows py_float strptime now (before ++ row :: after) st
  = import_rows py_float strptime now (before ++ after) st.
Proof.
  intros Hskip. rewrite !import_rows_app.
  destruct (import_rows _ _ now before st) as [st'|e]; simpl; [|reflexivity].
  by rewrite (import_row_skips now row st' Hskip).
Qed.

(** A row that has its natural key and is processed without exception is
    counted, as created or as updated. *)
Lemma import_row_counted now row s c u s' c' u' :
  has_natural_key row ->
  import_row py_float strptime now row (s, (c, u)) = Return (s', (c', u')) ->
  (c', u') = (c + 1, u) \/ (c', u') = (c, u + 1).
Proof.
  intros [Ht Hc]. unfold import_row.
  rewrite !bool_decide_eq_false_2 by assumption. simpl.
  destruct (build_payload _ _ _ _ _ _) as [r|e]; [|discriminate]. simpl.
  destruct (apply_payload _ _ _ _) as [[s1 []]|e]; [| |discriminate]; simpl.
  - intros [= _ <- <-]. by left.
  - intros [= _ <- <-]. by right.
Qed.

(** C5, as the code has it: a record that has its natural key and a field
    that fails validation is not isolated.  Wherever it stands in the
    batch, the import ends in one exception whatever the rows after the
    record are (they are not processed), the commit is not reached and the
    store is left as it was before the import.  When the rows before the
    record are processed without exception, that exception is the
    ValueError of the first conversion of the record that fails, in the
    order in which the payload is built.  Only a row without title or
    without constituency code is skipped with the import continuing: the
    import gives what it gives for the file without that row, while a row
    that has both and is processed without exception is always counted as
    created or as updated. *)
Theorem import_csv_aborts_on_invalid_row now before bad s :
  has_natural_key bad ->
  invalid_fields py_float strptime bad ->
  (exists e,
     (forall after,
        import_csv py_float strptime now (before ++ bad :: after) s = (s, Raise e))
     /\ (forall st,
           import_rows py_float strptime now before (s, (0, 0)) = Return st ->
           head (conversion_errors py_float strptime bad) = Some e
           /\ exists value, e = ValueError value))
  /\ (forall skipped before' after' s',
        row_title skipped = "" \/ row_constituency_code skipped = "" ->
        import_csv py_float strptime now (before' ++ skipped :: after') s'
        = import_csv py_float strptime now (before' ++ after') s')
  /\ (forall row s0 c u s1 c1 u1,
        has_natural_key row ->
        import_row py_float strptime now row (s0, (c, u)) = Return (s1, (c1, u1)) ->
        (c1, u1) = (c + 1, u) \/ (c1, u1) = (c, u + 1)).
Proof.
  intros Hk Hinv. split; [|split].
  - destruct (invalid_fields_first_error bad Hinv) as [e0 He0].
    destruct (import_rows py_float strptime now before (s, (0, 0))) as [st0|e1] eqn:Eb.
    + exists e0. split.
      * intros after. unfold import_csv. rewrite import_rows_app, Eb. simpl.
        by rewrite (import_row_first_error now bad st0 e0 Hk He0).
      * intros st _. split; [exact He0|].
        apply (conversion_errors_ValueError bad), head_In, He0.
    + exists e1. split.
      * intros after. unfold import_csv. by rewrite import_rows_app, Eb.
      * intros st Hst. discriminate Hst.
  - intros skipped before' after' s' Hskip. unfold import_csv.
    by rewrite (import_rows_skip now before' skipped after' _ Hskip).
  - intros row s0 c u s1 c1 u1. apply import_row_counted.
Qed.

End BulkImport.

Lemma import_csv_aborts_on_invalid_row_witness :
  (forall after,
     import_csv unused_float unused_strptime 3000
                ([borehole_b_row] ++ feeder_road_row :: after) sample_store
     = (sample_store, Raise (ValueError "Roads")))
  /\ import_csv unused_float unused_strptime 3000
                ([borehole_b_row] ++ feeder_road_row :: [borehole_b_row_v2]) sample_store
     = (sample_store, Raise (ValueError "Roads")).
Proof.
  destruct (import_csv_aborts_on_invalid_row unused_float unused_strptime 3000
              [borehole_b_row] feeder_road_row sample_store) as [(e & Ha & He) _].
  - split; vm_compute; discriminate.
  - left. exists (ValueError "Roads"). reflexivity.
  - destruct (He _ eq_refl) as [Hh _].
    assert (e = ValueError "Roads") as -> by (vm_compute in Hh; congruence).
    split; [exact Ha|apply Ha].
Defined.

(** C5, as stated, fails: the row "Feeder Road" has the category "Roads",
    which is no member of the enumeration; the row "Borehole B" after it
    is valid and is created when imported alone, but in the batch it is
    never reached: the import ends in the ValueError and the store holds
    no "Borehole B". *)
Lemma import_csv_failure_isolation_counterexample :
  normalize_category (get_or feeder_road_row "category" "Other")
    = Raise (ValueError "Roads")
  /\ (import_csv unused_float unused_strptime 3000 [borehole_b_row] sample_store).2
     = Return (1, 0)
  /\ find_existing
       (import_csv unused_float unused_strptime 3000 [borehole_b_row] sample_store).1
       "Borehole B" "001" None
     = Some (new_project 43 borehole_b_payload 3000)
  /\ import_csv unused_float unused_strptime 3000 [feeder_road_row; borehole_b_row]
                sample_store
     = (sample_store, Raise (ValueError "Roads"))
  /\ find_existing
       (import_csv unused_float unused_strptime 3000 [feeder_road_row; borehole_b_row]
                   sample_store).1
       "Borehole B" "001" None
     = None.
Proof. repeat split; reflexivity. Qed.

(** Two rows with the same natural key in one file: one created, one
    updated, one row stored. *)
Example import_csv_same_key_twice :
  (import_csv unused_float unused_strptime 3000 [borehole_b_row; borehole_b_row_v2]
              sample_store).2
  = Return (1, 1)
  /\ project (import_csv unused_float unused_strptime 3000
                         [borehole_b_row; borehole_b_row_v2] sample_store).1
     = [borehole_a; new_project 43 borehole_b_payload_v2 3000].
Proof. split; reflexivity. Qed.

(** * Properties of the access guard *)

Section AccessGuardProperties.

Variable jwt_encode : string -> datetime -> string.
Variable jwt_decode : datetime -> string -> option (option string).
Variable argon2_verify : string -> string -> bool.
Variable ACCESS_TOKEN_EXPIRE_MINUTES : Z.

Implicit Types (s : Store) (now : datetime) (token username : string).

Lemma get_current_user_active now token s u :
  get_current_user jwt_decode now token s = Return u -> User.status u <> disabled.
Proof.
  unfold get_current_user.
  destruct (jwt_decode now token) as [sub|]; [|discriminate].
  destruct (or_None _) as [username|]; [|discriminate].
  destruct (select_user s username) as [usr|]; [|discriminate].
  case_bool_decide; [discriminate|]. congruence.
Qed.

Lemma get_current_user_disabled now token s username (usr : User.t) :
  jwt_decode now token = Some (Some username) ->
  username <> "" ->
  select_user s username = Some usr ->
  User.status usr = disabled ->
  get_current_user jwt_decode now token s = Raise (HTTPException 403 "Account disabled").
Proof.
  intros Hd Hne Hu Hst.
  unfold get_current_user. rewrite Hd. simpl. unfold or_None.
  rewrite bool_decide_eq_false_2 by exact Hne. rewrite Hu.
  by rewrite bool_decide_eq_true_2.
Qed.

(** C9: whatever the token, a principal whose status is disabled is not
    let through: when the token decodes to the username of a disabled
    user, [get_current_user] raises 403 "Account disabled", and so do the
    guarded handlers [me] and [require_admin]; and no token at all makes
    [get_current_user] return a disabled user. *)
Theorem disabled_principal_forbidden now token s username (usr : User.t) :
  jwt_decode now token = Some (Some username) ->
  username <> "" ->
  select_user s username = Some usr ->
  User.status usr = disabled ->
  get_current_user jwt_decode now token s = Raise (HTTPException 403 "Account disabled")
  /\ me jwt_decode now token s = Raise (HTTPException 403 "Account disabled")
  /\ require_admin jwt_decode now token s = Raise (HTTPException 403 "Account disabled")
  /\ (forall token' u, get_current_user jwt_decode now token' s = Return u ->
                       User.status u <> disabled).
Proof.
  intros Hd Hne Hu Hst.
  pose proof (get_current_user_disabled now token s username usr Hd Hne Hu Hst) as Hg.
  split; [exact Hg|]. unfold me, require_admin. rewrite Hg. simpl.
  split; [reflexivity|]. split; [reflexivity|].
  intros token' u. apply get_current_user_active.
Qed.

(** [login] does not look at the status, so a disabled account does get a
    token for the right password; the update of last_login leaves the
    username and the status of every user as they were. *)
Lemma select_user_after_login s now (usr : User.t) username :
  List.find (fun u => bool_decide (User.username u = username))
            (map (fun u => if bool_decide (User.id u = User.id usr)
                           then set_last_login u now else u) (user s))
  = (fun u => if bool_decide (User.id u = User.id usr) then set_last_login u now else u)
    <$> select_user s username.
Proof.
  unfold select_user. induction (user s) as [|u l IH]; [reflexivity|]. simpl.
  destruct (bool_decide (User.id u = User.id usr)) eqn:Ei; simpl;
    destruct (bool_decide (User.username u = username)); simpl;
    rewrite ?Ei; auto.
Qed.

Lemma login_disabled_then_forbidden now now' username password s (usr : User.t) :
  (forall sub exp, now' < exp -> jwt_decode now' (jwt_encode sub exp) = Some (Some sub)) ->
  now' < now + ACCESS_TOKEN_EXPIRE_MINUTES * 60000000 ->
  username <> "" ->
  select_user s username = Some usr ->
  argon2_verify (User.password_hash usr) password = true ->
  User.status usr = disabled ->
  exists token s',
    login jwt_encode argon2_verify ACCESS_TOKEN_EXPIRE_MINUTES now username password s
    = (s', Return (token, "bearer"))
    /\ me jwt_decode now' token s' = Raise (HTTPException 403 "Account disabled").
Proof.
  intros Hrt Hexp Hne Hu Hpw Hst. unfold login. rewrite Hu, Hpw.
  eexists _, _. split; [reflexivity|].
  assert (Hn : User.username usr = username).
  { unfold select_user in Hu. apply find_some in Hu as [_ Hu].
    by apply bool_decide_eq_true in Hu. }
  unfold me. erewrite (get_current_user_disabled now' _ _ username); [reflexivity|..].
  - unfold create_access_token. rewrite Hn. by apply Hrt.
  - exact Hne.
  - unfold select_user at 1. simpl. rewrite select_user_after_login, Hu. simpl.
    rewrite bool_decide_eq_true_2 by reflexivity. reflexivity.
  - exact Hst.
Qed.

End AccessGuardProperties.

Lemma disabled_principal_forbidden_witness :
  get_current_user clear_decode 500 "wanjiru" user_store
    = Raise (HTTPException 403 "Account disabled")
  /\ me clear_decode 500 "wanjiru" user_store
     = Raise (HTTPException 403 "Account disabled").
Proof.
  destruct (disabled_principal_forbidden clear_decode 500 "wanjiru" user_store "wanjiru"
              wanjiru) as (H1 & H2 & _); try reflexivity.
  - discriminate.
  - split; assumption.
Defined.

Example login_disabled_account_issues_token :
  (login clear_encode clear_verify 1440 400 "wanjiru" "s3cret" user_store).2
  = Return ("wanjiru", "bearer").
Proof. reflexivity. Qed.

Example login_wrong_password :
  login clear_encode clear_verify 1440 400 "wanjiru" "guess" user_store
  = (user_store, Raise (HTTPException 401 "Incorrect username or password")).
Proof. reflexivity. Qed.

Example me_active_account :
  Me.username <$> (match me clear_decode 500 "otieno" user_store with
                   | Return m => Some m
                   | Raise _ => None
                   end)
  = Some "otieno".
Proof. reflexivity. Qed.

(** * Further properties of the award binder *)

Section AwardBinderMore.

Implicit Types (s : Store) (now : datetime) (a : ProcurementAward.t).

Lemma NoDup_map_inj_in {A B} (f : A -> B) (l : list A) (x y : A) :
  NoDup (map f l) -> In x l -> In y l -> f x = f y -> x = y.
Proof.
  induction l as [|z l IH]; simpl; [tauto|].
  intros Hnd Hx Hy Hf. apply NoDup_cons in Hnd as [Hz Hnd].
  destruct Hx as [->|Hx], Hy as [->|Hy]; auto.
  - exfalso. apply Hz. rewrite Hf. apply list_elem_of_In, in_map, Hy.
  - exfalso. apply Hz. rewrite <- Hf. apply list_elem_of_In, in_map, Hx.
Qed.

Lemma with_procurementaward_id s : with_procurementaward s (procurementaward s) = s.
Proof. by destruct s. Qed.

Lemma find_app_l {A} (f : A -> bool) (l l' : list A) (x : A) :
  List.find f l = Some x -> List.find f (l ++ l') = Some x.
Proof.
  induction l as [|y l IH]; simpl; [discriminate|]. destruct (f y); auto.
Qed.

(** The outcome of the insert when nothing stands in its way. *)
Lemma create_award_insert_ok now payload s :
  create_lengths_ok payload = true ->
  is_Some (session_get_project s (ProcurementAwardCreate.project_id payload)) ->
  is_Some (session_get_contractor s (ProcurementAwardCreate.contractor_id payload)) ->
  create_award_insert now payload s
  = (with_procurementaward s
       (procurementaward s
        ++ [award_of_payload (next_id (map ProcurementAward.id (procurementaward s)))
                             payload now]),
     Return (award_of_payload (next_id (map ProcurementAward.id (procurementaward s)))
                              payload now)).
Proof.
  intros Hl Hp Hk. unfold create_award_insert, insert_award_check.
  fold (award_of_payload (next_id (map ProcurementAward.id (procurementaward s)))
                         payload now).
  unfold award_lengths_ok, award_project_fk_ok, award_contractor_ok.
  cbn [award_of_payload ProcurementAward.tender_id ProcurementAward.procurement_method
       ProcurementAward.performance_flag_reason ProcurementAward.project_id
       ProcurementAward.contractor_id].
  unfold create_lengths_ok in Hl. rewrite Hl.
  rewrite (bool_decide_eq_true_2 _ Hp), (bool_decide_eq_true_2 _ Hk). reflexivity.
Qed.

Lemma create_award_precheck_None payload s :
  award_of_project s (ProcurementAwardCreate.project_id payload) = None ->
  create_award_precheck payload s = None.
Proof. unfold award_of_project, create_award_precheck. by intros ->. Qed.

Lemma session_get_award_fresh s a rows :
  (forall b, In b (procurementaward s) -> ProcurementAward.id b <> ProcurementAward.id a) ->
  session_get_award (with_procurementaward s (procurementaward s ++ a :: rows))
                    (ProcurementAward.id a)
  = Some a.
Proof.
  intros Hfresh. unfold session_get_award. simpl.
  induction (procurementaward s) as [|b l IH]; simpl.
  - by rewrite bool_decide_eq_true_2.
  - rewrite bool_decide_eq_false_2 by (apply Hfresh; by left).
    apply IH. intros c Hc. apply Hfresh. by right.
Qed.

(** X1: when the project has no award yet, project and contractor are
    stored and the texts fit their columns, [create_award] appends one row
    built from the payload under a key no award has, returns it, and the
    row is then found by its key, as the award of its project and with its
    contractor. *)
Theorem create_award_stores now payload s :
  award_of_project s (ProcurementAwardCreate.project_id payload) = None ->
  is_Some (session_get_project s (ProcurementAwardCreate.project_id payload)) ->
  is_Some (session_get_contractor s (ProcurementAwardCreate.contractor_id payload)) ->
  create_lengths_ok payload = true ->
  exists id,
    let award := award_of_payload id payload now in
    let s' := with_procurementaward s (procurementaward s ++ [award]) in
    create_award now payload s = (s', Return award)
    /\ (forall b, In b (procurementaward s) -> ProcurementAward.id b < id)
    /\ session_get_award s' id = Some award
    /\ award_of_project s' (ProcurementAwardCreate.project_id payload) = Some award
    /\ contractor_of_award s' award
       = session_get_contractor s (ProcurementAwardCreate.contractor_id payload).
Proof.
  intros Hnone Hp Hk Hl.
  exists (next_id (map ProcurementAward.id (procurementaward s))). simpl.
  assert (Hfresh : forall b, In b (procurementaward s) ->
            ProcurementAward.id b < next_id (map ProcurementAward.id (procurementaward s))).
  { intros b Hb. apply next_id_fresh, in_map, Hb. }
  split; [|split; [exact Hfresh|split; [|split]]].
  - unfold create_award. rewrite (create_award_precheck_None _ _ Hnone).
    by apply create_award_insert_ok.
  - apply (session_get_award_fresh s (award_of_payload _ payload now) []).
    intros b Hb. simpl. specialize (Hfresh b Hb). lia.
  - unfold award_of_project in *. simpl.
    rewrite (find_snoc _ _ _ Hnone). simpl. by rewrite bool_decide_eq_true_2.
  - unfold contractor_of_award, session_get_contractor. simpl.
    apply find_ext. intros c. apply bool_decide_ext. split; congruence.
Qed.

Lemma create_award_stores_witness :
  exists id,
    create_award 2000 (award_payload 42 7) sample_store
    = (with_procurementaward sample_store [award_of_payload id (award_payload 42 7) 2000],
       Return (award_of_payload id (award_payload 42 7) 2000)).
Proof.
  destruct (create_award_stores 2000 (award_payload 42 7) sample_store)
    as (id & H & _); try reflexivity.
  - by eexists.
  - by eexists.
  - exists id. exact H.
Defined.

(** *** [delete_award] *)

Lemma find_filter_negb {A} (f : A -> bool) (l : list A) :
  List.find f (List.filter (fun x => negb (f x)) l) = None.
Proof.
  induction l as [|x l IH]; simpl; [reflexivity|].
  destruct (f x) eqn:E; simpl; [exact IH|]. by rewrite E.
Qed.

Lemma find_filter_implied {A} (f g : A -> bool) (l : list A) :
  (forall x, f x = true -> g x = true) ->
  List.find f (List.filter g l) = List.find f l.
Proof.
  intros Hfg. induction l as [|x l IH]; simpl; [reflexivity|].
  destruct (g x) eqn:Eg; simpl.
  - destruct (f x); [reflexivity|exact IH].
  - destruct (f x) eqn:Ef; [|exact IH]. rewrite (Hfg x Ef) in Eg. discriminate.
Qed.

(** X2: [delete_award] with an unknown key raises 404 "Award not found"
    and leaves the store as it is; with a stored key it removes the award
    and nothing else: the key is no longer found, every other key finds
    the row it found before, and the other tables are untouched. *)
Theorem delete_award_removes award_id s :
  (session_get_award s award_id = None ->
   delete_award award_id s = (s, Raise (HTTPException 404 "Award not found")))
  /\ (forall a, session_get_award s award_id = Some a ->
        exists s',
          delete_award award_id s = (s', Return "Award deleted")
          /\ session_get_award s' award_id = None
          /\ (forall pk, pk <> award_id -> session_get_award s' pk = session_get_award s pk)
          /\ (forall b, In b (procurementaward s') <->
                        In b (procurementaward s) /\ ProcurementAward.id b <> award_id)
          /\ project s' = project s /\ contractor s' = contractor s
          /\ constituency s' = constituency s /\ user s' = user s).
Proof.
  unfold delete_award. split; [by intros ->|].
  intros a ->. eexists. split; [reflexivity|]. unfold session_get_award. simpl.
  split; [apply (find_filter_negb (fun a0 => bool_decide (ProcurementAward.id a0 = award_id)))|].
  split.
  - intros pk Hne. apply find_filter_implied. intros x Hx.
    apply bool_decide_eq_true in Hx. rewrite bool_decide_eq_false_2; [reflexivity|congruence].
  - split; [|tauto]. intros b. rewrite filter_In.
    rewrite negb_true_iff, bool_decide_eq_false. tauto.
Qed.

Lemma delete_award_removes_witness :
  exists s', delete_award 1 awarded_store = (s', Return "Award deleted")
             /\ session_get_award s' 1 = None.
Proof.
  destruct (delete_award_removes 1 awarded_store) as [_ H].
  destruct (H (sample_award 1 42 7) eq_refl) as (s' & H1 & H2 & _).
  exists s'. split; assumption.
Defined.

(** With at most one award per project, removing the award of a project
    leaves the project without award. *)
Lemma delete_award_frees s award_id a :
  one_award_per_project s ->
  session_get_award s award_id = Some a ->
  award_of_project (delete_award award_id s).1 (ProcurementAward.project_id a) = None.
Proof.
  unfold one_award_per_project, session_get_award, award_of_project, delete_award.
  intros Hnd Hget. unfold session_get_award. rewrite Hget. simpl.
  apply find_some in Hget as [Hin Hid]. apply bool_decide_eq_true in Hid.
  destruct (List.find _ (List.filter _ _)) as [b|] eqn:Eb; [exfalso|reflexivity].
  apply find_some in Eb as [Hb Hpb]. apply bool_decide_eq_true in Hpb.
  apply filter_In in Hb as [Hb Hne]. apply negb_true_iff, bool_decide_eq_false in Hne.
  apply Hne. rewrite <- Hid. f_equal.
  by apply (NoDup_map_inj_in ProcurementAward.project_id (procurementaward s)).
Qed.

(** X3: in a store with at most one award per project, once the award of
    a project is deleted a new award can be created for that project:
    [create_award] no longer answers 400 but stores the new award. *)
Theorem delete_then_create_award now award_id payload s a :
  one_award_per_project s ->
  session_get_award s award_id = Some a ->
  ProcurementAwardCreate.project_id payload = ProcurementAward.project_id a ->
  is_Some (session_get_project s (ProcurementAwardCreate.project_id payload)) ->
  is_Some (session_get_contractor s (ProcurementAwardCreate.contractor_id payload)) ->
  create_lengths_ok payload = true ->
  create_award now payload s
    = (s, Raise (HTTPException 400 "This project already has an award"))
  /\ exists s' award,
       create_award now payload (delete_award award_id s).1 = (s', Return award)
       /\ award_of_project s' (ProcurementAward.project_id a) = Some award
       /\ ProcurementAward.contractor_id award
          = Some (ProcurementAwardCreate.contractor_id payload).
Proof.
  intros Hone Hget Hpid Hp Hk Hl. split.
  - unfold create_award, create_award_precheck. rewrite Hpid.
    unfold session_get_award in Hget. apply find_some in Hget as [Hin _].
    destruct (find_first_some
                (fun a0 => bool_decide (ProcurementAward.project_id a0
                                        = ProcurementAward.project_id a))
                (procurementaward s) a Hin) as [y ->]; [|reflexivity].
    by apply bool_decide_eq_true.
  - pose proof (delete_award_frees s award_id a Hone Hget) as Hfree.
    rewrite <- Hpid in Hfree.
    set (s0 := (delete_award award_id s).1) in *.
    eexists _, _. unfold create_award.
    rewrite (create_award_precheck_None _ _ Hfree).
    split; [apply create_award_insert_ok; [exact Hl| |]|].
    + unfold s0, delete_award. destruct (session_get_award s award_id); exact Hp.
    + unfold s0, delete_award. destruct (session_get_award s award_id); exact Hk.
    + split; [|reflexivity]. rewrite <- Hpid. unfold award_of_project in *. simpl.
      rewrite (find_snoc _ _ _ Hfree). simpl. by rewrite bool_decide_eq_true_2.
Qed.

Lemma delete_then_create_award_witness :
  create_award 2000 (award_payload 42 9) awarded_store
    = (awarded_store, Raise (HTTPException 400 "This project already has an award"))
  /\ exists s' award,
       create_award 2000 (award_payload 42 9) (delete_award 1 awarded_store).1
       = (s', Return award)
       /\ award_of_project s' 42 = Some award
       /\ ProcurementAward.contractor_id award = Some 9.
Proof.
  apply (delete_then_create_award 2000 1 (award_payload 42 9) awarded_store
           (sample_award 1 42 7)); try reflexivity.
  - unfold one_award_per_project. simpl. apply NoDup_cons; split; [|apply NoDup_nil_2].
    apply not_elem_of_nil.
  - by eexists.
  - by eexists.
Defined.

(** *** [update_award]: edge cases *)

Lemma setattrs_empty a : setattrs a empty_update = a.
Proof. by destruct a. Qed.

Lemma updated_rows_empty award_id rows : updated_rows award_id empty_update rows = rows.
Proof.
  unfold updated_rows. induction rows as [|a rows IH]; simpl; [reflexivity|].
  rewrite IH, setattrs_empty. by destruct (bool_decide _).
Qed.

Lemma update_award_check_same s a : update_award_check s a a = None.
Proof.
  unfold update_award_check, unchanged_or.
  by rewrite !bool_decide_eq_true_2.
Qed.

(** X4: an update that sets no field succeeds on every stored award,
    returns the award as stored and leaves the store as it is. *)
Theorem update_award_empty award_id s a :
  session_get_award s award_id = Some a ->
  update_award award_id empty_update s = (s, Return a).
Proof.
  intros Hget. unfold update_award. rewrite Hget, setattrs_empty, update_award_check_same.
  by rewrite updated_rows_empty, with_procurementaward_id.
Qed.

Lemma update_award_empty_witness :
  update_award 1 empty_update awarded_store = (awarded_store, Return (sample_award 1 42 7)).
Proof. apply (update_award_empty 1 awarded_store (sample_award 1 42 7)). reflexivity. Defined.

Lemma update_award_success award_id payload s s' r a :
  session_get_award s award_id = Some a ->
  update_award award_id payload s = (s', Return r) ->
  update_award_check s a (setattrs a payload) = None
  /\ r = setattrs a payload
  /\ s' = with_procurementaward s (updated_rows award_id payload (procurementaward s)).
Proof.
  unfold update_award. intros ->.
  destruct (update_award_check s a (setattrs a payload)); [discriminate|].
  intros [= <- <-]. auto.
Qed.

Lemma update_award_check_contractor s a a' :
  update_award_check s a a' = None ->
  ProcurementAward.contractor_id a' = ProcurementAward.contractor_id a
  \/ award_contractor_ok s a' = true.
Proof.
  unfold update_award_check, unchanged_or.
  destruct (negb _); [discriminate|].
  destruct (bool_decide (ProcurementAward.contractor_id a = ProcurementAward.contractor_id a'))
    eqn:E; simpl.
  - apply bool_decide_eq_true in E. auto.
  - destruct (award_contractor_ok s a'); [auto|discriminate].
Qed.

(** X5: [update_award] succeeds only when the contractor of the award is
    left as it was or is set to a contractor that is stored; a request
    that sets contractor_id to null on an award that has a contractor is
    refused by the storage engine and changes nothing. *)
Theorem update_award_contractor_checked award_id payload s a :
  session_get_award s award_id = Some a ->
  (forall s' r, update_award award_id payload s = (s', Return r) ->
     ProcurementAward.contractor_id r = ProcurementAward.contractor_id a
     \/ exists c, ProcurementAward.contractor_id r = Some c
                  /\ is_Some (session_get_contractor s c))
  /\ (ProcurementAwardUpdate.contractor_id payload = Some None ->
      ProcurementAward.contractor_id a <> None ->
      exists e, update_award award_id payload s = (s, Raise e)
                /\ (e = DataError \/ e = IntegrityError)).
Proof.
  intros Hget. split.
  - intros s' r Hu. destruct (update_award_success _ _ _ _ _ _ Hget Hu) as (Hc & -> & _).
    apply update_award_check_contractor in Hc as [Hc|Hc]; [by left|right].
    unfold award_contractor_ok in Hc.
    destruct (ProcurementAward.contractor_id (setattrs a payload)) as [c|]; [|discriminate].
    exists c. split; [reflexivity|]. by apply bool_decide_eq_true in Hc.
  - intros Hnull Hsome. unfold update_award. rewrite Hget.
    unfold update_award_check.
    destruct (negb (_ && _ && _)); [exists DataError; auto|].
    unfold unchanged_or, award_contractor_ok.
    cbn [setattrs ProcurementAward.contractor_id]. rewrite Hnull. simpl.
    rewrite bool_decide_eq_false_2 by exact Hsome. simpl.
    exists IntegrityError. auto.
Qed.

Lemma update_award_contractor_checked_witness :
  exists e,
    update_award 1 (ProcurementAwardUpdate.mk (Some None) None None None None None None None)
                 awarded_store
    = (awarded_store, Raise e).
Proof.
  destruct (update_award_contractor_checked 1
              (ProcurementAwardUpdate.mk (Some None) None None None None None None None)
              awarded_store (sample_award 1 42 7) eq_refl) as [_ H].
  destruct (H eq_refl) as (e & He & _); [discriminate|].
  exists e. exact He.
Defined.

(** *** Consistency of the award table *)

Lemma insert_award_check_None s a :
  insert_award_check s a = None ->
  award_lengths_ok a = true
  /\ is_Some (session_get_project s (ProcurementAward.project_id a))
  /\ award_contractor_ok s a = true.
Proof.
  unfold insert_award_check, award_project_fk_ok.
  destruct (award_lengths_ok a); simpl; [|discriminate].
  destruct (bool_decide _) eqn:Ep; simpl; [|discriminate].
  destruct (award_contractor_ok s a); simpl; [|discriminate].
  apply bool_decide_eq_true in Ep. auto.
Qed.

Lemma update_award_check_lengths s a a' :
  award_lengths_ok a = true -> update_award_check s a a' = None ->
  award_lengths_ok a' = true.
Proof.
  unfold update_award_check, award_lengths_ok, unchanged_or. intros Hold.
  apply andb_prop in Hold as [Hold H3]. apply andb_prop in Hold as [H1 H2].
  repeat case_bool_decide; simpl;
    repeat match goal with H : _ = _ :> option string |- _ => rewrite <- H; clear H end;
    rewrite ?H1, ?H2, ?H3; simpl;
    repeat (destruct (varchar _ _); simpl; try discriminate); auto.
Qed.

Lemma award_contractor_ok_same s a a' :
  ProcurementAward.contractor_id a' = ProcurementAward.contractor_id a ->
  award_contractor_ok s a' = award_contractor_ok s a.
Proof. unfold award_contractor_ok. by intros ->. Qed.

Lemma updated_rows_ids award_id payload rows :
  map ProcurementAward.id (updated_rows award_id payload rows)
  = map ProcurementAward.id rows.
Proof.
  unfold updated_rows. rewrite map_map. apply map_ext. intros a.
  by destruct (bool_decide _).
Qed.

Lemma updated_rows_project_ids award_id payload rows :
  map ProcurementAward.project_id (updated_rows award_id payload rows)
  = map ProcurementAward.project_id rows.
Proof.
  unfold updated_rows. rewrite map_map. apply map_ext. intros a.
  by destruct (bool_decide _).
Qed.

Lemma create_award_table_ok now payload s :
  award_table_ok s -> award_table_ok (create_award now payload s).1.
Proof.
  intros Hok. pose proof (create_award_sequential_invariant now payload s) as Hone.
  destruct Hok as (Hid & Hp & Hrefs). specialize (Hone Hp).
  unfold create_award in *.
  destruct (create_award_precheck payload s); [exact (conj Hid (conj Hp Hrefs))|].
  unfold create_award_insert in *.
  destruct (insert_award_check s _) eqn:Ec; [exact (conj Hid (conj Hp Hrefs))|].
  apply insert_award_check_None in Ec as (Hl & Hpr & Hk).
  split; [|split; [exact Hone|]]; cbn [fst procurementaward with_procurementaward].
  - rewrite map_app. simpl. apply NoDup_app. split; [exact Hid|].
    split; [|apply NoDup_singleton].
    intros x Hx Hx'. apply list_elem_of_singleton in Hx'. subst x.
    apply list_elem_of_In, next_id_fresh in Hx. lia.
  - intros a Ha. apply in_app_or in Ha as [Ha|[<-|[]]]; [by apply Hrefs|].
    repeat split; assumption.
Qed.

Lemma update_award_table_ok award_id payload s :
  award_table_ok s -> award_table_ok (update_award award_id payload s).1.
Proof.
  intros Hok. destruct (session_get_award s award_id) as [a|] eqn:Hget.
  2:{ unfold update_award. by rewrite Hget. }
  destruct (update_award award_id payload s) as [s' [r|e]] eqn:Hu.
  2:{ unfold update_award in Hu. rewrite Hget in Hu.
      destruct (update_award_check _ _ _); [|discriminate]. by injection Hu as <- _. }
  destruct (update_award_success _ _ _ _ _ _ Hget Hu) as (Hc & -> & ->). simpl.
  destruct Hok as (Hid & Hp & Hrefs).
  unfold award_table_ok, one_award_per_project.
  cbn [fst procurementaward with_procurementaward].
  split; [|split].
  - by rewrite updated_rows_ids.
  - by rewrite updated_rows_project_ids.
  - intros b' Hb'. unfold updated_rows in Hb'. apply in_map_iff in Hb' as (b & <- & Hb).
    destruct (Hrefs b Hb) as (Hbp & Hbk & Hbl).
    case_bool_decide as Hidb; [|exact (conj Hbp (conj Hbk Hbl))].
    assert (b = a) as ->.
    { unfold session_get_award in Hget. apply find_some in Hget as [Ha Hida].
      apply bool_decide_eq_true in Hida.
      apply (NoDup_map_inj_in ProcurementAward.id (procurementaward s)); auto.
      congruence. }
    split; [exact Hbp|]. split.
    + change (award_contractor_ok s (setattrs a payload) = true).
      apply update_award_check_contractor in Hc as [Hc|Hc]; [|exact Hc].
      by rewrite (award_contractor_ok_same s a _ Hc).
    + by apply (update_award_check_lengths s a).
Qed.

Lemma delete_award_table_ok award_id s :
  award_table_ok s -> award_table_ok (delete_award award_id s).1.
Proof.
  intros Hok. pose proof (delete_award_sequential_invariant award_id s) as Hone.
  destruct Hok as (Hid & Hp & Hrefs). specialize (Hone Hp).
  unfold delete_award in *.
  destruct (session_get_award s award_id); [|exact (conj Hid (conj Hp Hrefs))].
  simpl in *. split; [|split; [exact Hone|]].
  - clear -Hid. induction (procurementaward s) as [|a l IH]; simpl in *; [exact Hid|].
    apply NoDup_cons in Hid as [Hn Hid]. destruct (negb _); [|auto]. simpl.
    apply NoDup_cons. split; [|auto].
    intros Hin. apply Hn. apply list_elem_of_In, in_map_iff in Hin as (b & Hb & Hin).
    apply filter_In in Hin as [Hin _]. apply list_elem_of_In, in_map_iff. eauto.
  - intros a Ha. apply filter_In in Ha as [Ha _]. by apply Hrefs.
Qed.

Lemma serve_award_other_tables s req :
  project (serve_award s req) = project s
  /\ contractor (serve_award s req) = contractor s
  /\ constituency (serve_award s req) = constituency s
  /\ user (serve_award s req) = user s.
Proof.
  destruct req as [now payload|award_id payload|award_id]; simpl.
  - unfold create_award. destruct (create_award_precheck _ _); [auto|].
    unfold create_award_insert. destruct (insert_award_check _ _); auto.
  - unfold update_award. destruct (session_get_award _ _); [|auto].
    destruct (update_award_check _ _ _); auto.
  - unfold delete_award. destruct (session_get_award _ _); auto.
Qed.

(** X6: whatever requests the award router serves one after the other,
    failed ones included, a store that satisfies the constraints of the
    award table keeps satisfying them: award keys stay distinct, no project
    gets a second award, every award keeps pointing at a stored project and
    a stored contractor and fits its columns; and the projects and
    contractors themselves are never written. *)
Theorem award_requests_keep_consistency (reqs : list AwardRequest) s :
  award_table_ok s ->
  award_table_ok (foldl serve_award s reqs)
  /\ project (foldl serve_award s reqs) = project s
  /\ contractor (foldl serve_award s reqs) = contractor s.
Proof.
  revert s. induction reqs as [|req reqs IH]; intros s Hok; simpl; [auto|].
  destruct (serve_award_other_tables s req) as (Hp & Hk & _).
  destruct (IH (serve_award s req)) as (H1 & H2 & H3).
  - destruct req; simpl; auto using create_award_table_ok, update_award_table_ok,
      delete_award_table_ok.
  - split; [exact H1|]. split; congruence.
Qed.

Lemma award_requests_keep_consistency_witness :
  award_table_ok
    (foldl serve_award sample_store
       [CreateAward 2000 (award_payload 42 7); CreateAward 2001 (award_payload 42 9);
        UpdateAward 1 tender_update; DeleteAward 5]).
Proof.
  apply (award_requests_keep_consistency
           [CreateAward 2000 (award_payload 42 7); CreateAward 2001 (award_payload 42 9);
            UpdateAward 1 tender_update; DeleteAward 5] sample_store).
  unfold award_table_ok, one_award_per_project. simpl.
  split; [apply NoDup_nil_2|]. split; [apply NoDup_nil_2|]. intros a [].
Defined.

(** *** From the award binder to the project view *)

(** X7: a project stored with its constituency and without award, and a
    stored contractor: once [create_award] has bound them, [read_project]
    shows the contractor's name and the tender, method, value and date of
    the payload. *)
Theorem create_award_then_read_project now payload s (p : Project.t) (c : Constituency.t)
    (k : Contractor.t) :
  session_get_project s (ProcurementAwardCreate.project_id payload) = Some p ->
  session_get_constituency s (Project.constituency_code p) = Some c ->
  session_get_contractor s (ProcurementAwardCreate.contractor_id payload) = Some k ->
  award_of_project s (ProcurementAwardCreate.project_id payload) = None ->
  create_lengths_ok payload = true ->
  exists s' award v,
    create_award now payload s = (s', Return award)
    /\ read_project (ProcurementAwardCreate.project_id payload) s' = Return v
    /\ ProjectReadWithConstituency.id v = ProcurementAwardCreate.project_id payload
    /\ ProjectReadWithConstituency.contractor_name v = Some (Contractor.name k)
    /\ ProjectReadWithConstituency.tender_id v = ProcurementAwardCreate.tender_id payload
    /\ ProjectReadWithConstituency.procurement_method v
       = ProcurementAwardCreate.procurement_method payload
    /\ ProjectReadWithConstituency.contract_value v
       = ProcurementAwardCreate.contract_value payload
    /\ ProjectReadWithConstituency.award_date v = ProcurementAwardCreate.award_date payload.
Proof.
  intros Hp Hc Hk Hnone Hl.
  assert (Hid : Project.id p = ProcurementAwardCreate.project_id payload).
  { unfold session_get_project in Hp. apply find_some in Hp as [_ Hp].
    by apply bool_decide_eq_true in Hp. }
  set (award := award_of_payload (next_id (map ProcurementAward.id (procurementaward s)))
                                 payload now).
  set (s' := with_procurementaward s (procurementaward s ++ [award])).
  assert (Ha : award_of_project s' (Project.id p) = Some award).
  { rewrite Hid. unfold award_of_project in *. simpl.
    rewrite (find_snoc _ _ _ Hnone). simpl. by rewrite bool_decide_eq_true_2. }
  assert (Hka : contractor_of_award s' award = Some k).
  { rewrite <- Hk. unfold contractor_of_award, session_get_contractor. simpl.
    apply find_ext. intros c0. apply bool_decide_ext. split; congruence. }
  exists s', award. eexists. split; [|split].
  - unfold create_award. rewrite (create_award_precheck_None _ _ Hnone).
    apply create_award_insert_ok; [exact Hl|by eexists|by eexists].
  - rewrite <- Hid. apply (read_project_row s' p c); [by rewrite Hid|exact Hc].
  - unfold first_join_award. rewrite Ha, Hka. simpl. repeat split. exact Hid.
Qed.

Lemma create_award_then_read_project_witness :
  exists s' award v,
    create_award 2000 (award_payload 42 7) sample_store = (s', Return award)
    /\ read_project 42 s' = Return v
    /\ ProjectReadWithConstituency.contractor_name v = Some "AquaDrill Services Ltd".
Proof.
  destruct (create_award_then_read_project 2000 (award_payload 42 7) sample_store
              borehole_a kajiado_north aquadrill)
    as (s' & award & v & H1 & H2 & _ & H3 & _); try reflexivity.
  exists s', award, v. auto.
Defined.

End AwardBinderMore.

(** * Further properties of the project view assembler *)

Section ViewAssemblerMore.

Implicit Types (s : Store) (p : Project.t) (r : JoinRow).

(** *** [read_project] *)

Lemma row_project_view_id r :
  ProjectReadWithConstituency.id (project_view r) = Project.id (row_project r).
Proof. by destruct r as [[[p c] a] k]. Qed.

Lemma joined_rows_project s r : In r (joined_rows s) -> In (row_project r) (project s).
Proof.
  unfold joined_rows. intros Hin. apply in_flat_map in Hin as (p & Hp & Hr).
  by rewrite (project_rows_project s p r Hr).
Qed.

Lemma join_contractor_sound s (a : ProcurementAward.t) (ok : option Contractor.t) :
  In ok (join_contractor s a) ->
  match ok with
  | Some k => In k (contractor s)
              /\ ProcurementAward.contractor_id a = Some (Contractor.id k)
  | None => contractor_of_award s a = None
  end.
Proof.
  unfold join_contractor, contractor_of_award.
  destruct (List.filter _ (contractor s)) as [|k0 ks] eqn:Ef.
  - intros [<-|[]]. destruct (List.find _ _) as [k|] eqn:Ek; [|reflexivity].
    apply find_filter_cons in Ek as [rest Hr]. congruence.
  - intros Hin. apply in_map_iff in Hin as (k & <- & Hk). rewrite <- Ef in Hk.
    apply filter_In in Hk as [Hk Hb]. apply bool_decide_eq_true in Hb. auto.
Qed.

Lemma joined_rows_sound s r : In r (joined_rows s) -> row_sound s r.
Proof.
  unfold joined_rows. intros Hin. apply in_flat_map in Hin as (p & Hp & Hr).
  unfold project_rows in Hr. apply in_flat_map in Hr as (c & Hc & Hr).
  apply filter_In in Hc as [Hc Hcode]. apply bool_decide_eq_true in Hcode.
  apply in_map_iff in Hr as ([oa ok] & <- & Hac). simpl.
  split; [exact Hp|]. split; [exact Hc|]. split; [auto|].
  unfold join_award in Hac. unfold award_of_project.
  destruct (List.filter _ (procurementaward s)) as [|a0 aws] eqn:Ef.
  - destruct Hac as [[= <- <-]|[]]. split; [|reflexivity].
    destruct (List.find _ _) as [a|] eqn:Ea; [|reflexivity].
    apply find_filter_cons in Ea as [rest Hrest]. congruence.
  - apply in_flat_map in Hac as (a & Ha & Hk). rewrite <- Ef in Ha.
    apply filter_In in Ha as [Ha Hpid]. apply bool_decide_eq_true in Hpid.
    apply in_map_iff in Hk as (ok' & [= <- <-] & Hk).
    split; [exact Ha|]. split; [exact Hpid|]. by apply join_contractor_sound.
Qed.

(** X8: [read_project] raises nothing but 404 "Project not found", and
    raises it for every key under which no project with a constituency row
    is stored, an unknown key first of all; a view it returns carries the
    requested key and is the view of stored rows that belong together. *)
Theorem read_project_not_found pk s :
  ((forall p, In p (project s) -> Project.id p = pk ->
              session_get_constituency s (Project.constituency_code p) = None) ->
   read_project pk s = Raise (HTTPException 404 "Project not found"))
  /\ (forall e, read_project pk s = Raise e -> e = HTTPException 404 "Project not found")
  /\ (forall v, read_project pk s = Return v ->
        ProjectReadWithConstituency.id v = pk
        /\ exists r, row_sound s r /\ v = project_view r).
Proof.
  unfold read_project. split; [|split].
  - intros Hnone. unfold joined_rows.
    assert (Hnil : List.filter (fun r => bool_decide (Project.id (row_project r) = pk))
                               (flat_map (project_rows s) (project s)) = []);
      [|by rewrite Hnil].
    induction (project s) as [|p l IH]; simpl; [reflexivity|].
    rewrite List.filter_app, filter_project_rows, IH
      by (intros q Hq; apply Hnone; by right).
    case_bool_decide as Hid; [|reflexivity].
    rewrite (project_rows_no_constituency s p); [reflexivity|].
    apply Hnone; [by left|exact Hid].
  - intros e. destruct (head _); [discriminate|congruence].
  - intros v. destruct (head _) as [r|] eqn:Eh; [|discriminate].
    intros [= <-]. rewrite head_filter_find in Eh. apply find_some in Eh as [Hin Hid].
    apply bool_decide_eq_true in Hid. rewrite row_project_view_id.
    split; [exact Hid|]. exists r. split; [by apply joined_rows_sound|reflexivity].
Qed.

Lemma read_project_not_found_witness :
  read_project 7 awarded_store = Raise (HTTPException 404 "Project not found").
Proof.
  apply (read_project_not_found 7 awarded_store).
  intros p [<-|[]]. discriminate.
Defined.

(** *** [read_projects] *)

Lemma In_take {A} (n : nat) (l : list A) (x : A) : In x (take n l) -> In x l.
Proof. intros H. rewrite <- (firstn_skipn n l). apply in_or_app. by left. Qed.

Lemma In_drop {A} (n : nat) (l : list A) (x : A) : In x (drop n l) -> In x l.
Proof. intros H. rewrite <- (firstn_skipn n l). apply in_or_app. by right. Qed.

(** The rows of a page are rows of the join that pass the filters. *)
Lemma page_rows cc cat st o offset limit s r :
  In r (take limit (drop offset (order_by o (List.filter (where_ cc cat st)
                                                (joined_rows s))))) ->
  In r (joined_rows s) /\ where_ cc cat st r = true.
Proof.
  intros Hin. apply In_take, In_drop in Hin.
  apply (Permutation_in _ (order_by_Permutation o _)) in Hin.
  by apply filter_In in Hin.
Qed.

Lemma read_projects_Return cc cat st sort offset limit s page :
  read_projects cc cat st sort offset limit s = Return page ->
  0 <= offset /\ 1 <= limit <= 100
  /\ page = map project_view
              (take (Z.to_nat limit)
                 (drop (Z.to_nat offset)
                    (order_by (sort_order sort)
                       (List.filter (where_ cc cat st) (joined_rows s))))).
Proof.
  unfold read_projects.
  destruct (0 <=? offset)%Z eqn:Eo; [|discriminate].
  destruct (1 <=? limit)%Z eqn:E1; [|discriminate].
  destruct (limit <=? 100)%Z eqn:E2; [|discriminate].
  simpl. intros [= <-]. apply Z.leb_le in Eo, E1, E2. auto.
Qed.

(** X9: a request with a negative offset or a limit outside 1..100 is
    rejected; any other request is answered with a page of at most [limit]
    views, hence at most 100, and with the empty page when the offset is
    at or past the number of rows that pass the filters. *)
Theorem read_projects_page_size cc cat st sort offset limit s :
  (offset < 0 \/ limit < 1 \/ 100 < limit ->
   read_projects cc cat st sort offset limit s = Raise RequestValidationError)
  /\ (0 <= offset -> 1 <= limit <= 100 ->
      exists page,
        read_projects cc cat st sort offset limit s = Return page
        /\ Z.of_nat (length page) <= limit
        /\ (Z.of_nat (length (List.filter (where_ cc cat st) (joined_rows s))) <= offset ->
            page = [])).
Proof.
  split.
  - intros H. unfold read_projects.
    destruct (0 <=? offset)%Z eqn:Eo; [|reflexivity].
    destruct (1 <=? limit)%Z eqn:E1; [|reflexivity].
    destruct (limit <=? 100)%Z eqn:E2; [|reflexivity].
    apply Z.leb_le in Eo, E1, E2. lia.
  - intros Ho Hl. eexists. split; [by apply read_projects_returns|].
    rewrite length_map, length_take. split; [lia|].
    intros Hlen. rewrite drop_ge; [by rewrite take_nil|].
    rewrite (Permutation_length (order_by_Permutation _ _)). lia.
Qed.

Lemma read_projects_page_size_witness :
  read_projects None None None "id_asc" 0 500 two_project_store
    = Raise RequestValidationError
  /\ exists page,
       read_projects None None None "id_asc" 2 100 two_project_store = Return page
       /\ page = [].
Proof.
  destruct (read_projects_page_size None None None "id_asc" 0 500 two_project_store)
    as [H1 _].
  destruct (read_projects_page_size None None None "id_asc" 2 100 two_project_store)
    as [_ H2].
  split; [apply H1; lia|].
  destruct H2 as (page & Hp & _ & He); [lia|lia|].
  exists page. split; [exact Hp|]. apply He. vm_compute. discriminate.
Defined.

Lemma where_view_passes cc cat st r :
  where_ cc cat st r = true -> view_passes cc cat st (project_view r).
Proof.
  destruct r as [[[p c] a] k]. unfold where_, view_passes, row_project. simpl. intros H.
  apply andb_prop in H as [H H3]. apply andb_prop in H as [H1 H2].
  split; [|split].
  - intros code Hcc Hne. subst cc. apply orb_prop in H1 as [H1|H1];
      apply bool_decide_eq_true in H1; [contradiction|exact H1].
  - intros c0 Hc. subst cat. apply bool_decide_eq_true in H2. simpl in H2. by rewrite H2.
  - intros st0 Hst. subst st. apply bool_decide_eq_true in H3. simpl in H3. by rewrite H3.
Qed.

(** X10: every view of a page passes every filter the request gives:
    the constituency code, the category and the status are applied
    together; and an empty constituency code filters nothing. *)
Theorem read_projects_filters cc cat st sort offset limit s page :
  read_projects cc cat st sort offset limit s = Return page ->
  (forall v, In v page -> view_passes cc cat st v)
  /\ read_projects (Some "") cat st sort offset limit s
     = read_projects None cat st sort offset limit s.
Proof.
  intros Hr. split.
  - apply read_projects_Return in Hr as (_ & _ & ->).
    intros v Hv. apply in_map_iff in Hv as (r & <- & Hin).
    apply page_rows in Hin as [_ Hw]. by apply where_view_passes.
  - reflexivity.
Qed.

Lemma read_projects_filters_witness :
  exists page,
    read_projects (Some "001") (Some Water) None "id_asc" 0 20 two_project_store
    = Return page
    /\ forall v, In v page -> view_passes (Some "001") (Some Water) None v.
Proof.
  eexists. split; [reflexivity|].
  apply (read_projects_filters (Some "001") (Some Water) None "id_asc" 0 20
           two_project_store).
  reflexivity.
Defined.

(** X11: every view of a page is built from rows that are stored and
    belong together: a project, the constituency whose code the project
    carries, and either no award at all, or an award of that project with
    the contractor it names, if that contractor is stored.  A project
    without constituency row is never listed. *)
Theorem read_projects_sound cc cat st sort offset limit s page :
  read_projects cc cat st sort offset limit s = Return page ->
  forall v, In v page -> exists r, row_sound s r /\ v = project_view r.
Proof.
  intros Hr v Hv. apply read_projects_Return in Hr as (_ & _ & ->).
  apply in_map_iff in Hv as (r & <- & Hin). apply page_rows in Hin as [Hin _].
  exists r. split; [by apply joined_rows_sound|reflexivity].
Qed.

Lemma read_projects_sound_witness :
  exists page,
    read_projects None None None "title_desc" 0 20 two_project_store = Return page
    /\ forall v, In v page -> exists r, row_sound two_project_store r /\ v = project_view r.
Proof.
  eexists. split; [reflexivity|].
  apply (read_projects_sound None None None "title_desc" 0 20 two_project_store).
  reflexivity.
Defined.

Lemma take_app_drop {A} (n m : nat) (l : list A) :
  (take n l ++ take m (drop n l))%list = take (n + m) l.
Proof.
  revert l. induction n as [|n IH]; intros l; simpl; [by rewrite drop_0|].
  destruct l as [|x l]; simpl; [by rewrite take_nil|]. by rewrite IH.
Qed.

(** The orders of the columns are transitive. *)
Lemma string_compare_trans (a b c : string) :
  String.compare a b <> Gt -> String.compare b c <> Gt -> String.compare a c <> Gt.
Proof.
  revert b c. induction a as [|x a IH]; intros [|y b] [|z c]; simpl; try congruence.
  unfold Ascii.compare.
  destruct (N.compare_spec (N_of_ascii x) (N_of_ascii y)),
           (N.compare_spec (N_of_ascii y) (N_of_ascii z)),
           (N.compare_spec (N_of_ascii x) (N_of_ascii z));
    intros Hab Hbc; try congruence; try (exfalso; lia); eauto.
Qed.

Lemma string_leb_trans (a b c : string) :
  String.leb a b = true -> String.leb b c = true -> String.leb a c = true.
Proof.
  unfold String.leb. intros Hab Hbc.
  pose proof (string_compare_trans a b c) as H.
  destruct (String.compare a b), (String.compare b c), (String.compare a c);
    try reflexivity; try discriminate; exfalso; apply H; congruence.
Qed.

Lemma field_le_trans f (p q r : Project.t) :
  field_le f p q = true -> field_le f q r = true -> field_le f p r = true.
Proof.
  destruct f; simpl.
  - rewrite !Z.leb_le. lia.
  - apply string_leb_trans.
  - rewrite !Z.leb_le. lia.
Qed.

Lemma row_le_trans o (r1 r2 r3 : JoinRow) :
  row_le o r1 r2 = true -> row_le o r2 r3 = true -> row_le o r1 r3 = true.
Proof.
  unfold row_le. destruct (o.2); intros H1 H2.
  - exact (field_le_trans _ _ _ _ H1 H2).
  - exact (field_le_trans _ _ _ _ H2 H1).
Qed.

(** Rows without ties have one sorted order only. *)
Lemma sorted_order_unique o (l1 l2 : list JoinRow) :
  no_ties o l1 ->
  Permutation l1 l2 ->
  Sorted (fun r r' => row_le o r r' = true) l1 ->
  Sorted (fun r r' => row_le o r r' = true) l2 ->
  l1 = l2.
Proof.
  intros Hties Hp H1 H2.
  assert (Htr : Relations_1.Transitive (fun r r' : JoinRow => row_le o r r' = true)).
  { intros r1 r2 r3. apply row_le_trans. }
  apply (Sorted_StronglySorted Htr) in H1, H2. clear Htr.
  revert l2 Hp H2. induction l1 as [|x l1 IH]; intros l2 Hp H2.
  - by apply Permutation_nil in Hp.
  - destruct l2 as [|y l2]; [by apply Permutation_sym, Permutation_nil in Hp|].
    apply StronglySorted_inv in H1 as [H1 Hx]. apply StronglySorted_inv in H2 as [H2 Hy].
    rewrite List.Forall_forall in Hx, Hy.
    assert (Hxy : x = y).
    { assert (Hin : In x (y :: l2)) by (apply (Permutation_in _ Hp); by left).
      assert (Hin' : In y (x :: l1))
        by (apply (Permutation_in _ (Permutation_sym Hp)); by left).
      destruct Hin as [Heq|Hin]; [by symmetry|].
      destruct Hin' as [Heq|Hin']; [exact Heq|].
      apply Hties; [by left|by right|by apply Hx|by apply Hy]. }
    subst y. f_equal. apply IH; [|exact H1| |exact H2].
    + intros r r' Hr Hr'. apply Hties; by right.
    + by apply Permutation_cons_inv in Hp.
Qed.

(** X12: when no two of the rows that pass the filters tie under the sort
    key, these rows have one sorted order only, whatever the engine does
    with ties, and pages follow one another without gap or overlap: the
    page of [limit1] rows at [offset] followed by the page of [limit2]
    rows at [offset + limit1] is the page of [limit1 + limit2] rows at
    [offset]. *)
Theorem read_projects_pages_compose cc cat st sort offset limit1 limit2 s :
  0 <= offset -> 1 <= limit1 -> 1 <= limit2 -> limit1 + limit2 <= 100 ->
  no_ties (sort_order sort) (List.filter (where_ cc cat st) (joined_rows s)) ->
  (forall rows,
     Permutation rows (List.filter (where_ cc cat st) (joined_rows s)) ->
     Sorted (fun r r' => row_le (sort_order sort) r r' = true) rows ->
     rows = order_by (sort_order sort) (List.filter (where_ cc cat st) (joined_rows s)))
  /\ exists page1 page2,
       read_projects cc cat st sort offset limit1 s = Return page1
       /\ read_projects cc cat st sort (offset + limit1) limit2 s = Return page2
       /\ read_projects cc cat st sort offset (limit1 + limit2) s
          = Return (page1 ++ page2)%list.
Proof.
  intros Ho H1 H2 H12 Hties. split.
  - intros rows Hp Hs. apply (sorted_order_unique (sort_order sort)).
    + intros r r' Hr Hr'.
      apply Hties; by apply (Permutation_in _ Hp).
    + rewrite Hp. symmetry. apply order_by_Permutation.
    + exact Hs.
    + apply order_by_Sorted.
  - eexists _, _.
    split; [apply read_projects_returns; lia|].
    split; [apply read_projects_returns; lia|].
    rewrite read_projects_returns by lia. f_equal.
    rewrite <- map_app. f_equal.
    rewrite !Z2Nat.inj_add by lia. rewrite <- drop_drop. apply eq_sym, take_app_drop.
Qed.

Lemma read_projects_pages_compose_witness :
  exists page1 page2,
    read_projects None None None "id_asc" 0 1 two_project_store = Return page1
    /\ read_projects None None None "id_asc" (0 + 1) 1 two_project_store = Return page2
    /\ read_projects None None None "id_asc" 0 (1 + 1) two_project_store
       = Return (page1 ++ page2)%list.
Proof.
  apply (read_projects_pages_compose None None None "id_asc" 0 1 1 two_project_store);
    try lia.
  intros r r' Hr Hr'. vm_compute in Hr, Hr'.
  destruct Hr as [<-|[<-|[]]], Hr' as [<-|[<-|[]]]; intros Hle Hle';
    first [reflexivity | vm_compute in Hle; discriminate Hle
          | vm_compute in Hle'; discriminate Hle'].
Defined.

Lemma view_le_row_le o r r' :
  row_le o r r' = true -> view_le o (project_view r) (project_view r').
Proof.
  destruct r as [[[p c] a] k], r' as [[[p' c'] a'] k'], o as [[] []];
    unfold row_le, view_le; simpl; auto.
Qed.

(** X13: whatever the sort string, the page is in the order it selects:
    keys, titles or update times non-decreasing for an ascending key and
    non-increasing for a descending one, update times non-increasing for
    an unrecognized string. *)
Theorem read_projects_sorted cc cat st sort offset limit s page :
  read_projects cc cat st sort offset limit s = Return page ->
  Sorted (view_le (sort_order sort)) page.
Proof.
  intros Hr. apply read_projects_Return in Hr as (_ & _ & ->).
  apply (Sorted_map (fun r r' => row_le (sort_order sort) r r' = true)).
  - intros r r'. apply view_le_row_le.
  - apply Sorted_take, Sorted_drop, order_by_Sorted.
Qed.

Lemma read_projects_sorted_witness :
  exists page,
    read_projects None None None "id_desc" 0 20 two_project_store = Return page
    /\ Sorted (view_le (by_id, desc)) page.
Proof.
  eexists. split; [reflexivity|].
  apply (read_projects_sorted None None None "id_desc" 0 20 two_project_store).
  reflexivity.
Defined.

(** *** One row per project *)

Lemma filter_none {A} (P : A -> bool) (l : list A) :
  (forall x, In x l -> P x = false) -> List.filter P l = [].
Proof.
  induction l as [|x l IH]; simpl; intros H; [reflexivity|].
  rewrite (H x (or_introl eq_refl)). apply IH. intros y Hy. apply H. by right.
Qed.

(** Under a unique key, a filter on the key keeps at most the first row
    it finds. *)
Lemma filter_at_most_one {A B} (f : A -> B) (P : A -> bool) (l : list A) :
  NoDup (map f l) ->
  (forall x y, P x = true -> P y = true -> f x = f y) ->
  List.filter P l = match List.find P l with Some x => [x] | None => [] end.
Proof.
  intros Hnd Hkey. induction l as [|x l IH]; simpl in *; [reflexivity|].
  apply NoDup_cons in Hnd as [Hx Hnd]. destruct (P x) eqn:Ex; [|by apply IH].
  rewrite filter_none; [reflexivity|].
  intros y Hy. destruct (P y) eqn:Ey; [exfalso|reflexivity].
  apply Hx. rewrite (Hkey x y Ex Ey). apply list_elem_of_In, in_map, Hy.
Qed.

Lemma join_contractor_unique s (a : ProcurementAward.t) :
  NoDup (map Contractor.id (contractor s)) ->
  join_contractor s a = [contractor_of_award s a].
Proof.
  intros Hnd. unfold join_contractor, contractor_of_award.
  rewrite (filter_at_most_one Contractor.id _ _ Hnd).
  - by destruct (List.find _ _).
  - intros x y Hx Hy. apply bool_decide_eq_true in Hx, Hy. congruence.
Qed.

Lemma join_award_unique s p :
  NoDup (map Contractor.id (contractor s)) -> one_award_per_project s ->
  join_award s p = [first_join_award s p].
Proof.
  intros Hk Hone. unfold join_award, first_join_award, award_of_project.
  rewrite (filter_at_most_one ProcurementAward.project_id _ _ Hone).
  - destruct (List.find _ _) as [a|]; [|reflexivity]. simpl.
    by rewrite (join_contractor_unique s a Hk).
  - intros x y Hx Hy. apply bool_decide_eq_true in Hx, Hy. congruence.
Qed.

Lemma project_rows_unique s p :
  join_keys_ok s ->
  project_rows s p
  = match session_get_constituency s (Project.constituency_code p) with
    | Some c => [(p, c, (first_join_award s p).1, (first_join_award s p).2)]
    | None => []
    end.
Proof.
  intros (Hc & Hk & Hone). unfold project_rows, session_get_constituency.
  rewrite (List.filter_ext _ (fun c0 => bool_decide (Constituency.code c0
                                                  = Project.constituency_code p)))
    by (intros c0; apply bool_decide_ext; split; congruence).
  rewrite (filter_at_most_one Constituency.code _ _ Hc).
  - destruct (List.find _ _) as [c|]; [|reflexivity]. simpl.
    by rewrite (join_award_unique s p Hk Hone).
  - intros x y Hx Hy. apply bool_decide_eq_true in Hx, Hy. congruence.
Qed.

Lemma joined_rows_projects s :
  join_keys_ok s ->
  map row_project (joined_rows s) = List.filter (has_constituency s) (project s).
Proof.
  intros Hok. unfold joined_rows. induction (project s) as [|p l IH]; simpl; [reflexivity|].
  rewrite map_app, IH, (project_rows_unique s p Hok).
  destruct (session_get_constituency s (Project.constituency_code p)) as [c|] eqn:E.
  - assert (H : has_constituency s p = true).
    { unfold has_constituency. rewrite E. apply bool_decide_eq_true_2. eauto. }
    by rewrite H.
  - assert (H : has_constituency s p = false).
    { unfold has_constituency. rewrite E. apply bool_decide_eq_false_2. by intros [c Hc]. }
    by rewrite H.
Qed.

Lemma filter_all {A} (P : A -> bool) (l : list A) :
  (forall x, P x = true) -> List.filter P l = l.
Proof.
  intros H. induction l as [|x l IH]; simpl; [reflexivity|]. by rewrite H, IH.
Qed.

Lemma map_project_view_id (rows : list JoinRow) :
  map ProjectReadWithConstituency.id (map project_view rows)
  = map Project.id (map row_project rows).
Proof.
  rewrite !map_map. apply map_ext. intros r. apply row_project_view_id.
Qed.

(** X14: when constituency codes and contractor keys are unique and no
    project has two awards, a request without filter whose limit covers
    the project table lists every stored project that has its constituency
    row exactly once, and nothing else, whatever the sort key. *)
Theorem read_projects_lists_each_project_once sort limit s :
  join_keys_ok s ->
  1 <= limit <= 100 ->
  Z.of_nat (length (project s)) <= limit ->
  exists page,
    read_projects None None None sort 0 limit s = Return page
    /\ Permutation (map ProjectReadWithConstituency.id page)
                   (map Project.id (List.filter (has_constituency s) (project s))).
Proof.
  intros Hok Hl Hlen. eexists. split; [apply read_projects_returns; lia|].
  rewrite drop_0, (filter_all (where_ None None None)) by reflexivity.
  assert (Hn : (length (order_by (sort_order sort) (joined_rows s))
                <= Z.to_nat limit)%nat).
  { rewrite (Permutation_length (order_by_Permutation _ _)).
    rewrite <- (length_map row_project), (joined_rows_projects s Hok).
    pose proof (List.filter_length_le (has_constituency s) (project s)). lia. }
  rewrite take_ge by exact Hn.
  rewrite map_project_view_id, <- (joined_rows_projects s Hok).
  apply Permutation_map, Permutation_map, order_by_Permutation.
Qed.

Lemma read_projects_lists_each_project_once_witness :
  exists page,
    read_projects None None None "title_desc" 0 20 two_project_store = Return page
    /\ Permutation (map ProjectReadWithConstituency.id page) [42; 43].
Proof.
  apply (read_projects_lists_each_project_once "title_desc" 20 two_project_store).
  - unfold join_keys_ok, one_award_per_project. simpl. split; [|split].
    + apply NoDup_singleton.
    + apply NoDup_cons. split; [|apply NoDup_singleton].
      rewrite list_elem_of_singleton. discriminate.
    + apply NoDup_singleton.
  - lia.
  - simpl. lia.
Defined.

End ViewAssemblerMore.

(** * Further properties of the bulk import *)

Section BulkImportMore.

Variable py_float : string -> option float.
Variable strptime : string -> string -> option datetime.

Implicit Types (s : Store) (row : gmap string string) (r : Payload.t).

Lemma row_has_key_false row :
  row_has_key row = false <-> row_title row = "" \/ row_constituency_code row = "".
Proof.
  unfold row_has_key. rewrite negb_false_iff, orb_true_iff, !bool_decide_eq_true. tauto.
Qed.

Lemma row_has_key_true row : row_has_key row = true <-> has_natural_key row.
Proof.
  unfold row_has_key, has_natural_key.
  rewrite negb_true_iff, orb_false_iff, !bool_decide_eq_false. tauto.
Qed.

(** X15: a row without title or without constituency code is skipped
    wherever it stands in the file: the import gives the store and the
    counts it gives for the file without that row. *)
Theorem import_csv_skips_row_without_key now before row after s :
  row_title row = "" \/ row_constituency_code row = "" ->
  import_csv py_float strptime now (before ++ row :: after) s
  = import_csv py_float strptime now (before ++ after) s.
Proof.
  intros Hskip. unfold import_csv. f_equal.
  generalize (s, (0, 0)). induction before as [|row0 before IH]; intros st; simpl.
  - by rewrite (import_row_skips py_float strptime now row st Hskip).
  - destruct (import_row _ _ now row0 st); simpl; [apply IH|reflexivity].
Qed.

(** What one turn of the loop does, when it does not raise. *)
Lemma import_row_Return now row s c u st' :
  import_row py_float strptime now row (s, (c, u)) = Return st' ->
  (row_has_key row = false /\ st' = (s, (c, u)))
  \/ (row_has_key row = true
      /\ exists r s',
           build_payload py_float strptime row (row_title row)
                         (row_constituency_code row) (row_source_doc_ref row) = Return r
           /\ ((find_existing s (row_title row) (row_constituency_code row)
                              (row_source_doc_ref row) = None
                /\ s' = with_project s
                          (project s ++ [new_project (next_id (map Project.id (project s)))
                                                     r now])
                /\ st' = (s', (c + 1, u)))
               \/ (exists e,
                     find_existing s (row_title row) (row_constituency_code row)
                                   (row_source_doc_ref row) = Some e
                     /\ s' = with_project s
                               (map (fun p => if bool_decide (Project.id p = Project.id e)
                                              then set_payload p r else p)
                                    (project s))
                     /\ st' = (s', (c, u + 1))))).
Proof.
  destruct (row_has_key row) eqn:Ek.
  - apply row_has_key_true in Ek as [Ht Hc]. unfold import_row.
    rewrite !bool_decide_eq_false_2 by assumption. simpl.
    destruct (build_payload _ _ _ _ _ _) as [r|e]; [|discriminate]. simpl.
    intros H. right. split; [reflexivity|]. exists r.
    destruct (find_existing _ _ _ _) as [e|]; simpl in H.
    + destruct (write_project_check _ _ _); [discriminate|]. simpl in H.
      injection H as <-. eexists. split; [reflexivity|]. right. exists e. auto.
    + destruct (write_project_check _ _ _); [discriminate|]. simpl in H.
      injection H as <-. eexists. split; [reflexivity|]. left. auto.
  - apply row_has_key_false in Ek as Hs. intros H. left. split; [reflexivity|].
    rewrite (import_row_skips py_float strptime now row (s, (c, u)) Hs) in H. congruence.
Qed.

Lemma import_rows_cons now row rows (st : ImportState) :
  import_rows py_float strptime now (row :: rows) st
  = bind (import_row py_float strptime now row st)
         (import_rows py_float strptime now rows).
Proof. reflexivity. Qed.

Lemma import_rows_counts now rows s c u s' c' u' :
  import_rows py_float strptime now rows (s, (c, u)) = Return (s', (c', u')) ->
  c' + u' = c + u + Z.of_nat (length (List.filter row_has_key rows))
  /\ c <= c' /\ u <= u'
  /\ Z.of_nat (length (project s')) = Z.of_nat (length (project s)) + (c' - c)
  /\ constituency s' = constituency s /\ contractor s' = contractor s
  /\ procurementaward s' = procurementaward s /\ user s' = user s.
Proof.
  revert s c u. induction rows as [|row rows IH]; intros s c u.
  - simpl. intros [= <- <- <-]. repeat split; lia.
  - rewrite import_rows_cons.
    destruct (import_row py_float strptime now row (s, (c, u))) as [st1|e] eqn:E1;
      [|discriminate].
    simpl. intros Hrest.
    apply import_row_Return in E1 as [[Hk ->]|(Hk & r & s1 & _ & [(_ & -> & ->)|(e & _ & -> & ->)])];
      rewrite Hk; apply IH in Hrest as (H1 & H2 & H3 & H4 & H5 & H6 & H7 & H8);
      simpl in *; rewrite ?length_app, ?length_map in H4; simpl in H4;
      repeat split; try assumption; lia.
Qed.

(** X16: when the import succeeds, the two counts add up to the number of
    rows that carry a title and a constituency code, the project table has
    grown by exactly the number of rows counted as created, and the other
    tables are as they were. *)
Theorem import_csv_counts now rows s s' created updated :
  import_csv py_float strptime now rows s = (s', Return (created, updated)) ->
  created + updated = Z.of_nat (length (List.filter row_has_key rows))
  /\ 0 <= created /\ 0 <= updated
  /\ Z.of_nat (length (project s')) = Z.of_nat (length (project s)) + created
  /\ constituency s' = constituency s /\ contractor s' = contractor s
  /\ procurementaward s' = procurementaward s /\ user s' = user s.
Proof.
  unfold import_csv.
  destruct (import_rows _ _ now rows (s, (0, 0))) as [[s1 [c1 u1]]|e] eqn:E; [|discriminate].
  intros [= <- <- <-].
  apply import_rows_counts in E as (H1 & H2 & H3 & H4 & H5). repeat split; try tauto; lia.
Qed.

(** *** Keys stored, and the import run again *)

Lemma find_map_pres {A} (f : A -> bool) (g : A -> A) (l : list A) :
  (forall x, In x l -> f (g x) = f x) ->
  List.find f (map g l) = g <$> List.find f l.
Proof.
  induction l as [|x l IH]; simpl; intros H; [reflexivity|].
  rewrite (H x (or_introl eq_refl)). destruct (f x); [reflexivity|].
  apply IH. intros y Hy. apply H. by right.
Qed.

Lemma has_key_fields t c d (p q : Project.t) :
  Project.title p = Project.title q ->
  Project.constituency_code p = Project.constituency_code q ->
  Project.source_doc_ref p = Project.source_doc_ref q ->
  has_key t c d p = has_key t c d q.
Proof. unfold has_key. by intros -> -> ->. Qed.

Lemma has_key_true t c d (p : Project.t) :
  has_key t c d p = true ->
  Project.title p = t /\ Project.constituency_code p = c /\ Project.source_doc_ref p = d.
Proof.
  unfold has_key. intros H. apply andb_prop in H as [H H3]. apply andb_prop in H as [H1 H2].
  apply bool_decide_eq_true in H1, H2, H3. auto.
Qed.

Lemma key_stored_has_key s row :
  key_stored s row
  <-> is_Some (List.find (has_key (row_title row) (row_constituency_code row)
                                  (row_source_doc_ref row)) (project s)).
Proof.
  unfold key_stored. rewrite find_existing_has_key; [reflexivity|].
  unfold row_source_doc_ref. apply or_None_wf.
Qed.

(** The store after a row was inserted or updated: keys stay distinct,
    every natural key stored before is stored after, and so is the key of
    the row. *)
Lemma import_row_keys now row s c u s' c' u' :
  NoDup (map Project.id (project s)) ->
  import_row py_float strptime now row (s, (c, u)) = Return (s', (c', u')) ->
  NoDup (map Project.id (project s'))
  /\ (forall t cc d, is_Some (List.find (has_key t cc d) (project s)) ->
                     is_Some (List.find (has_key t cc d) (project s')))
  /\ (row_has_key row = true -> key_stored s' row)
  /\ (row_has_key row = false \/ key_stored s row ->
      c' = c /\ map Project.id (project s') = map Project.id (project s)).
Proof.
  intros Hnd Hrow.
  apply import_row_Return in Hrow
    as [[Hk [= -> -> ->]]|(Hk & r & s1 & Hb & [(Hnone & -> & [= -> -> ->])
                                              |(e & Hsome & -> & [= -> -> ->])])].
  - split; [exact Hnd|]. split; [auto|]. split; [congruence|auto].
  - apply build_payload_key in Hb as (Ht & Hc & Hd).
    split; [|split; [|split]].
    + simpl. rewrite map_app. simpl. apply NoDup_app. split; [exact Hnd|].
      split; [|apply NoDup_singleton].
      intros x Hx Hx'. apply list_elem_of_singleton in Hx'. subst x.
      apply list_elem_of_In, next_id_fresh in Hx. lia.
    + intros t cc d [p Hp]. simpl. rewrite (find_app_l _ _ _ _ Hp). eauto.
    + intros _. apply key_stored_has_key. simpl.
      destruct (List.find (has_key (row_title row) (row_constituency_code row)
                                   (row_source_doc_ref row)) (project s)) as [p|] eqn:Ep.
      * rewrite (find_app_l _ _ _ _ Ep). eauto.
      * rewrite (find_snoc _ _ _ Ep). rewrite <- Ht, <- Hc, <- Hd.
        rewrite has_key_new_project. eauto.
    + intros [Hf|Hs]; [congruence|]. unfold key_stored in Hs. rewrite Hnone in Hs.
      by destruct Hs.
  - apply build_payload_key in Hb as (Ht & Hc & Hd).
    assert (Hwf : row_source_doc_ref row <> Some "") by apply or_None_wf.
    rewrite find_existing_has_key in Hsome by exact Hwf.
    apply find_some in Hsome as [He Hke]. apply has_key_true in Hke as (Het & Hec & Hed).
    assert (Hids : map Project.id
                     (map (fun p => if bool_decide (Project.id p = Project.id e)
                                    then set_payload p r else p) (project s))
                   = map Project.id (project s)).
    { rewrite map_map. apply map_ext. intros p. by destruct (bool_decide _). }
    assert (Hkeys : forall t cc d p, In p (project s) ->
              has_key t cc d (if bool_decide (Project.id p = Project.id e)
                              then set_payload p r else p)
              = has_key t cc d p).
    { intros t cc d p Hp. case_bool_decide as Hid; [|reflexivity].
      assert (p = e) as -> by (by apply (NoDup_map_inj_in Project.id (project s))).
      apply has_key_fields; simpl; congruence. }
    assert (Hfind : forall t cc d,
              is_Some (List.find (has_key t cc d) (project s)) ->
              is_Some (List.find (has_key t cc d)
                         (map (fun p => if bool_decide (Project.id p = Project.id e)
                                        then set_payload p r else p) (project s)))).
    { intros t cc d [p Hp]. rewrite find_map_pres by (intros; by apply Hkeys).
      rewrite Hp. simpl. eauto. }
    split; [|split; [|split]]; simpl.
    + by rewrite Hids.
    + exact Hfind.
    + intros _. apply key_stored_has_key. simpl. apply Hfind.
      apply (find_first_some _ _ e He). unfold has_key.
      by rewrite !bool_decide_eq_true_2.
    + intros _. split; [reflexivity|exact Hids].
Qed.

Lemma import_rows_keys now rows s c u s' c' u' :
  NoDup (map Project.id (project s)) ->
  import_rows py_float strptime now rows (s, (c, u)) = Return (s', (c', u')) ->
  NoDup (map Project.id (project s'))
  /\ (forall t cc d, is_Some (List.find (has_key t cc d) (project s)) ->
                     is_Some (List.find (has_key t cc d) (project s')))
  /\ (forall row, In row rows -> row_has_key row = true -> key_stored s' row).
Proof.
  revert s c u. induction rows as [|row rows IH]; intros s c u Hnd.
  - simpl. intros [= <- <- <-]. split; [exact Hnd|]. split; [auto|]. intros row [].
  - rewrite import_rows_cons.
    destruct (import_row py_float strptime now row (s, (c, u))) as [[s1 [c1 u1]]|e] eqn:E1;
      [|discriminate].
    simpl. intros Hrest.
    destruct (import_row_keys _ _ _ _ _ _ _ _ Hnd E1) as (Hnd1 & Hpres1 & Hst1 & _).
    destruct (IH _ _ _ Hnd1 Hrest) as (Hnd' & Hpres' & Hst').
    split; [exact Hnd'|]. split; [auto|].
    intros row' [<-|Hin] Hk; [|by apply Hst'].
    apply key_stored_has_key, Hpres', key_stored_has_key, Hst1, Hk.
Qed.

Lemma import_rows_no_create now rows s c u s' c' u' :
  NoDup (map Project.id (project s)) ->
  (forall row, In row rows -> row_has_key row = true -> key_stored s row) ->
  import_rows py_float strptime now rows (s, (c, u)) = Return (s', (c', u')) ->
  c' = c /\ map Project.id (project s') = map Project.id (project s).
Proof.
  revert s c u. induction rows as [|row rows IH]; intros s c u Hnd Hst.
  - simpl. intros [= <- <- <-]. auto.
  - rewrite import_rows_cons.
    destruct (import_row py_float strptime now row (s, (c, u))) as [[s1 [c1 u1]]|e] eqn:E1;
      [|discriminate].
    simpl. intros Hrest.
    destruct (import_row_keys _ _ _ _ _ _ _ _ Hnd E1) as (Hnd1 & Hpres1 & _ & Hsame).
    destruct Hsame as [-> Hids].
    { destruct (row_has_key row) eqn:Ek; [right|by left]. apply Hst; [by left|exact Ek]. }
    destruct (IH s1 c u1 Hnd1) as [-> Hids']; [|exact Hrest|split; congruence].
    intros row' Hin Hk. apply key_stored_has_key, Hpres1, key_stored_has_key, Hst; auto.
    by right.
Qed.

(** X17: when the project keys are distinct and the import succeeds,
    every row of the file that carries a title and a constituency code has
    a stored project with its natural key afterwards, the project keys are
    still distinct, and no natural key that was stored got lost. *)
Theorem import_csv_stores_every_key now rows s s' counts :
  NoDup (map Project.id (project s)) ->
  import_csv py_float strptime now rows s = (s', Return counts) ->
  (forall row, In row rows -> row_has_key row = true -> key_stored s' row)
  /\ NoDup (map Project.id (project s'))
  /\ (forall row, key_stored s row -> key_stored s' row).
Proof.
  intros Hnd. unfold import_csv.
  destruct (import_rows _ _ now rows (s, (0, 0))) as [[s1 [c1 u1]]|e] eqn:E; [|discriminate].
  intros [= <- <-].
  destruct (import_rows_keys _ _ _ _ _ _ _ _ Hnd E) as (Hnd' & Hpres & Hst).
  split; [exact Hst|]. split; [exact Hnd'|].
  intros row Hrow. apply key_stored_has_key, Hpres, key_stored_has_key, Hrow.
Qed.

(** X18: the import is idempotent on the file: run a second time on the
    store the first run left, it creates no project, counts every keyed
    row as updated and leaves the project keys as they are. *)
Theorem import_csv_idempotent now1 now2 rows s s1 s2 counts1 created2 updated2 :
  NoDup (map Project.id (project s)) ->
  import_csv py_float strptime now1 rows s = (s1, Return counts1) ->
  import_csv py_float strptime now2 rows s1 = (s2, Return (created2, updated2)) ->
  created2 = 0
  /\ updated2 = Z.of_nat (length (List.filter row_has_key rows))
  /\ map Project.id (project s2) = map Project.id (project s1).
Proof.
  intros Hnd. unfold import_csv.
  destruct (import_rows _ _ now1 rows (s, (0, 0))) as [[sa [ca ua]]|e] eqn:E1;
    [|discriminate].
  intros [= <- <-].
  destruct (import_rows _ _ now2 rows (sa, (0, 0))) as [[sb [cb ub]]|e] eqn:E2;
    [|discriminate].
  intros [= <- <- <-].
  destruct (import_rows_keys _ _ _ _ _ _ _ _ Hnd E1) as (Hnd1 & _ & Hst).
  destruct (import_rows_no_create _ _ _ _ _ _ _ _ Hnd1 Hst E2) as [-> Hids].
  apply import_rows_counts in E2 as (Hsum & _). split; [reflexivity|].
  split; [lia|exact Hids].
Qed.

(** *** Defaults and enumerations *)

Lemma get_or_blank row key default : blank row key -> get_or row key default = default.
Proof. unfold get_or. by intros [-> | ->]. Qed.

(** X19: a row that gives nothing but its natural key is read as
    category Other, status Planned, budget 0.0, not mock, and null for
    every other field; the parsers of numbers and dates are not consulted
    for empty cells. *)
Theorem build_payload_defaults row title constituency_code source_doc_ref :
  (forall key,
     In key ["description"; "category"; "status"; "budget"; "spent"; "progress";
             "start_date"; "completion_date"; "is_mock"; "source_name"; "source_url"] ->
     blank row key) ->
  build_payload py_float strptime row title constituency_code source_doc_ref
  = Return (default_payload title constituency_code source_doc_ref).
Proof.
  intros Hblank. unfold build_payload, budget_of.
  rewrite !get_or_blank by (apply Hblank; simpl; tauto).
  reflexivity.
Qed.

(** X20: the two enumerations are read back from their own values, and
    a text is accepted only if, stripped, it is the value of the member
    returned; the match is exact, letter case included. *)
Theorem normalize_enum_round_trip :
  (forall c, normalize_category (ProjectCategory_value c) = Return c)
  /\ (forall value c, normalize_category value = Return c ->
        strip value = ProjectCategory_value c)
  /\ (forall st, normalize_status (ProjectStatus_value st) = Return st)
  /\ (forall value st, normalize_status value = Return st ->
        strip value = ProjectStatus_value st).
Proof.
  split; [by intros []|]. split.
  - intros value c. unfold normalize_category.
    repeat case_bool_decide; intros [= <-]; assumption.
  - split; [by intros []|].
    intros value st. unfold normalize_status.
    repeat case_bool_decide; intros [= <-]; assumption.
Qed.

End BulkImportMore.

Lemma import_csv_skips_row_without_key_witness :
  import_csv unused_float unused_strptime 3000
             ([borehole_b_row] ++ (∅ : gmap string string) :: [borehole_b_row_v2])
             sample_store
  = import_csv unused_float unused_strptime 3000 ([borehole_b_row] ++ [borehole_b_row_v2])
               sample_store.
Proof.
  apply (import_csv_skips_row_without_key unused_float unused_strptime 3000
           [borehole_b_row] ∅ [borehole_b_row_v2] sample_store).
  left. reflexivity.
Defined.

Lemma import_csv_counts_witness :
  exists s',
    import_csv unused_float unused_strptime 3000 [borehole_b_row; ∅; borehole_b_row_v2]
               sample_store = (s', Return (1, 1))
    /\ Z.of_nat (length (project s')) = Z.of_nat (length (project sample_store)) + 1.
Proof.
  eexists. split; [reflexivity|].
  eapply (import_csv_counts unused_float unused_strptime 3000
            [borehole_b_row; ∅; borehole_b_row_v2] sample_store).
  reflexivity.
Defined.

Lemma import_csv_stores_every_key_witness :
  key_stored
    (import_csv unused_float unused_strptime 3000 [borehole_b_row; borehole_b_row_v2]
                sample_store).1
    borehole_b_row_v2.
Proof.
  assert (Hnd : NoDup (map Project.id (project sample_store)))
    by (simpl; apply NoDup_singleton).
  destruct (import_csv_stores_every_key unused_float unused_strptime 3000
              [borehole_b_row; borehole_b_row_v2] sample_store
              (import_csv unused_float unused_strptime 3000
                          [borehole_b_row; borehole_b_row_v2] sample_store).1
              (1, 1) Hnd eq_refl) as [H _].
  apply H; [right; left; reflexivity|reflexivity].
Defined.

Lemma import_csv_idempotent_witness :
  map Project.id
      (project (import_csv unused_float unused_strptime 3001
                           [borehole_b_row; feeder_road_row_fixed]
                           (import_csv unused_float unused_strptime 3000
                                       [borehole_b_row; feeder_road_row_fixed]
                                       sample_store).1).1)
  = [42; 43; 44].
Proof.
  assert (Hnd : NoDup (map Project.id (project sample_store)))
    by (simpl; apply NoDup_singleton).
  destruct (import_csv_idempotent unused_float unused_strptime 3000 3001
              [borehole_b_row; feeder_road_row_fixed] sample_store
              (import_csv unused_float unused_strptime 3000
                          [borehole_b_row; feeder_road_row_fixed] sample_store).1
              (import_csv unused_float unused_strptime 3001
                          [borehole_b_row; feeder_road_row_fixed]
                          (import_csv unused_float unused_strptime 3000
                                      [borehole_b_row; feeder_road_row_fixed]
                                      sample_store).1).1
              (2, 0) 0 2 Hnd eq_refl eq_refl) as (_ & _ & H).
  rewrite H. reflexivity.
Defined.

Lemma build_payload_defaults_witness :
  build_payload unused_float unused_strptime
                (list_to_map [("title", "Borehole C"); ("constituency_code", "001")])
                "Borehole C" "001" None
  = Return (default_payload "Borehole C" "001" None).
Proof.
  apply (build_payload_defaults unused_float unused_strptime).
  intros key Hkey. left. simpl in Hkey.
  repeat (destruct Hkey as [<-|Hkey]; [reflexivity|]). destruct Hkey.
Defined.

Example normalize_category_case_sensitive :
  normalize_category " water " = Raise (ValueError "water")
  /\ normalize_category " Water " = Return Water.
Proof. split; reflexivity. Qed.

(** * Further properties of the access guard *)

Section AccessGuardMore.

Variable jwt_encode : string -> datetime -> string.
Variable jwt_decode : datetime -> string -> option (option string).
Variable argon2_verify : string -> string -> bool.
Variable ACCESS_TOKEN_EXPIRE_MINUTES : Z.

Implicit Types (s : Store) (now : datetime) (token username password : string).

Lemma select_user_username s username (u : User.t) :
  select_user s username = Some u -> User.username u = username /\ In u (user s).
Proof.
  unfold select_user. intros H. apply find_some in H as [Hin H].
  by apply bool_decide_eq_true in H.
Qed.

(** A rewrite of rows that keeps usernames commutes with the lookup by
    username. *)
Lemma find_username_map (g : User.t -> User.t) (l : list User.t) username :
  (forall u, User.username (g u) = User.username u) ->
  List.find (fun u => bool_decide (User.username u = username)) (map g l)
  = g <$> List.find (fun u => bool_decide (User.username u = username)) l.
Proof.
  intros Hg. apply find_map_pres. intros u _. by rewrite Hg.
Qed.

(** X21: [login] answers an unknown username and a wrong password with
    the same 401 "Incorrect username or password"; it raises nothing else,
    and a failed login issues no token and changes nothing, last_login
    included. *)
Theorem login_rejects now username password s :
  (select_user s username = None
   \/ (exists usr, select_user s username = Some usr
                   /\ argon2_verify (User.password_hash usr) password = false) ->
   login jwt_encode argon2_verify ACCESS_TOKEN_EXPIRE_MINUTES now username password s
   = (s, Raise (HTTPException 401 "Incorrect username or password")))
  /\ (forall s' e,
        login jwt_encode argon2_verify ACCESS_TOKEN_EXPIRE_MINUTES now username password s
        = (s', Raise e) ->
        s' = s /\ e = HTTPException 401 "Incorrect username or password").
Proof.
  unfold login. split.
  - intros [-> | (usr & -> & ->)]; reflexivity.
  - intros s' e. destruct (select_user s username) as [usr|]; [|by intros [= <- <-]].
    destruct (argon2_verify _ _); [discriminate|by intros [= <- <-]].
Qed.

(** X22: a successful [login] returns a bearer token made for the
    username with the configured lifetime, and writes one thing: the
    last_login of that user becomes the time of the login.  Keys,
    usernames, password hashes, roles and statuses of all users, and all
    other tables, stay as they are. *)
Theorem login_success now username password s (usr : User.t) :
  select_user s username = Some usr ->
  argon2_verify (User.password_hash usr) password = true ->
  exists s',
    login jwt_encode argon2_verify ACCESS_TOKEN_EXPIRE_MINUTES now username password s
    = (s', Return (jwt_encode username (now + ACCESS_TOKEN_EXPIRE_MINUTES * 60000000),
                   "bearer"))
    /\ select_user s' username = Some (set_last_login usr now)
    /\ map identity_of (user s') = map identity_of (user s)
    /\ (forall u, In u (user s) -> User.id u <> User.id usr -> In u (user s'))
    /\ project s' = project s /\ constituency s' = constituency s
    /\ contractor s' = contractor s /\ procurementaward s' = procurementaward s.
Proof.
  intros Hu Hpw. destruct (select_user_username s username usr Hu) as [Hname Hin].
  eexists. unfold login. rewrite Hu, Hpw. unfold create_access_token. rewrite Hname.
  split; [reflexivity|]. simpl. split; [|split; [|split]].
  - unfold select_user in *. simpl. rewrite find_username_map.
    + rewrite Hu. simpl. by rewrite bool_decide_eq_true_2.
    + intros u. by destruct (bool_decide _).
  - rewrite map_map. apply map_ext. intros u. by destruct (bool_decide _).
  - intros u Hinu Hne. apply in_map_iff. exists u.
    rewrite bool_decide_eq_false_2 by exact Hne. auto.
  - auto.
Qed.

Lemma get_current_user_Return now token s (u : User.t) :
  get_current_user jwt_decode now token s = Return u <->
  exists username,
    jwt_decode now token = Some (Some username) /\ username <> ""
    /\ select_user s username = Some u /\ User.status u = active.
Proof.
  unfold get_current_user. split.
  - destruct (jwt_decode now token) as [[username|]|]; try discriminate.
    simpl. unfold or_None. case_bool_decide as Hne; [discriminate|].
    destruct (select_user s username) as [usr|] eqn:Hu; [|discriminate].
    case_bool_decide as Hst; [discriminate|]. intros [= <-].
    exists username. repeat split; auto. by destruct (User.status usr).
  - intros (username & -> & Hne & Hsel & Hst). simpl. unfold or_None.
    rewrite bool_decide_eq_false_2 by exact Hne. rewrite Hsel.
    rewrite bool_decide_eq_false_2; [reflexivity|]. by rewrite Hst.
Qed.

(** X23: a token issued by [login] to an active account is accepted by
    [me] until it expires, and [me] then shows the identity of the account
    with the last_login the login has just written.  (The collaborators
    are asked one thing: a token decodes to its subject before its expiry.) *)
Theorem login_then_me now now' username password s (usr : User.t) :
  (forall sub exp, now' < exp -> jwt_decode now' (jwt_encode sub exp) = Some (Some sub)) ->
  now' < now + ACCESS_TOKEN_EXPIRE_MINUTES * 60000000 ->
  username <> "" ->
  select_user s username = Some usr ->
  argon2_verify (User.password_hash usr) password = true ->
  User.status usr = active ->
  exists token s',
    login jwt_encode argon2_verify ACCESS_TOKEN_EXPIRE_MINUTES now username password s
    = (s', Return (token, "bearer"))
    /\ me jwt_decode now' token s' = Return (user_dict (set_last_login usr now)).
Proof.
  intros Hrt Hexp Hne Hu Hpw Hst. unfold login. rewrite Hu, Hpw.
  eexists _, _. split; [reflexivity|].
  destruct (select_user_username s username usr Hu) as [Hname _].
  unfold me.
  rewrite (proj2 (get_current_user_Return now' _ _ (set_last_login usr now)));
    [reflexivity|].
  exists username. unfold create_access_token. rewrite Hname.
  split; [by apply Hrt|]. split; [exact Hne|]. split; [|exact Hst].
  unfold select_user in *. simpl. rewrite find_username_map.
  - rewrite Hu. simpl. by rewrite bool_decide_eq_true_2.
  - intros u. by destruct (bool_decide _).
Qed.

(** X24: [get_current_user] returns a user exactly when the token
    decodes to a non-empty username under which an active user is stored;
    a token that does not verify, carries no subject or names no stored
    user gets the one 401 "Could not validate credentials", and the only
    other exception is the 403 of a disabled account. *)
Theorem get_current_user_outcomes now token s :
  (forall u, get_current_user jwt_decode now token s = Return u <->
     exists username,
       jwt_decode now token = Some (Some username) /\ username <> ""
       /\ select_user s username = Some u /\ User.status u = active)
  /\ (jwt_decode now token = None
      \/ jwt_decode now token = Some None
      \/ jwt_decode now token = Some (Some "")
      \/ (exists username, jwt_decode now token = Some (Some username)
                           /\ select_user s username = None) ->
      get_current_user jwt_decode now token s
      = Raise (HTTPException 401 "Could not validate credentials"))
  /\ (forall e, get_current_user jwt_decode now token s = Raise e ->
        e = HTTPException 401 "Could not validate credentials"
        \/ e = HTTPException 403 "Account disabled").
Proof.
  split; [intros u; apply get_current_user_Return|]. unfold get_current_user. split.
  - intros [-> | [-> | [-> | (username & -> & Hnone)]]]; try reflexivity.
    simpl. unfold or_None. case_bool_decide; [reflexivity|]. by rewrite Hnone.
  - intros e. destruct (jwt_decode now token) as [sub|]; [|intros [= <-]; by left].
    destruct (or_None _) as [username|]; [|intros [= <-]; by left].
    destruct (select_user s username); [|intros [= <-]; by left].
    case_bool_decide; [intros [= <-]; by right|discriminate].
Qed.

(** X25: [require_admin] returns a user only if it is an active
    administrator; an active user of another role gets 403 "Admin access
    required", and whatever [get_current_user] raises is raised unchanged,
    so that a disabled administrator gets "Account disabled". *)
Theorem require_admin_outcomes now token s :
  (forall u, require_admin jwt_decode now token s = Return u <->
     get_current_user jwt_decode now token s = Return u /\ User.role u = admin)
  /\ (forall u, require_admin jwt_decode now token s = Return u ->
        User.role u = admin /\ User.status u = active /\ In u (user s))
  /\ (forall u, get_current_user jwt_decode now token s = Return u ->
        User.role u <> admin ->
        require_admin jwt_decode now token s
        = Raise (HTTPException 403 "Admin access required"))
  /\ (forall e, get_current_user jwt_decode now token s = Raise e ->
        require_admin jwt_decode now token s = Raise e).
Proof.
  assert (H1 : forall u, require_admin jwt_decode now token s = Return u <->
                 get_current_user jwt_decode now token s = Return u /\ User.role u = admin).
  { intros u. unfold require_admin.
    destruct (get_current_user jwt_decode now token s) as [usr|e]; simpl.
    - case_bool_decide as Hr; split.
      + discriminate.
      + intros [[= ->] Hadm]. contradiction.
      + intros [= <-]. split; [reflexivity|]. by destruct (User.role usr).
      + by intros [[= ->] _].
    - split; [discriminate|by intros [? _]]. }
  split; [exact H1|]. split; [|split].
  - intros u Hu. apply H1 in Hu as [Hg Hadm].
    apply get_current_user_Return in Hg as (username & _ & _ & Hsel & Hst).
    apply select_user_username in Hsel as [_ Hin]. auto.
  - intros u Hg Hr. unfold require_admin. rewrite Hg. simpl.
    by rewrite bool_decide_eq_true_2.
  - intros e Hg. unfold require_admin. by rewrite Hg.
Qed.

End AccessGuardMore.

Lemma login_rejects_witness :
  login clear_encode clear_verify 1440 400 "nobody" "s3cret" user_store
  = (user_store, Raise (HTTPException 401 "Incorrect username or password")).
Proof.
  apply (login_rejects clear_encode clear_verify 1440 400 "nobody" "s3cret" user_store).
  left. reflexivity.
Defined.

Lemma login_success_witness :
  exists s',
    login clear_encode clear_verify 1440 400 "otieno" "pa55word" user_store
    = (s', Return ("otieno", "bearer"))
    /\ select_user s' "otieno" = Some (set_last_login otieno 400).
Proof.
  destruct (login_success clear_encode clear_verify 1440 400 "otieno" "pa55word"
              user_store otieno eq_refl eq_refl) as (s' & H1 & H2 & _).
  exists s'. split; assumption.
Defined.

Lemma login_then_me_witness :
  exists token s',
    login clear_encode clear_verify 1440 400 "otieno" "pa55word" user_store
    = (s', Return (token, "bearer"))
    /\ me clear_decode 500 token s' = Return (user_dict (set_last_login otieno 400)).
Proof.
  apply (login_then_me clear_encode clear_decode clear_verify 1440 400 500 "otieno"
           "pa55word" user_store otieno); try reflexivity.
  discriminate.
Defined.

Lemma get_current_user_outcomes_witness :
  get_current_user clear_decode 500 "nobody" user_store
  = Raise (HTTPException 401 "Could not validate credentials").
Proof.
  apply (get_current_user_outcomes clear_decode 500 "nobody" user_store).
  right. right. right. exists "nobody". split; reflexivity.
Defined.

Lemma require_admin_outcomes_witness :
  require_admin clear_decode 500 "achieng" staff_store
  = Raise (HTTPException 403 "Admin access required").
Proof.
  apply (require_admin_outcomes clear_decode 500 "achieng" staff_store) with (u := achieng).
  - reflexivity.
  - discriminate.
Defined.

(** * Properties of the user management *)

Section UserManagementProperties.

Variable jwt_decode : datetime -> string -> option (option string).

Implicit Types (s : Store) (now : datetime) (token username : string)
  (payload : gmap string JSON).

Lemma require_admin_active now token s (adm : User.t) :
  require_admin jwt_decode now token s = Return adm ->
  User.role adm = admin /\ User.status adm = active /\ In adm (user s).
Proof.
  unfold require_admin.
  destruct (get_current_user jwt_decode now token s) as [usr|e] eqn:Hg; [|discriminate].
  simpl. case_bool_decide as Hr; [discriminate|]. intros [= <-].
  apply get_current_user_Return in Hg as (username & _ & _ & Hsel & Hst).
  apply select_user_username in Hsel as [_ Hin].
  split; [by destruct (User.role usr)|auto].
Qed.

(** X26: the three handlers that write users serve nobody but an
    active administrator: when [require_admin] raises, its exception is
    the answer, given before the user key or the payload is looked at;
    a request that is answered with an exception, whichever, leaves the
    store as it is; and a request is carried out only with the token of a
    stored, active administrator. *)
Theorem users_router_guarded now token s :
  (forall e, require_admin jwt_decode now token s = Raise e ->
     (forall user_id payload,
        update_role jwt_decode now token user_id payload s = (s, Raise e))
     /\ (forall user_id payload,
           update_status jwt_decode now token user_id payload s = (s, Raise e))
     /\ (forall user_id, delete_user jwt_decode now token user_id s = (s, Raise e)))
  /\ (forall user_id payload s' e,
        update_role jwt_decode now token user_id payload s = (s', Raise e)
        \/ update_status jwt_decode now token user_id payload s = (s', Raise e)
        \/ delete_user jwt_decode now token user_id s = (s', Raise e) ->
        s' = s)
  /\ (forall user_id payload s',
        (exists r, update_role jwt_decode now token user_id payload s = (s', Return r))
        \/ (exists r, update_status jwt_decode now token user_id payload s = (s', Return r))
        \/ (exists r, delete_user jwt_decode now token user_id s = (s', Return r)) ->
        exists adm, require_admin jwt_decode now token s = Return adm
                    /\ User.role adm = admin /\ User.status adm = active
                    /\ In adm (user s)).
Proof.
  split; [|split].
  - intros e Hg. unfold update_role, update_status, delete_user. rewrite Hg. auto.
  - intros user_id payload s' e. unfold update_role, update_status, delete_user.
    destruct (require_admin jwt_decode now token s) as [adm|e0];
      [|intros [H|[H|H]]; congruence].
    destruct (session_get_user s user_id) as [usr|]; [|intros [H|[H|H]]; congruence].
    destruct (get_text payload "role" ≫= UserRole_of_value),
             (get_text payload "status" ≫= UserStatus_of_value),
             (bool_decide (User.id usr = User.id adm));
      intros [H|[H|H]]; congruence.
  - intros user_id payload s' H.
    destruct (require_admin jwt_decode now token s) as [adm|e0] eqn:Hg.
    + exists adm. split; [reflexivity|]. by apply (require_admin_active now token s).
    + exfalso. unfold update_role, update_status, delete_user in H. rewrite Hg in H.
      destruct H as [[r H]|[[r H]|[r H]]]; discriminate.
Qed.

Lemma session_get_user_id s pk (u : User.t) :
  session_get_user s pk = Some u -> User.id u = pk /\ In u (user s).
Proof.
  unfold session_get_user. intros H. apply find_some in H as [Hin H].
  by apply bool_decide_eq_true in H.
Qed.

Lemma find_filter_keep {A} (f g : A -> bool) (l : list A) (x : A) :
  List.find f l = Some x -> g x = true -> List.find f (List.filter g l) = Some x.
Proof.
  intros Hf Hg. induction l as [|y l IH]; simpl in *; [discriminate|].
  destruct (f y) eqn:Ef.
  - injection Hf as ->. rewrite Hg. simpl. by rewrite Ef.
  - destruct (g y); simpl; [rewrite Ef|]; auto.
Qed.

Lemma require_admin_Return now token s (adm : User.t) :
  require_admin jwt_decode now token s = Return adm ->
  User.role adm = admin
  /\ exists username,
       jwt_decode now token = Some (Some username) /\ username <> ""
       /\ select_user s username = Some adm /\ User.status adm = active.
Proof.
  unfold require_admin.
  destruct (get_current_user jwt_decode now token s) as [usr|e] eqn:Hg; [|discriminate].
  simpl. case_bool_decide as Hr; [discriminate|]. intros [= <-].
  split; [by destruct (User.role usr)|]. by apply get_current_user_Return.
Qed.

Lemma require_admin_intro now token s username (u : User.t) :
  jwt_decode now token = Some (Some username) -> username <> "" ->
  select_user s username = Some u -> User.status u = active -> User.role u = admin ->
  require_admin jwt_decode now token s = Return u.
Proof.
  intros Hd Hne Hsel Hst Hr. unfold require_admin.
  rewrite (proj2 (get_current_user_Return jwt_decode now token s u)) by eauto.
  simpl. rewrite bool_decide_eq_false_2; [reflexivity|]. intros H. by apply H.
Qed.

(** X27: an administrator cannot delete the own account: the request
    is answered 400 "Cannot delete your own account" and changes nothing;
    and whenever [delete_user] succeeds, the deleted key is not the
    caller's, no user is stored under it any more, every other user is
    kept, and the caller's token is still that of an administrator. *)
Theorem delete_user_self_protected now token s (adm : User.t) :
  require_admin jwt_decode now token s = Return adm ->
  delete_user jwt_decode now token (User.id adm) s
    = (s, Raise (HTTPException 400 "Cannot delete your own account"))
  /\ (forall user_id s' r,
        delete_user jwt_decode now token user_id s = (s', Return r) ->
        user_id <> User.id adm
        /\ session_get_user s' user_id = None
        /\ (forall u, In u (user s') <-> In u (user s) /\ User.id u <> user_id)
        /\ require_admin jwt_decode now token s' = Return adm).
Proof.
  intros Hadm.
  destruct (require_admin_Return now token s adm Hadm)
    as (Hrole & username & Hd & Hne & Hsel & Hst).
  destruct (select_user_username s username adm Hsel) as [_ Hin].
  split.
  - unfold delete_user. rewrite Hadm.
    destruct (find_first_some (fun u => bool_decide (User.id u = User.id adm)) (user s) adm
                Hin) as [usr Husr]; [by apply bool_decide_eq_true|].
    unfold session_get_user. rewrite Husr.
    apply find_some in Husr as [_ Hid]. by rewrite Hid.
  - intros user_id s' r. unfold delete_user. rewrite Hadm.
    destruct (session_get_user s user_id) as [usr|] eqn:Hget; [|discriminate].
    apply session_get_user_id in Hget as [Hid _].
    case_bool_decide as Hself; [discriminate|]. intros [= <- _].
    assert (Hne' : user_id <> User.id adm) by congruence.
    split; [exact Hne'|]. split; [|split].
    + unfold session_get_user. simpl.
      apply (find_filter_negb (fun u => bool_decide (User.id u = user_id))).
    + intros u. simpl. rewrite filter_In, negb_true_iff, bool_decide_eq_false. tauto.
    + apply (require_admin_intro now token _ username adm); auto.
      unfold select_user in *. simpl. apply find_filter_keep; [exact Hsel|].
      apply negb_true_iff, bool_decide_eq_false_2. congruence.
Qed.

Lemma select_user_update_rows s user_id (g : User.t -> User.t) username :
  (forall u, User.username (g u) = User.username u) ->
  select_user (with_user s (update_user_rows user_id g (user s))) username
  = (fun u => if bool_decide (User.id u = user_id) then g u else u)
    <$> select_user s username.
Proof.
  intros Hg. unfold select_user, update_user_rows. simpl.
  apply find_username_map. intros u. destruct (bool_decide _); [apply Hg|reflexivity].
Qed.

(** X28: a status set by [update_status] governs the very next request
    of that user: once the account is disabled every token of the user is
    answered 403 "Account disabled", the administrator's own included,
    for the handler has no rule against disabling oneself; once it is
    active again the user is let in. *)
Theorem update_status_takes_effect now token payload s (adm usr : User.t) username st :
  require_admin jwt_decode now token s = Return adm ->
  select_user s username = Some usr ->
  username <> "" ->
  payload !! "status" = Some (JString (UserStatus_value st)) ->
  exists s' r,
    update_status jwt_decode now token (User.id usr) payload s = (s', Return r)
    /\ select_user s' username = Some (set_status usr st)
    /\ forall now' token',
         jwt_decode now' token' = Some (Some username) ->
         get_current_user jwt_decode now' token' s'
         = match st with
           | disabled => Raise (HTTPException 403 "Account disabled")
           | active => Return (set_status usr st)
           end.
Proof.
  intros Hadm Hsel Hne Hpay.
  destruct (select_user_username s username usr Hsel) as [_ Hin].
  destruct (find_first_some (fun u => bool_decide (User.id u = User.id usr)) (user s) usr
              Hin) as [usr0 Husr0]; [by apply bool_decide_eq_true|].
  assert (Hst : get_text payload "status" ≫= UserStatus_of_value = Some st).
  { unfold get_text. rewrite Hpay. by destruct st. }
  eexists _, _. unfold update_status. rewrite Hadm. unfold session_get_user.
  rewrite Husr0, Hst. split; [reflexivity|].
  assert (Hsel' : select_user
                    (with_user s (update_user_rows (User.id usr)
                                    (fun u => set_status u st) (user s))) username
                  = Some (set_status usr st)).
  { rewrite select_user_update_rows by reflexivity. rewrite Hsel. simpl.
    by rewrite bool_decide_eq_true_2. }
  split; [exact Hsel'|].
  intros now' token' Hd. destruct st.
  - apply get_current_user_Return. exists username. auto.
  - by apply (get_current_user_disabled jwt_decode now' token' _ username
                (set_status usr disabled)).
Qed.

(** X29: a role set by [update_role] governs the very next request of
    that user: an active user made administrator passes [require_admin],
    one given another role gets 403 "Admin access required", the
    administrator who changes the own role included. *)
Theorem update_role_takes_effect now token payload s (adm usr : User.t) username role :
  require_admin jwt_decode now token s = Return adm ->
  select_user s username = Some usr ->
  username <> "" ->
  User.status usr = active ->
  payload !! "role" = Some (JString (UserRole_value role)) ->
  exists s' r,
    update_role jwt_decode now token (User.id usr) payload s = (s', Return r)
    /\ select_user s' username = Some (set_role usr role)
    /\ forall now' token',
         jwt_decode now' token' = Some (Some username) ->
         require_admin jwt_decode now' token' s'
         = match role with
           | admin => Return (set_role usr role)
           | _ => Raise (HTTPException 403 "Admin access required")
           end.
Proof.
  intros Hadm Hsel Hne Hact Hpay.
  destruct (select_user_username s username usr Hsel) as [_ Hin].
  destruct (find_first_some (fun u => bool_decide (User.id u = User.id usr)) (user s) usr
              Hin) as [usr0 Husr0]; [by apply bool_decide_eq_true|].
  assert (Hr : get_text payload "role" ≫= UserRole_of_value = Some role).
  { unfold get_text. rewrite Hpay. by destruct role. }
  eexists _, _. unfold update_role. rewrite Hadm. unfold session_get_user.
  rewrite Husr0, Hr. split; [reflexivity|].
  assert (Hsel' : select_user
                    (with_user s (update_user_rows (User.id usr)
                                    (fun u => set_role u role) (user s))) username
                  = Some (set_role usr role)).
  { rewrite select_user_update_rows by reflexivity. rewrite Hsel. simpl.
    by rewrite bool_decide_eq_true_2. }
  split; [exact Hsel'|].
  intros now' token' Hd.
  assert (Hg : get_current_user jwt_decode now' token'
                 (with_user s (update_user_rows (User.id usr)
                                 (fun u => set_role u role) (user s)))
               = Return (set_role usr role)).
  { apply get_current_user_Return. exists username. auto. }
  unfold require_admin. rewrite Hg. simpl. by destruct role.
Qed.

(** X30: with the guard passed, an unknown user key is answered 404
    "User not found" by the three handlers, before the payload is looked
    at; for a stored user, a role or status that is missing, is no text or
    is none of the values of the enumeration is answered 400; none of
    these requests changes the store. *)
Theorem users_router_rejections now token s (adm : User.t) user_id payload :
  require_admin jwt_decode now token s = Return adm ->
  (session_get_user s user_id = None ->
   update_role jwt_decode now token user_id payload s
     = (s, Raise (HTTPException 404 "User not found"))
   /\ update_status jwt_decode now token user_id payload s
      = (s, Raise (HTTPException 404 "User not found"))
   /\ delete_user jwt_decode now token user_id s
      = (s, Raise (HTTPException 404 "User not found")))
  /\ (is_Some (session_get_user s user_id) ->
      (forall role, payload !! "role" <> Some (JString (UserRole_value role))) ->
      update_role jwt_decode now token user_id payload s
      = (s, Raise (HTTPException 400 "Invalid role")))
  /\ (is_Some (session_get_user s user_id) ->
      (forall st, payload !! "status" <> Some (JString (UserStatus_value st))) ->
      update_status jwt_decode now token user_id payload s
      = (s, Raise (HTTPException 400 "Invalid status"))).
Proof.
  intros Hadm. unfold update_role, update_status, delete_user. rewrite Hadm.
  split; [by intros ->|]. split.
  - intros [usr ->] Hbad.
    assert (Hr : get_text payload "role" ≫= UserRole_of_value = None); [|by rewrite Hr].
    unfold get_text. destruct (payload !! "role") as [[| | | |v| |]|]; try reflexivity.
    simpl. unfold UserRole_of_value.
    repeat case_bool_decide; try reflexivity; subst v.
    + by destruct (Hbad admin).
    + by destruct (Hbad moderator).
    + by destruct (Hbad viewer).
  - intros [usr ->] Hbad.
    assert (Hr : get_text payload "status" ≫= UserStatus_of_value = None); [|by rewrite Hr].
    unfold get_text. destruct (payload !! "status") as [[| | | |v| |]|]; try reflexivity.
    simpl. unfold UserStatus_of_value.
    repeat case_bool_decide; try reflexivity; subst v.
    + by destruct (Hbad active).
    + by destruct (Hbad disabled).
Qed.

End UserManagementProperties.

Lemma users_router_guarded_witness :
  update_status clear_decode 500 "achieng" 2 disable_payload staff_store
  = (staff_store, Raise (HTTPException 403 "Admin access required")).
Proof.
  destruct (users_router_guarded clear_decode 500 "achieng" staff_store) as [H _].
  apply (H (HTTPException 403 "Admin access required")).
  reflexivity.
Defined.

Lemma delete_user_self_protected_witness :
  delete_user clear_decode 500 "otieno" 2 staff_store
  = (staff_store, Raise (HTTPException 400 "Cannot delete your own account")).
Proof.
  apply (delete_user_self_protected clear_decode 500 "otieno" staff_store otieno).
  reflexivity.
Defined.

Lemma update_status_takes_effect_witness :
  exists s' r,
    update_status clear_decode 500 "otieno" 2 disable_payload staff_store = (s', Return r)
    /\ get_current_user clear_decode 600 "otieno" s'
       = Raise (HTTPException 403 "Account disabled").
Proof.
  destruct (update_status_takes_effect clear_decode 500 "otieno" disable_payload
              staff_store otieno otieno "otieno" disabled)
    as (s' & r & H1 & _ & H2); try reflexivity.
  - discriminate.
  - exists s', r. split; [exact H1|]. by apply H2.
Defined.

Lemma update_role_takes_effect_witness :
  exists s' r,
    update_role clear_decode 500 "otieno" 2 viewer_payload staff_store = (s', Return r)
    /\ require_admin clear_decode 600 "otieno" s'
       = Raise (HTTPException 403 "Admin access required").
Proof.
  destruct (update_role_takes_effect clear_decode 500 "otieno" viewer_payload
              staff_store otieno otieno "otieno" viewer)
    as (s' & r & H1 & _ & H2); try reflexivity.
  - discriminate.
  - exists s', r. split; [exact H1|]. by apply H2.
Defined.

Lemma users_router_rejections_witness :
  update_role clear_decode 500 "otieno" 3 disable_payload staff_store
  = (staff_store, Raise (HTTPException 400 "Invalid role")).
Proof.
  destruct (users_router_rejections clear_decode 500 "otieno" staff_store otieno 3
              disable_payload eq_refl) as (_ & H & _).
  apply H; [by eexists|]. intros role. vm_compute. discriminate.
Defined.
